(** * Painel de Clientes (app.js): ledger aggregation, filtering and backup

    A shallow embedding of [app.js]: its calculation layer, the functions
    that load, save and replace the transaction store, and the texts, cards
    and forms of the page.  It is followed by the properties of the
    specification that were checked against it and by further properties of
    the code.

    Conventions of the embedding.
    - The two globals [allClients] and [allTransactions] are passed
      explicitly to the functions that read them; the functions that write
      them are state transformers over [App.State].
    - A JavaScript number is an exact rational or [NaN]: this embedding
      has no infinities and no negative zero, and its arithmetic does not
      round.  The properties stated over it do not depend on the rounding
      of binary64, or carry the hypothesis under which no operation rounds
      ([wholeAmounts]) or no literal overflows ([withinBinary64]).  The
      balance of a client, whose description depends on the rounding, is
      embedded a second time over the binary64 numbers of the kernel
      ([Binary64]).
    - A JavaScript string is a [string] of one-byte code units. *)

From Stdlib Require Import List String Ascii Bool Arith ZArith Lia.
From Stdlib Require Import QArith Qcanon Lqa.
From Stdlib Require Import Sorting.Sorted Sorting.Permutation.
From Stdlib Require Import Floats.PrimFloat.
Import ListNotations.

Local Open Scope string_scope.
Local Open Scope Z_scope.

(** ** Numbers *)

Inductive number : Type :=
| NaN : number
| Num (q : Qc) : number.

Module JsNum.

Definition ofZ (z : Z) : number := Num (Q2Qc (inject_Z z)).

Definition add (a b : number) : number :=
  match a, b with
  | Num x, Num y => Num (x + y)%Qc
  | _, _ => NaN
  end.

Definition sub (a b : number) : number :=
  match a, b with
  | Num x, Num y => Num (x - y)%Qc
  | _, _ => NaN
  end.

Definition mul (a b : number) : number :=
  match a, b with
  | Num x, Num y => Num (x * y)%Qc
  | _, _ => NaN
  end.

(** Division is only ever applied by the source to a non-zero divisor
    (the literal 100 and a roster length that was tested to be positive);
    a zero divisor would give an infinity or NaN in JavaScript and is
    reported here as [NaN]. *)
Definition div (a b : number) : number :=
  match a, b with
  | Num x, Num y =>
      if Qc_eq_dec y (Q2Qc 0) then NaN else Num (x / y)%Qc
  | _, _ => NaN
  end.

(** Relational operators: any comparison with [NaN] is false. *)
Definition ltb (a b : number) : bool :=
  match a, b with
  | Num x, Num y => match (x ?= y)%Qc with Lt => true | _ => false end
  | _, _ => false
  end.

Definition leb (a b : number) : bool :=
  match a, b with
  | Num x, Num y => match (x ?= y)%Qc with Gt => false | _ => true end
  | _, _ => false
  end.

Definition gtb (a b : number) : bool := ltb b a.
Definition geb (a b : number) : bool := leb b a.

(** Strict equality [===] on numbers. *)
Definition eqb (a b : number) : bool :=
  match a, b with
  | Num x, Num y => if Qc_eq_dec x y then true else false
  | _, _ => false
  end.

(** ToBoolean: [0] and [NaN] are falsy. *)
Definition truthy (a : number) : bool :=
  match a with
  | Num x => if Qc_eq_dec x (Q2Qc 0) then false else true
  | NaN => false
  end.

End JsNum.

Declare Scope js_scope.
Delimit Scope js_scope with js.
Bind Scope js_scope with number.
Infix "+" := JsNum.add : js_scope.
Infix "-" := JsNum.sub : js_scope.
Infix "*" := JsNum.mul : js_scope.
Infix "/" := JsNum.div : js_scope.
Notation "# z" := (JsNum.ofZ z) (at level 1, format "# z") : js_scope.

(** ** Data model *)

(** The records of [clientes.json].  Only [id], [nome], [empresa] and
    [comissaoPct] take part in the calculations; the other properties are
    shown on the card of the client. *)
Module Endereco.
Record t : Type := mk {
  logouro : string;
  numero : string;
  bairro : string;
  cidade : string;
  estado : string
}.
End Endereco.

Module Client.
Record t : Type := mk {
  id : string;
  nome : string;
  empresa : string;
  celular : string;
  vendedor : string;
  bandeira : string;
  senha : string;
  comissaoPct : option number;    (* [None]: the property is absent *)
  enderecoCompleto : Endereco.t
}.
End Client.

Module Transaction.
Record t : Type := mk {
  id : string;
  clienteId : string;
  tipo : string;
  valor : number;
  data : string
}.
End Transaction.

(** ** Balance of a client *)

Definition getTransactionsForClient
    (allTransactions : list Transaction.t) (clientId : string) : list Transaction.t :=
  filter (fun t => String.eqb (Transaction.clienteId t) clientId) allTransactions.

Definition balanceStep (acc : number) (trans : Transaction.t) : number :=
  if String.eqb (Transaction.tipo trans) "entrada" then
    (acc + Transaction.valor trans)%js
  else if String.eqb (Transaction.tipo trans) "saida" then
    (acc - Transaction.valor trans)%js
  else acc.

Definition calculateClientBalance
    (allTransactions : list Transaction.t) (clientId : string) : number :=
  let clientTransactions := getTransactionsForClient allTransactions clientId in
  fold_left balanceStep clientTransactions (#0)%js.

(** ** Dates

    [parseDate] appends ['T00:00:00'] to a ['yyyy-mm-dd'] string and hands it
    to the [Date] constructor, which reads a date-time without a zone
    designator as local time.  Dates are compared and subtracted through
    their time value (milliseconds since the epoch, [NaN] for an invalid
    date). *)

Record CalendarDate : Type := mkDate {
  year : Z;
  month : Z;
  day : Z
}.

Definition isLeapYear (y : Z) : bool :=
  ((y mod 4 =? 0) && negb (y mod 100 =? 0)) || (y mod 400 =? 0).

Definition daysInMonth (y m : Z) : Z :=
  if (m =? 2) then (if isLeapYear y then 29 else 28)
  else if (m =? 4) || (m =? 6) || (m =? 9) || (m =? 11) then 30
  else 31.

(** Number of days of the year [y] that precede the first of month [m]. *)
Definition daysBeforeMonth (y m : Z) : Z :=
  let leap := if isLeapYear y then 1 else 0 in
  if m <=? 1 then 0
  else if m =? 2 then 31
  else if m =? 3 then 59 + leap
  else if m =? 4 then 90 + leap
  else if m =? 5 then 120 + leap
  else if m =? 6 then 151 + leap
  else if m =? 7 then 181 + leap
  else if m =? 8 then 212 + leap
  else if m =? 9 then 243 + leap
  else if m =? 10 then 273 + leap
  else if m =? 11 then 304 + leap
  else 334 + leap.

(** Day number of the first of January of year [y], relative to 1970. *)
Definition dayFromYear (y : Z) : Z :=
  365 * (y - 1970) + (y - 1969) / 4 - (y - 1901) / 100 + (y - 1601) / 400.

Definition dayNumber (d : CalendarDate) : Z :=
  dayFromYear (year d) + daysBeforeMonth (year d) (month d) + (day d - 1).

Definition validDate (d : CalendarDate) : bool :=
  (0 <=? year d) && (year d <=? 9999) &&
  (1 <=? month d) && (month d <=? 12) &&
  (1 <=? day d) && (day d <=? daysInMonth (year d) (month d)).

Definition digitValue (c : ascii) : option Z :=
  let n := Z.of_nat (nat_of_ascii c) in
  if (48 <=? n) && (n <=? 57) then Some (n - 48) else None.

(** Value of a non-empty string of decimal digits. *)
Fixpoint digitsFrom (acc : Z) (s : string) : option Z :=
  match s with
  | EmptyString => Some acc
  | String c rest =>
      match digitValue c with
      | Some v => digitsFrom (10 * acc + v) rest
      | None => None
      end
  end.

Definition digitsValue (s : string) : option Z :=
  match s with
  | EmptyString => None
  | _ => digitsFrom 0 s
  end.

(** The date part ['yyyy-mm-dd'] of the date-time format. *)
Definition parseCalendarDate (s : string) : option CalendarDate :=
  if negb (Nat.eqb (String.length s) 10) then None
  else if negb (String.eqb (substring 4 1 s) "-") then None
  else if negb (String.eqb (substring 7 1 s) "-") then None
  else
    match digitsValue (substring 0 4 s),
          digitsValue (substring 5 2 s),
          digitsValue (substring 8 2 s) with
    | Some y, Some m, Some d =>
        let cd := mkDate y m d in
        if validDate cd then Some cd else None
    | _, _, _ => None
    end.

(** The time part ['HH:mm:ss'], in milliseconds since midnight. *)
Definition parseTimeOfDay (s : string) : option Z :=
  if negb (Nat.eqb (String.length s) 8) then None
  else if negb (String.eqb (substring 2 1 s) ":") then None
  else if negb (String.eqb (substring 5 1 s) ":") then None
  else
    match digitsValue (substring 0 2 s),
          digitsValue (substring 3 2 s),
          digitsValue (substring 6 2 s) with
    | Some h, Some mi, Some sec =>
        if (h <=? 23) && (mi <=? 59) && (sec <=? 59)
        then Some ((h * 3600 + mi * 60 + sec) * 1000)
        else None
    | _, _, _ => None
    end.

Definition msPerDay : Z := 86400000.

Section LocalTime.

(** Offset of the local time zone from UTC, in milliseconds; it is taken
    to be the same on every day. *)
Variable LocalTZA : Z.

(** [new Date(s)] for a string in the form ['yyyy-mm-ddTHH:mm:ss'],
    reduced to its time value.  A string of another form, or one whose date
    the calendar does not have, is given [NaN] here, while an engine may
    still read a date from it: the properties take the dates that they
    compare to be calendar dates. *)
Definition newDate (s : string) : number :=
  if negb (String.eqb (substring 10 1 s) "T") then NaN
  else
    match parseCalendarDate (substring 0 10 s),
          parseTimeOfDay (substring 11 (String.length s - 11) s) with
    | Some d, Some ms => (#(dayNumber d * msPerDay + ms - LocalTZA))%js
    | _, _ => NaN
    end.

Definition parseDate (dateString : string) : number :=
  newDate (dateString ++ "T00:00:00").

End LocalTime.

(** ** Dashboard statistics *)

Record DashboardStats : Type := mkStats {
  totalClientes : number;
  saldoTotal : number;
  comissaoTotalValor : number;
  comissaoMediaPct : number
}.

(** [c.comissaoPct || 0]: an absent, zero or NaN percentage gives [0]. *)
Definition comissaoPctOrZero (c : Client.t) : number :=
  match Client.comissaoPct c with
  | Some p => if JsNum.truthy p then p else (#0)%js
  | None => (#0)%js
  end.

(** A date bound is taken into account when the argument is truthy:
    [null] and the empty string of an unset date input give no bound. *)
Definition dateBound (LocalTZA : Z) (d : option string) : option number :=
  match d with
  | Some s => if String.eqb s "" then None else Some (parseDate LocalTZA s)
  | None => None
  end.

Definition inPeriod (LocalTZA : Z) (start end_ : option number)
    (t : Transaction.t) : bool :=
  let transDate := parseDate LocalTZA (Transaction.data t) in
  if match start with Some s => JsNum.ltb transDate s | None => false end
  then false
  else if match end_ with Some e => JsNum.gtb transDate e | None => false end
  then false
  else true.

(** [allClients.find(c => c.id === clienteId)] *)
Definition findClient (allClients : list Client.t) (clienteId : string)
    : option Client.t :=
  find (fun c => String.eqb (Client.id c) clienteId) allClients.

(** One turn of the loop over the filtered transactions; the state is the
    pair [(saldoTotal, comissaoTotalValor)]. *)
Definition dashboardStep (allClients : list Client.t)
    (acc : number * number) (trans : Transaction.t) : number * number :=
  let '(saldo, comissao) := acc in
  if String.eqb (Transaction.tipo trans) "entrada" then
    let saldo' := (saldo + Transaction.valor trans)%js in
    match findClient allClients (Transaction.clienteId trans) with
    | Some client =>
        match Client.comissaoPct client with
        | Some pct =>
            if JsNum.truthy pct
            then (saldo', (comissao + Transaction.valor trans * (pct / #100))%js)
            else (saldo', comissao)
        | None => (saldo', comissao)
        end
    | None => (saldo', comissao)
    end
  else if String.eqb (Transaction.tipo trans) "saida" then
    ((saldo - Transaction.valor trans)%js, comissao)
  else (saldo, comissao).

Definition filteredTransactions (LocalTZA : Z)
    (allTransactions : list Transaction.t) (startDate endDate : option string)
    : list Transaction.t :=
  let start := dateBound LocalTZA startDate in
  let end_ := dateBound LocalTZA endDate in
  filter (inPeriod LocalTZA start end_) allTransactions.

Definition calculateDashboardStats (LocalTZA : Z)
    (allClients : list Client.t) (allTransactions : list Transaction.t)
    (startDate endDate : option string) : DashboardStats :=
  let totalClientes := Z.of_nat (List.length allClients) in
  let totalComissaoPct :=
    if 0 <? totalClientes
    then fold_left (fun acc c => (acc + comissaoPctOrZero c)%js) allClients (#0)%js
    else (#0)%js in
  let comissaoMediaPct :=
    if 0 <? totalClientes then (totalComissaoPct / #totalClientes)%js
    else (#0)%js in
  let filtered := filteredTransactions LocalTZA allTransactions startDate endDate in
  let '(saldoTotal, comissaoTotalValor) :=
    fold_left (dashboardStep allClients) filtered ((#0)%js, (#0)%js) in
  mkStats (#totalClientes)%js saldoTotal comissaoTotalValor comissaoMediaPct.

(** ** Search and balance filter *)

(** [{...client, saldo: calculateClientBalance(client.id)}] *)
Record ClientWithSaldo : Type := mkResult {
  client : Client.t;
  saldo : number
}.

Definition isUpper (c : ascii) : bool :=
  let n := nat_of_ascii c in
  ((65 <=? n) && (n <=? 90))%nat ||
  (* Latin-1 capitals, the multiplication sign (215) excepted *)
  ((192 <=? n) && (n <=? 222) && negb (n =? 215))%nat.

Definition lowerChar (c : ascii) : ascii :=
  if isUpper c then ascii_of_nat (nat_of_ascii c + 32) else c.

Fixpoint toLowerCase (s : string) : string :=
  match s with
  | EmptyString => EmptyString
  | String c rest => String (lowerChar c) (toLowerCase rest)
  end.

(** [s.includes(sub)]: [sub] occurs in [s] at some position. *)
Fixpoint includes (s sub : string) : bool :=
  prefix sub s ||
  match s with
  | EmptyString => false
  | String _ rest => includes rest sub
  end.

Definition matchesQuery (lowerQuery : string) (r : ClientWithSaldo) : bool :=
  includes (toLowerCase (Client.nome (client r))) lowerQuery ||
  includes (toLowerCase (Client.empresa (client r))) lowerQuery ||
  includes (toLowerCase (Client.id (client r))) lowerQuery.

(** The predicate selected by the [switch] over the balance filter; [None]
    when no [case] matches, in which case the results are left as they
    are. *)
Definition balancePredicate (balanceFilter : string)
    : option (ClientWithSaldo -> bool) :=
  if String.eqb balanceFilter "positivo" then
    Some (fun c => JsNum.gtb (saldo c) (#0)%js)
  else if String.eqb balanceFilter "0-500" then
    Some (fun c => JsNum.gtb (saldo c) (#0)%js && JsNum.leb (saldo c) (#500)%js)
  else if String.eqb balanceFilter "501-1000" then
    Some (fun c => JsNum.geb (saldo c) (#501)%js && JsNum.leb (saldo c) (#1000)%js)
  else if String.eqb balanceFilter "1001+" then
    Some (fun c => JsNum.gtb (saldo c) (#1000)%js)
  else if String.eqb balanceFilter "negativo" then
    Some (fun c => JsNum.ltb (saldo c) (#0)%js)
  else if String.eqb balanceFilter "zero" then
    Some (fun c => JsNum.eqb (saldo c) (#0)%js)
  else None.

Definition applyTextFilter (query : string) (results : list ClientWithSaldo)
    : list ClientWithSaldo :=
  if (0 <? String.length query)%nat then
    let lowerQuery := toLowerCase query in
    filter (matchesQuery lowerQuery) results
  else results.

Definition applyBalanceFilter (balanceFilter : string)
    (results : list ClientWithSaldo) : list ClientWithSaldo :=
  if negb (String.eqb balanceFilter "todos") then
    match balancePredicate balanceFilter with
    | Some p => filter p results
    | None => results
    end
  else results.

(** The list of results that [refreshSearchResults] hands, one by one and in
    order, to [renderClientCard]. *)
Definition refreshSearchResults
    (allClients : list Client.t) (allTransactions : list Transaction.t)
    (query balanceFilter : string) : list ClientWithSaldo :=
  let results :=
    map (fun c => mkResult c (calculateClientBalance allTransactions (Client.id c)))
        allClients in
  let results := applyTextFilter query results in
  applyBalanceFilter balanceFilter results.

(** ** Recent transactions of a client card *)

(** [Array.prototype.sort] with a comparison function: the sort is stable,
    an element [x] is moved behind [y] when [comparefn(x, y) > 0], and a
    [NaN] result of the comparison function counts as [0]. *)
Section Sort.

Context {A : Type}.
Variable comparefn : A -> A -> number.

Definition comesAfter (x y : A) : bool :=
  JsNum.gtb (comparefn x y) (#0)%js.

Fixpoint insertSorted (x : A) (l : list A) : list A :=
  match l with
  | [] => [x]
  | y :: l' => if comesAfter x y then y :: insertSorted x l' else x :: l
  end.

Definition sort (l : list A) : list A :=
  fold_right insertSorted [] l.

End Sort.

(** [(a, b) => parseDate(b.data) - parseDate(a.data)] *)
Definition compareRecent (LocalTZA : Z) (a b : Transaction.t) : number :=
  (parseDate LocalTZA (Transaction.data b) - parseDate LocalTZA (Transaction.data a))%js.

(** [Array.prototype.slice(0, n)] *)
Definition slice0 {A : Type} (n : nat) (l : list A) : list A := firstn n l.

Definition clientTransactionsSorted (LocalTZA : Z)
    (allTransactions : list Transaction.t) (clientId : string)
    : list Transaction.t :=
  sort (compareRecent LocalTZA) (getTransactionsForClient allTransactions clientId).

Definition isTipo (tipo : string) (t : Transaction.t) : bool :=
  String.eqb (Transaction.tipo t) tipo.

(** The two lists [entradas] and [saidas] of [renderClientCard]. *)
Definition recentEntradas (LocalTZA : Z)
    (allTransactions : list Transaction.t) (clientId : string)
    : list Transaction.t :=
  slice0 4 (filter (isTipo "entrada")
              (clientTransactionsSorted LocalTZA allTransactions clientId)).

Definition recentSaidas (LocalTZA : Z)
    (allTransactions : list Transaction.t) (clientId : string)
    : list Transaction.t :=
  slice0 4 (filter (isTipo "saida")
              (clientTransactionsSorted LocalTZA allTransactions clientId)).

(** ** Notions used to state the properties *)

(** Sum of a list of numbers, the empty sum being [0]. *)
Definition sumOf (l : list number) : number :=
  fold_right JsNum.add (#0)%js l.


(** ** Sample data

    The scenario of the specification: one client with a commission of 10%
    and one entrada of 1000, with a second client and further movements
    added to exercise the other branches. *)

Definition mkClient (id nome empresa : string) (pct : option number) : Client.t :=
  Client.mk id nome empresa "" "" "" "" pct (Endereco.mk "" "" "" "" "").

Definition sampleRoster : list Client.t :=
  [ mkClient "c1" "Maria Souza" "Padaria Central" (Some (#10)%js);
    mkClient "c2" "JOSE LIMA" "Oficina Lima" None ].

Definition sampleStore : list Transaction.t :=
  [ Transaction.mk "trans_1" "c1" "entrada" (#1000)%js "2024-01-10";
    Transaction.mk "trans_2" "c1" "saida" (#300)%js "2024-01-20";
    Transaction.mk "trans_3" "c2" "entrada" (#500)%js "2024-02-01";
    Transaction.mk "trans_4" "c1" "estorno" (#50)%js "2024-02-02";
    Transaction.mk "trans_5" "zz" "entrada" (#40)%js "2024-02-03" ].


(** The records of the data model carry numbers in their numeric fields. *)
Definition isNumber (n : number) : bool :=
  match n with
  | NaN => false
  | Num _ => true
  end.

Definition rosterNumeric (allClients : list Client.t) : bool :=
  forallb (fun c => match Client.comissaoPct c with
                    | Some p => isNumber p
                    | None => true
                    end) allClients.

Definition storeNumeric (transactions : list Transaction.t) : bool :=
  forallb (fun t => isNumber (Transaction.valor t)) transactions.

(** Commission earned on one transaction: [valor * (comissaoPct / 100)] of
    the client found in the roster by [clienteId], and [0] when no client
    is found or the client has no [comissaoPct]. *)
Definition commissionOf (allClients : list Client.t) (t : Transaction.t) : number :=
  match findClient allClients (Transaction.clienteId t) with
  | Some c =>
      match Client.comissaoPct c with
      | Some pct => (Transaction.valor t * (pct / #100))%js
      | None => (#0)%js
      end
  | None => (#0)%js
  end.




(** Calendar order: [a] is the same day as [b] or an earlier one. *)
Definition dateLe (a b : CalendarDate) : Prop :=
  year a < year b
  \/ (year a = year b
      /\ (month a < month b \/ (month a = month b /\ day a <= day b))).

(** Reading of a date-range argument: [Some None] for an absent bound
    ([null] or the empty string), [Some (Some d)] for the calendar date [d],
    [None] for a string that is not a calendar date. *)
Definition readBound (arg : option string) : option (option CalendarDate) :=
  match arg with
  | None => Some None
  | Some s =>
      if String.eqb s "" then Some None
      else option_map Some (parseCalendarDate s)
  end.

(** A date lies in a range when it is not before the lower bound, if there
    is one, and not after the upper bound, if there is one. *)
Definition withinRange (start end_ : option CalendarDate) (d : CalendarDate) : Prop :=
  (forall s, start = Some s -> dateLe s d)
  /\ (forall e, end_ = Some e -> dateLe d e).


(** A result passes the balance filter when the filter keeps it. *)
Definition keeps (balanceFilter : string) (r : ClientWithSaldo) : bool :=
  match applyBalanceFilter balanceFilter [r] with
  | [] => false
  | _ :: _ => true
  end.

(** The filter values that name a range of balances. *)
Definition rangeBuckets : list string :=
  ["0-500"; "501-1000"; "1001+"; "negativo"; "zero"].


(** [s] contains [q] as a substring up to the case of the letters: some
    substring of [s] has the same lower-case form as [q]. *)
Definition containsIgnoringCase (s q : string) : Prop :=
  exists pre mid post,
    s = pre ++ mid ++ post /\ toLowerCase mid = toLowerCase q.

(** The clients annotated with their balance, in roster order. *)
Definition annotateWithSaldo (allClients : list Client.t)
    (allTransactions : list Transaction.t) : list ClientWithSaldo :=
  map (fun c => mkResult c (calculateClientBalance allTransactions (Client.id c)))
      allClients.


(** [a] is dated the same day as [b] or a later one; both carry a calendar
    date. *)
Definition notOlder (a b : Transaction.t) : Prop :=
  exists da db,
    parseCalendarDate (Transaction.data a) = Some da
    /\ parseCalendarDate (Transaction.data b) = Some db
    /\ dateLe db da.

Definition hasCalendarDate (t : Transaction.t) : bool :=
  match parseCalendarDate (Transaction.data t) with
  | Some _ => true
  | None => false
  end.

(** [shown] holds the [n] most recent of the [candidates], most recent
    first: it is the front of an arrangement of the candidates by
    descending date, cut after [n] entries. *)
Definition mostRecentFirst (n : nat) (shown candidates : list Transaction.t) : Prop :=
  exists rest,
    Permutation (shown ++ rest)%list candidates
    /\ StronglySorted notOlder (shown ++ rest)%list
    /\ List.length shown = Nat.min n (List.length candidates).


(** Day number of the date of a transaction ([0] when it has none). *)
Definition dateKey (t : Transaction.t) : Z :=
  match parseCalendarDate (Transaction.data t) with
  | Some d => dayNumber d
  | None => 0
  end.


(** A store with more than four entradas of one client, out of date
    order. *)
Definition busyStore : list Transaction.t :=
  [ Transaction.mk "trans_1" "c1" "entrada" (#10)%js "2024-03-05";
    Transaction.mk "trans_2" "c1" "entrada" (#20)%js "2024-01-15";
    Transaction.mk "trans_3" "c1" "saida" (#5)%js "2024-02-01";
    Transaction.mk "trans_4" "c1" "entrada" (#30)%js "2024-06-30";
    Transaction.mk "trans_5" "c2" "entrada" (#99)%js "2024-07-01";
    Transaction.mk "trans_6" "c1" "entrada" (#40)%js "2023-12-31";
    Transaction.mk "trans_7" "c1" "entrada" (#50)%js "2024-04-01";
    Transaction.mk "trans_8" "c1" "entrada" (#60)%js "2024-02-29" ].


(** ** JSON values and [JSON.stringify]

    The transaction store is an array of plain objects; the persistence
    and backup functions handle it as a JSON value, without looking at the
    shape of its elements. *)

#[warnings="-register-all"]
Inductive json : Type :=
| JNull : json
| JBool (b : bool) : json
| JNumber (n : number) : json
| JString (s : string) : json
| JArray (elements : list json) : json
| JObject (properties : list (string * json)) : json.

Definition dquote : ascii := ascii_of_nat 34.
Definition backslash : ascii := ascii_of_nat 92.

Definition str1 (c : ascii) : string := String c EmptyString.

Definition digitChar (d : Z) : ascii := ascii_of_nat (48 + Z.to_nat d).

(** Decimal digits of a non-negative integer, most significant first. *)
Fixpoint digitsAux (fuel : nat) (n : Z) (acc : string) : string :=
  let acc' := String (digitChar (n mod 10)) acc in
  match fuel with
  | O => acc'
  | S fuel' => if n <? 10 then acc' else digitsAux fuel' (n / 10) acc'
  end.

Definition digitsOfZ (n : Z) : string :=
  digitsAux (Z.to_nat (Z.log2 n)) n "".

Fixpoint zeros (k : nat) : string :=
  match k with
  | O => ""
  | S k' => String "0" (zeros k')
  end.

Fixpoint stripTrailingZeros (s : string) : string :=
  match s with
  | EmptyString => EmptyString
  | String c rest =>
      match stripTrailingZeros rest with
      | EmptyString => if Ascii.eqb c "0" then EmptyString else str1 c
      | rest' => String c rest'
      end
  end.

(** The least [e] from [e0] on for which [den] divides [10^e]. *)
Fixpoint decimalExponent (fuel : nat) (e0 : nat) (den : Z) : option nat :=
  if (10 ^ Z.of_nat e0) mod den =? 0 then Some e0
  else match fuel with
       | O => None
       | S fuel' => decimalExponent fuel' (S e0) den
       end.

(** Layout of the digits [s] of a positive number whose value is
    [0.s * 10^n], as prescribed for [Number.prototype.toString]. *)
Definition formatDecimal (digits : string) (n : Z) : string :=
  let s := stripTrailingZeros digits in
  let k := Z.of_nat (String.length s) in
  if (k <=? n) && (n <=? 21) then s ++ zeros (Z.to_nat (n - k))
  else if (0 <? n) && (n <=? 21) then
    substring 0 (Z.to_nat n) s ++ "." ++ substring (Z.to_nat n) (Z.to_nat (k - n)) s
  else if (-6 <? n) && (n <=? 0) then "0." ++ zeros (Z.to_nat (- n)) ++ s
  else
    let e := n - 1 in
    let mantissa :=
      if k =? 1 then s
      else substring 0 1 s ++ "." ++ substring 1 (Z.to_nat (k - 1)) s in
    mantissa ++ "e" ++ (if e <? 0 then "-" else "+") ++ digitsOfZ (Z.abs e).

(** [num / den] for positive [num] and [den].  A ratio without a finite
    decimal expansion is not the value of any binary64 number; it is
    printed from its expansion cut after twenty fractional digits. *)
Definition positiveToString (num den : Z) : string :=
  match decimalExponent (Z.to_nat (Z.log2 den)) 0 den with
  | Some e =>
      let digits := digitsOfZ (num * (10 ^ Z.of_nat e / den)) in
      formatDecimal digits (Z.of_nat (String.length digits) - Z.of_nat e)
  | None =>
      let m := num * 10 ^ 20 / den in
      if m =? 0 then "0"
      else
        let digits := digitsOfZ m in
        formatDecimal digits (Z.of_nat (String.length digits) - 20)
  end.

(** [Number.prototype.toString], radix 10. *)
Definition numberToString (n : number) : string :=
  match n with
  | NaN => "NaN"
  | Num q =>
      match Qnum (this q) with
      | Z0 => "0"
      | Zpos p => positiveToString (Zpos p) (Zpos (Qden (this q)))
      | Zneg p => "-" ++ positiveToString (Zpos p) (Zpos (Qden (this q)))
      end
  end.

Definition hexChar (n : nat) : ascii :=
  if (n <? 10)%nat then ascii_of_nat (48 + n) else ascii_of_nat (87 + n).

(** One code unit of a string, as [QuoteJSONString] writes it. *)
Definition quoteChar (c : ascii) : string :=
  let n := nat_of_ascii c in
  if (n =? 8)%nat then "\b"
  else if (n =? 9)%nat then "\t"
  else if (n =? 10)%nat then "\n"
  else if (n =? 12)%nat then "\f"
  else if (n =? 13)%nat then "\r"
  else if (n =? 34)%nat then String backslash (str1 dquote)
  else if (n =? 92)%nat then String backslash (str1 backslash)
  else if (n <? 32)%nat then
    "\u00" ++ String (hexChar (n / 16)) (str1 (hexChar (n mod 16)))
  else str1 c.

Fixpoint quoteChars (s : string) : string :=
  match s with
  | EmptyString => EmptyString
  | String c rest => quoteChar c ++ quoteChars rest
  end.

Definition quoteJSONString (s : string) : string :=
  String dquote (quoteChars s ++ str1 dquote).

Definition newline : string := str1 (ascii_of_nat 10).

Fixpoint joinWith (sep : string) (parts : list string) : string :=
  match parts with
  | [] => ""
  | [p] => p
  | p :: rest => p ++ sep ++ joinWith sep rest
  end.

(** [SerializeJSONProperty] with its two helpers for arrays and objects;
    [gap] is the indentation unit and [indent] the current indentation. *)
Fixpoint serialize (gap indent : string) (v : json) : string :=
  match v with
  | JNull => "null"
  | JBool true => "true"
  | JBool false => "false"
  | JNumber n => if isNumber n then numberToString n else "null"
  | JString s => quoteJSONString s
  | JArray elements =>
      let stepback := indent in
      let indent := indent ++ gap in
      match elements with
      | [] => "[]"
      | _ =>
          let partial := map (serialize gap indent) elements in
          if String.eqb gap "" then "[" ++ joinWith "," partial ++ "]"
          else
            let separator := "," ++ newline ++ indent in
            "[" ++ newline ++ indent ++ joinWith separator partial
                ++ newline ++ stepback ++ "]"
      end
  | JObject properties =>
      let stepback := indent in
      let indent := indent ++ gap in
      match properties with
      | [] => "{}"
      | _ =>
          let member (kv : string * json) :=
            quoteJSONString (fst kv) ++ ":"
              ++ (if String.eqb gap "" then "" else " ")
              ++ serialize gap indent (snd kv) in
          let partial := map member properties in
          if String.eqb gap "" then "{" ++ joinWith "," partial ++ "}"
          else
            let separator := "," ++ newline ++ indent in
            "{" ++ newline ++ indent ++ joinWith separator partial
                ++ newline ++ stepback ++ "}"
      end
  end.

(** [JSON.stringify(value)] and [JSON.stringify(value, null, 2)]. *)
Definition JSON_stringify (v : json) : string := serialize "" "" v.
Definition JSON_stringify_pretty (v : json) : string := serialize "  " "" v.


(** ** [JSON.parse]

    A recursive-descent reader of the JSON grammar.  Strings are limited to
    code units below 256: a [\u] escape beyond that range has no
    counterpart in the model and the reader gives no result for it. *)

Definition isWhitespace (c : ascii) : bool :=
  let n := nat_of_ascii c in
  ((n =? 32) || (n =? 9) || (n =? 10) || (n =? 13))%nat.

Fixpoint skipWhitespace (s : string) : string :=
  match s with
  | String c rest => if isWhitespace c then skipWhitespace rest else s
  | EmptyString => s
  end.

Definition isDigit (c : ascii) : bool :=
  let n := nat_of_ascii c in ((48 <=? n) && (n <=? 57))%nat.

(** The longest run of digits at the front of [s], and what follows. *)
Fixpoint takeDigits (s : string) : string * string :=
  match s with
  | String c rest =>
      if isDigit c then
        let '(ds, rest') := takeDigits rest in (String c ds, rest')
      else (EmptyString, s)
  | EmptyString => (EmptyString, s)
  end.

Definition hexValue (c : ascii) : option nat :=
  let n := nat_of_ascii c in
  if ((48 <=? n) && (n <=? 57))%nat then Some (n - 48)%nat
  else if ((97 <=? n) && (n <=? 102))%nat then Some (n - 87)%nat
  else if ((65 <=? n) && (n <=? 70))%nat then Some (n - 55)%nat
  else None.

(** Code unit denoted by the character that follows a backslash, for the
    escapes of one character. *)
Definition simpleEscape (c : ascii) : option ascii :=
  let n := nat_of_ascii c in
  if (n =? 34)%nat then Some dquote
  else if (n =? 92)%nat then Some backslash
  else if (n =? 47)%nat then Some "/"%char
  else if (n =? 98)%nat then Some (ascii_of_nat 8)
  else if (n =? 102)%nat then Some (ascii_of_nat 12)
  else if (n =? 110)%nat then Some (ascii_of_nat 10)
  else if (n =? 114)%nat then Some (ascii_of_nat 13)
  else if (n =? 116)%nat then Some (ascii_of_nat 9)
  else None.

(** The characters of a string literal after its opening quote, up to and
    including the closing quote. *)
Fixpoint parseChars (s : string) : option (string * string) :=
  match s with
  | EmptyString => None
  | String c rest =>
      if Ascii.eqb c dquote then Some (EmptyString, rest)
      else if Ascii.eqb c backslash then
        match rest with
        | EmptyString => None
        | String e rest1 =>
            if Ascii.eqb e "u" then
              match rest1 with
              | String h1 (String h2 (String h3 (String h4 rest2))) =>
                  match hexValue h1, hexValue h2, hexValue h3, hexValue h4 with
                  | Some a, Some b, Some c', Some d =>
                      let code := (((a * 16 + b) * 16 + c') * 16 + d)%nat in
                      if (code <? 256)%nat then
                        match parseChars rest2 with
                        | Some (body, rest3) =>
                            Some (String (ascii_of_nat code) body, rest3)
                        | None => None
                        end
                      else None
                  | _, _, _, _ => None
                  end
              | _ => None
              end
            else
              match simpleEscape e with
              | Some d =>
                  match parseChars rest1 with
                  | Some (body, rest2) => Some (String d body, rest2)
                  | None => None
                  end
              | None => None
              end
        end
      else if (nat_of_ascii c <? 32)%nat then None
      else
        match parseChars rest with
        | Some (body, rest') => Some (String c body, rest')
        | None => None
        end
  end.

(** Rational denoted by the mantissa [m] and the decimal exponent [e]. *)
Definition valQ (m e : Z) : Q :=
  if 0 <=? e then inject_Z (m * 10 ^ e)
  else Qmake m (Z.to_pos (10 ^ (- e))).

Definition digitsToZ (s : string) : Z :=
  match digitsFrom 0 s with
  | Some z => z
  | None => 0
  end.

(** Value of a number literal with integer digits [int], fraction digits
    [frac] and exponent [exp].  The literal is read exactly: its rounding
    to the nearest binary64 number is not modelled, nor the [Infinity] that
    a literal beyond the range of binary64 is read as (see
    [withinBinary64]). *)
Definition decimalValue (negative : bool) (int frac : string) (exp : Z) : number :=
  let m := digitsToZ (int ++ frac) in
  let m := if negative then - m else m in
  Num (Q2Qc (valQ m (exp - Z.of_nat (String.length frac)))).

Definition parseExponent (s : string) : option (Z * string) :=
  match s with
  | String c rest =>
      if Ascii.eqb c "e" || Ascii.eqb c "E" then
        let '(negative, rest1) :=
          match rest with
          | String sg rest' =>
              if Ascii.eqb sg "-" then (true, rest')
              else if Ascii.eqb sg "+" then (false, rest')
              else (false, rest)
          | EmptyString => (false, rest)
          end in
        match takeDigits rest1 with
        | (EmptyString, _) => None
        | (ds, rest2) =>
            Some (if negative then - digitsToZ ds else digitsToZ ds, rest2)
        end
      else Some (0, s)
  | EmptyString => Some (0, s)
  end.

Definition parseFraction (s : string) : option (string * string) :=
  match s with
  | String c rest =>
      if Ascii.eqb c "." then
        match takeDigits rest with
        | (EmptyString, _) => None
        | (ds, rest') => Some (ds, rest')
        end
      else Some (EmptyString, s)
  | EmptyString => Some (EmptyString, s)
  end.

(** A number literal after its optional minus sign. *)
Definition parseMagnitude (negative : bool) (s1 : string)
    : option (number * string) :=
  match takeDigits s1 with
  | (EmptyString, _) => None
  | (String d ds as int, s2) =>
      if Ascii.eqb d "0" && negb (String.eqb ds "") then None
      else
        match parseFraction s2 with
        | Some (frac, s3) =>
            match parseExponent s3 with
            | Some (exp, s4) => Some (decimalValue negative int frac exp, s4)
            | None => None
            end
        | None => None
        end
  end.

Definition parseNumber (s : string) : option (number * string) :=
  match s with
  | String c rest =>
      if Ascii.eqb c "-" then parseMagnitude true rest
      else parseMagnitude false s
  | EmptyString => None
  end.

(** An array index, as a property key: the canonical decimal form of an
    integer below [2^32 - 1]. *)
Definition arrayIndex (key : string) : option Z :=
  match digitsValue key with
  | Some z =>
      if String.eqb (digitsOfZ z) key && (z <? 2 ^ 32 - 1) then Some z else None
  | None => None
  end.

(** Position of a new property among the own properties of an object:
    array indices first, in ascending order, then the other keys in the
    order of their creation. *)
Fixpoint insertProperty (key : string) (v : json) (props : list (string * json))
    : list (string * json) :=
  match props with
  | [] => [(key, v)]
  | (k, w) :: rest =>
      match arrayIndex key, arrayIndex k with
      | Some i, Some j =>
          if i <? j then (key, v) :: props else (k, w) :: insertProperty key v rest
      | Some _, None => (key, v) :: props
      | None, _ => (k, w) :: insertProperty key v rest
      end
  end.

Fixpoint replaceProperty (key : string) (v : json) (props : list (string * json))
    : option (list (string * json)) :=
  match props with
  | [] => None
  | (k, w) :: rest =>
      if String.eqb k key then Some ((k, v) :: rest)
      else option_map (cons (k, w)) (replaceProperty key v rest)
  end.

(** [CreateDataProperty]: a repeated key keeps its place and takes the new
    value. *)
Definition setProperty (props : list (string * json)) (kv : string * json)
    : list (string * json) :=
  match replaceProperty (fst kv) (snd kv) props with
  | Some props' => props'
  | None => insertProperty (fst kv) (snd kv) props
  end.

Definition startsWith (lit s : string) : option string :=
  if prefix lit s
  then Some (substring (String.length lit) (String.length s - String.length lit) s)
  else None.

Fixpoint parseValue (fuel : nat) (s : string) : option (json * string) :=
  match fuel with
  | O => None
  | S fuel' =>
      match skipWhitespace s with
      | EmptyString => None
      | String c rest as s' =>
          if Ascii.eqb c "[" then
            match skipWhitespace rest with
            | String c' rest' =>
                if Ascii.eqb c' "]" then Some (JArray [], rest')
                else
                  match parseElements fuel' rest with
                  | Some (vs, rest'') => Some (JArray vs, rest'')
                  | None => None
                  end
            | EmptyString => None
            end
          else if Ascii.eqb c "{" then
            match skipWhitespace rest with
            | String c' rest' =>
                if Ascii.eqb c' "}" then Some (JObject [], rest')
                else
                  match parseMembers fuel' rest with
                  | Some (ms, rest'') =>
                      Some (JObject (fold_left setProperty ms []), rest'')
                  | None => None
                  end
            | EmptyString => None
            end
          else if Ascii.eqb c dquote then
            match parseChars rest with
            | Some (body, rest') => Some (JString body, rest')
            | None => None
            end
          else if Ascii.eqb c "t" then
            option_map (pair (JBool true)) (startsWith "true" s')
          else if Ascii.eqb c "f" then
            option_map (pair (JBool false)) (startsWith "false" s')
          else if Ascii.eqb c "n" then
            option_map (pair JNull) (startsWith "null" s')
          else
            match parseNumber s' with
            | Some (n, rest') => Some (JNumber n, rest')
            | None => None
            end
      end
  end

with parseElements (fuel : nat) (s : string) : option (list json * string) :=
  match fuel with
  | O => None
  | S fuel' =>
      match parseValue fuel' s with
      | Some (v, rest) =>
          match skipWhitespace rest with
          | String c rest' =>
              if Ascii.eqb c "," then
                match parseElements fuel' rest' with
                | Some (vs, rest'') => Some (v :: vs, rest'')
                | None => None
                end
              else if Ascii.eqb c "]" then Some ([v], rest')
              else None
          | EmptyString => None
          end
      | None => None
      end
  end

with parseMembers (fuel : nat) (s : string)
    : option (list (string * json) * string) :=
  match fuel with
  | O => None
  | S fuel' =>
      match skipWhitespace s with
      | String q rest =>
          if Ascii.eqb q dquote then
            match parseChars rest with
            | Some (key, rest1) =>
                match skipWhitespace rest1 with
                | String colon rest2 =>
                    if Ascii.eqb colon ":" then
                      match parseValue fuel' rest2 with
                      | Some (v, rest3) =>
                          match skipWhitespace rest3 with
                          | String c rest4 =>
                              if Ascii.eqb c "," then
                                match parseMembers fuel' rest4 with
                                | Some (ms, rest5) => Some ((key, v) :: ms, rest5)
                                | None => None
                                end
                              else if Ascii.eqb c "}" then Some ([(key, v)], rest4)
                              else None
                          | EmptyString => None
                          end
                      | None => None
                      end
                    else None
                | EmptyString => None
                end
            | None => None
            end
          else None
      | EmptyString => None
      end
  end.

(** [JSON.parse(text)]; [None] stands for the [SyntaxError] that is
    thrown. *)
Definition JSON_parse (text : string) : option json :=
  match parseValue (2 * String.length text + 1) text with
  | Some (v, rest) =>
      match skipWhitespace rest with
      | EmptyString => Some v
      | String _ _ => None
      end
  | None => None
  end.


(** ** The transaction store and its persistence *)

Inductive ImportError : Type :=
| SyntaxError      (* thrown by [JSON.parse] *)
| NotAnArray.      (* 'O arquivo nao e um array JSON valido.' *)

(** The alert modal that is on display. *)
Inductive Alert : Type :=
| ImportacaoConcluida
| FalhaNaImportacao (error : ImportError).

Module App.
Record State : Type := mkState {
  allTransactions : list json;
  localStorage : option string;       (* the item under [TRANSACTIONS_KEY] *)
  ioModalTextarea : string;
  alertModal : option Alert
}.
End App.

Definition setTransactions (l : list json) (st : App.State) : App.State :=
  App.mkState l (App.localStorage st) (App.ioModalTextarea st) (App.alertModal st).

Definition showAlert (a : Alert) (st : App.State) : App.State :=
  App.mkState (App.allTransactions st) (App.localStorage st)
    (App.ioModalTextarea st) (Some a).

Definition saveTransactions (st : App.State) : App.State :=
  App.mkState (App.allTransactions st)
    (Some (JSON_stringify (JArray (App.allTransactions st))))
    (App.ioModalTextarea st) (App.alertModal st).

Section AddTransaction.

(** The global function [parseFloat] and the reading of the clock by
    [Date.now()]. *)
Variable parseFloat : string -> number.
Variable now : Z.

(** The object literal of [addTransaction]. *)
Definition newTransaction (clientId type value date : string) : json :=
  JObject
    [ ("id", JString ("trans_" ++ numberToString (#now)%js));
      ("clienteId", JString clientId);
      ("tipo", JString type);
      ("valor", JNumber (parseFloat value));
      ("data", JString date) ].

Definition addTransaction (clientId type value date : string)
    (st : App.State) : App.State :=
  let newTransaction := newTransaction clientId type value date in
  let st := setTransactions (App.allTransactions st ++ [newTransaction]) st in
  saveTransactions st.

End AddTransaction.

(** [handleExport]: the export modal shows the pretty-printed store. *)
Definition handleExport (st : App.State) : App.State :=
  let data := JSON_stringify_pretty (JArray (App.allTransactions st)) in
  App.mkState (App.allTransactions st) (App.localStorage st) data (App.alertModal st).

(** The [onload] handler of the file reader in [handleImportFile], run on
    the text of the chosen file once the import is confirmed. *)
Definition importOnLoad (result : string) (st : App.State) : App.State :=
  match JSON_parse result with
  | None => showAlert (FalhaNaImportacao SyntaxError) st
  | Some (JArray importedData) =>
      let st := setTransactions importedData st in
      let st := saveTransactions st in
      showAlert ImportacaoConcluida st
  | Some _ => showAlert (FalhaNaImportacao NotAnArray) st
  end.

(** [handleImportFile] does nothing when no file was chosen. *)
Definition handleImportFile (file : option string) (st : App.State) : App.State :=
  match file with
  | None => st
  | Some text => importOnLoad text st
  end.

(** ** Transactions as stored objects *)

Definition toJson (t : Transaction.t) : json :=
  JObject
    [ ("id", JString (Transaction.id t));
      ("clienteId", JString (Transaction.clienteId t));
      ("tipo", JString (Transaction.tipo t));
      ("valor", JNumber (Transaction.valor t));
      ("data", JString (Transaction.data t)) ].

Fixpoint getProperty (key : string) (props : list (string * json)) : option json :=
  match props with
  | [] => None
  | (k, v) :: rest => if String.eqb k key then Some v else getProperty key rest
  end.

(** Reading of a stored object as a record of the data model. *)
Definition asTransaction (v : json) : option Transaction.t :=
  match v with
  | JObject props =>
      match getProperty "id" props, getProperty "clienteId" props,
            getProperty "tipo" props, getProperty "valor" props,
            getProperty "data" props with
      | Some (JString id), Some (JString clienteId), Some (JString tipo),
        Some (JNumber valor), Some (JString data) =>
          Some (Transaction.mk id clienteId tipo valor data)
      | _, _, _, _, _ => None
      end
  | _ => None
  end.


(** A state whose store holds the sample transactions; nothing was saved
    yet. *)
Definition sampleState : App.State :=
  App.mkState (map toJson sampleStore) None "" None.

(** The text of the scenario of the specification, an object with the one
    property [not]. *)
Definition notAnArrayText : string :=
  JSON_stringify (JObject [("not", JString "an array")]).


(** ** Notions used to state the round trip of the backup *)

Fixpoint allDigits (s : string) : bool :=
  match s with
  | EmptyString => true
  | String c rest => isDigit c && allDigits rest
  end.

(** A number with a finite decimal expansion, as every binary64 number
    has. *)
Definition isDecimal (n : number) : bool :=
  match n with
  | NaN => false
  | Num q =>
      let den := Zpos (Qden (this q)) in
      match decimalExponent (Z.to_nat (Z.log2 den)) 0 den with
      | Some _ => true
      | None => false
      end
  end.

(** A store of records of the data model whose amounts are numbers. *)
Definition validStore (transactions : list Transaction.t) : bool :=
  forallb (fun t => isDecimal (Transaction.valor t)) transactions.


(** What may follow a number literal: the end of the text or a character
    that cannot continue the literal. *)
Definition endsNumber (rest : string) : bool :=
  match rest with
  | EmptyString => true
  | String c _ =>
      negb (isDigit c || Ascii.eqb c "." || Ascii.eqb c "e" || Ascii.eqb c "E")
  end.


Fixpoint blank (w : string) : bool :=
  match w with
  | EmptyString => true
  | String c rest => isWhitespace c && blank rest
  end.

(** The text printed for [v] at indentation [indent] is read back as [v]
    by [parseValue] with at least [need] units of fuel, whatever blank text
    precedes it and whatever follows it without continuing a number. *)
Definition readable (need : nat) (gap indent : string) (v : json) : Prop :=
  forall fuel w rest,
    (need <= fuel)%nat -> blank w = true -> endsNumber rest = true ->
    parseValue fuel (w ++ serialize gap indent v ++ rest) = Some (v, rest).


(** The text of one member of an object printed with a non-empty [gap]. *)
Definition memberText (gap indent : string) (kv : string * json) : string :=
  quoteJSONString (fst kv) ++ ":" ++ " " ++ serialize gap indent (snd kv).

(** The keys of a property list are in the order in which [JSON.parse]
    would leave them. *)
Definition normalKeys (props : list (string * json)) : Prop :=
  fold_left setProperty props [] = props.


(** The time value of the date of [a], as [parseDate] reads it, is not
    below that of [b]. *)
Definition timeNotBefore (LocalTZA : Z) (a b : Transaction.t) : Prop :=
  JsNum.geb (parseDate LocalTZA (Transaction.data a))
            (parseDate LocalTZA (Transaction.data b)) = true.


(** The scenario store and roster of the specification. *)
Definition scenarioRoster : list Client.t :=
  [ mkClient "c1" "" "" (Some (#10)%js) ].

Definition scenarioStore : list Transaction.t :=
  [ Transaction.mk "t1" "c1" "entrada" (#1000)%js "2024-01-10" ].

Definition statsEqb (s : DashboardStats) (n saldo comissao media : Z) : bool :=
  JsNum.eqb (totalClientes s) (#n)%js && JsNum.eqb (saldoTotal s) (#saldo)%js
  && JsNum.eqb (comissaoTotalValor s) (#comissao)%js
  && JsNum.eqb (comissaoMediaPct s) (#media)%js.

(** ** Notions used to state the further properties *)

(** A transaction is an orphan when no client of the roster has its
    [clienteId]. *)
Definition isOrphan (allClients : list Client.t) (t : Transaction.t) : bool :=
  negb (existsb (fun c => String.eqb (Client.id c) (Transaction.clienteId t))
          allClients).

(** The transactions of a list that are dated the day whose number is
    [k]. *)
Definition datedOn (k : Z) (l : list Transaction.t) : list Transaction.t :=
  filter (fun t => dateKey t =? k) l.

(** A store whose transactions all carry a calendar date. *)
Definition storeDated (transactions : list Transaction.t) : bool :=
  forallb hasCalendarDate transactions.



(** ** Loading the store *)

(** What [loadTransactions] leaves behind.  [JSON.parse] may throw, and the
    value it gives is assigned to [allTransactions] without a test: when it
    is not an array the global no longer holds a list. *)
Inductive LoadOutcome : Type :=
| Loaded (st : App.State)
| LoadedNotAnArray (v : json)
| LoadThrows.                      (* the SyntaxError of [JSON.parse] *)

(** [storedTransactions ? JSON.parse(storedTransactions) : []]: a missing
    item ([null]) and the empty string are falsy. *)
Definition loadTransactions (st : App.State) : LoadOutcome :=
  match App.localStorage st with
  | None => Loaded (setTransactions [] st)
  | Some storedTransactions =>
      if String.eqb storedTransactions "" then Loaded (setTransactions [] st)
      else
        match JSON_parse storedTransactions with
        | Some (JArray parsed) => Loaded (setTransactions parsed st)
        | Some v => LoadedNotAnArray v
        | None => LoadThrows
        end
  end.

(** ** Notions used to state the persistence properties *)

(** A value that [JSON.stringify] writes without loss: its numbers have a
    finite decimal expansion and the keys of its objects are in the order
    in which an object holds them. *)
Fixpoint wellFormed (v : json) : Prop :=
  match v with
  | JNull | JBool _ | JString _ => True
  | JNumber n => isDecimal n = true
  | JArray elements =>
      (fix all (l : list json) : Prop :=
         match l with
         | [] => True
         | x :: l' => wellFormed x /\ all l'
         end) elements
  | JObject properties =>
      normalKeys properties
      /\ (fix all (l : list (string * json)) : Prop :=
            match l with
            | [] => True
            | kv :: l' => wellFormed (snd kv) /\ all l'
            end) properties
  end.

(** Fuel that [parseValue] needs to read the text of a value. *)
Fixpoint fuelFor (v : json) : nat :=
  match v with
  | JArray elements =>
      S (S (fold_right (fun x m => Nat.max (fuelFor x) m) 1%nat elements)
         + List.length elements)
  | JObject properties =>
      S (fold_right (fun kv m => Nat.max (fuelFor (snd kv)) m) 1%nat properties
         + List.length properties)
  | _ => 1%nat
  end.

(** The record that [addTransaction] stores for a value that [parseFloat]
    cannot read, as it is found in the storage: [JSON.stringify] writes
    [null] for [NaN]. *)
Definition nullValorRecord (id clientId type date : string) : json :=
  JObject
    [ ("id", JString id);
      ("clienteId", JString clientId);
      ("tipo", JString type);
      ("valor", JNull);
      ("data", JString date) ].

(** The order in which an object holds two keys, the one of [k1] first:
    array indices come before the other keys and ascend. *)
Definition keyBefore (k1 k2 : string) : Prop :=
  match arrayIndex k2 with
  | None => True
  | Some j =>
      match arrayIndex k1 with
      | Some i => i < j
      | None => False
      end
  end.

(** The keys of a property list are distinct and in that order. *)
Definition keysOrdered (props : list (string * json)) : Prop :=
  StronglySorted keyBefore (map fst props) /\ NoDup (map fst props).

(** ** The date of today

    [getTodayDate] prints the clock with [Date.prototype.toISOString],
    which works in UTC, and keeps what stands before the ['T']. *)

(** [YearFromTime], on day numbers: the year in which day [n] falls.  The
    mean length of a year gives the year or one of its neighbours. *)
Definition yearFromDay (n : Z) : Z :=
  let y := 1970 + (400 * n) / 146097 in
  if n <? dayFromYear y then y - 1
  else if dayFromYear (y + 1) <=? n then y + 1
  else y.

(** [MonthFromTime], counted from 1, for a day within the year [y]. *)
Definition monthFromDay (y dayWithinYear : Z) : Z :=
  let leap := if isLeapYear y then 1 else 0 in
  if dayWithinYear <? 31 then 1
  else if dayWithinYear <? 59 + leap then 2
  else if dayWithinYear <? 90 + leap then 3
  else if dayWithinYear <? 120 + leap then 4
  else if dayWithinYear <? 151 + leap then 5
  else if dayWithinYear <? 181 + leap then 6
  else if dayWithinYear <? 212 + leap then 7
  else if dayWithinYear <? 243 + leap then 8
  else if dayWithinYear <? 273 + leap then 9
  else if dayWithinYear <? 304 + leap then 10
  else if dayWithinYear <? 334 + leap then 11
  else 12.

(** The calendar date of day [n]. *)
Definition civilFromDay (n : Z) : CalendarDate :=
  let y := yearFromDay n in
  let dayWithinYear := n - dayFromYear y in
  let m := monthFromDay y dayWithinYear in
  mkDate y m (dayWithinYear - daysBeforeMonth y m + 1).

(** A non-negative integer in at least [width] digits. *)
Definition pad (width : nat) (n : Z) : string :=
  let ds := digitsOfZ n in
  zeros (width - String.length ds) ++ ds.

(** [Date.prototype.toISOString] of the time value [tv]. *)
Definition toISOString (tv : Z) : string :=
  let d := civilFromDay (tv / msPerDay) in
  let ms := tv mod msPerDay in
  let yearText :=
    if (0 <=? year d) && (year d <=? 9999) then pad 4 (year d)
    else (if year d <? 0 then "-" else "+") ++ pad 6 (Z.abs (year d)) in
  yearText ++ "-" ++ pad 2 (month d) ++ "-" ++ pad 2 (day d)
    ++ "T" ++ pad 2 (ms / 3600000) ++ ":" ++ pad 2 (ms / 60000 mod 60)
    ++ ":" ++ pad 2 (ms / 1000 mod 60) ++ "." ++ pad 3 (ms mod 1000) ++ "Z".

(** [s.split(sep)[0]] for a separator of one character: what stands before
    its first occurrence, all of [s] when there is none. *)
Fixpoint beforeFirst (sep : ascii) (s : string) : string :=
  match s with
  | EmptyString => EmptyString
  | String c rest =>
      if Ascii.eqb c sep then EmptyString else String c (beforeFirst sep rest)
  end.

(** [getTodayDate], the reading [now] of the clock by [new Date()] being
    given. *)
Definition getTodayDate (now : Z) : string :=
  beforeFirst "T" (toISOString now).

(** ** Presentation

    The texts that the page shows.  The card of a client is handled as the
    record of the texts written into the clone of the template, with the
    client id that its two buttons pass to [showTransactionModal]. *)

(** [Number.prototype.toFixed(fractionDigits)]: the nearest multiple of
    [10^-fractionDigits], the larger one on a tie, the sign apart. *)
Definition toFixed (fractionDigits : nat) (x : number) : string :=
  match x with
  | NaN => "NaN"
  | Num q =>
      let num := Z.abs (Qnum (this q)) in
      let den := Zpos (Qden (this q)) in
      if 10 ^ 21 * den <=? num then numberToString x
      else
        let s := if Qnum (this q) <? 0 then "-" else "" in
        let n := (2 * num * 10 ^ Z.of_nat fractionDigits + den) / (2 * den) in
        let m := digitsOfZ n in
        if (fractionDigits =? 0)%nat then s ++ m
        else
          let m := zeros (S fractionDigits - String.length m) ++ m in
          let k := String.length m in
          s ++ substring 0 (k - fractionDigits) m ++ "."
            ++ substring (k - fractionDigits) fractionDigits m
  end.

(** [s.replace(pattern, replacement)] for two strings of one character:
    the first occurrence is replaced. *)
Fixpoint replaceFirst (pattern replacement : ascii) (s : string) : string :=
  match s with
  | EmptyString => EmptyString
  | String c rest =>
      if Ascii.eqb c pattern then String replacement rest
      else String c (replaceFirst pattern replacement rest)
  end.

Record DashboardView : Type := mkDashboardView {
  statTotalClientes : string;
  statSaldoTotal : string;
  statComissaoTotal : string;
  statComissaoMedia : string
}.

(** A list of a card: its lines, or the placeholder 'Nenhuma entrada
    recente.' ('Nenhuma saida recente.'). *)
Inductive CardList : Type :=
| Items (lines : list string)
| NenhumaRecente.

Module Card.
Record t : Type := mk {
  nome : string;
  bandeira : string;
  senha : string;
  enderecoCompleto : string;
  empresa : string;
  celular : string;
  vendedor : string;
  comissaoPct : string;
  saldo : string;
  listaEntradas : CardList;
  listaSaidas : CardList;
  whatsappHref : string;
  addEntryClientId : string;
  addExitClientId : string
}.
End Card.

(** The content of [domElements.searchResults]: cards, or the message
    'Nenhum cliente encontrado com os filtros aplicados.' *)
Inductive SearchResults : Type :=
| Cards (cards : list Card.t)
| NenhumClienteEncontrado.

(** A pass of [refreshSearchResults] over the page: it ends with the
    results shown, or a [TypeError] leaves [renderClientCard] after some
    cards were appended. *)
Inductive Rendering : Type :=
| Rendered (shown : SearchResults)
| Interrupted (appended : list Card.t).

Section Presentation.

(** The formatters of the browser, whose output depends on its locale
    data: [Intl.NumberFormat('pt-BR', {style: 'currency', currency:
    'BRL'}).format] and [Date.prototype.toLocaleDateString('pt-BR')], the
    latter on the time value of the date. *)
Variable formatBRL : number -> string.
Variable toLocaleDateString : number -> string.
Variable LocalTZA : Z.

Definition formatCurrency (value : number) : string :=
  let value := match value with NaN => (#0)%js | Num _ => value end in
  formatBRL value.

Definition formatDate (dateString : string) : string :=
  let date := newDate LocalTZA (dateString ++ "T00:00:00") in
  toLocaleDateString date.

Definition updateDashboardUI (stats : DashboardStats) : DashboardView :=
  mkDashboardView
    (numberToString (totalClientes stats))
    (formatCurrency (saldoTotal stats))
    (formatCurrency (comissaoTotalValor stats))
    (replaceFirst "." "," (toFixed 2 (comissaoMediaPct stats)) ++ "%").

(** The line of a transaction in a list of a card. *)
Definition cardLine (t : Transaction.t) : string :=
  formatDate (Transaction.data t) ++ ": " ++ formatCurrency (Transaction.valor t).

Definition cardList (transactions : list Transaction.t) : CardList :=
  match transactions with
  | [] => NenhumaRecente
  | _ => Items (map cardLine transactions)
  end.

(** [renderClientCard]: the card that is appended to the results, and
    [None] for the [TypeError] of [client.comissaoPct.toFixed] when the
    client has no [comissaoPct]; the card is appended at the end only, so
    nothing of it is on the page then. *)
Definition renderClientCard (allTransactions : list Transaction.t)
    (r : ClientWithSaldo) : option Card.t :=
  let c := client r in
  let addr := Client.enderecoCompleto c in
  match Client.comissaoPct c with
  | None => None
  | Some pct =>
      let clientBalance := saldo r in
      let entradas := recentEntradas LocalTZA allTransactions (Client.id c) in
      let saidas := recentSaidas LocalTZA allTransactions (Client.id c) in
      Some (Card.mk
              (Client.nome c) (Client.bandeira c) (Client.senha c)
              (Endereco.logouro addr ++ ", " ++ Endereco.numero addr ++ " - "
                 ++ Endereco.bairro addr ++ ", " ++ Endereco.cidade addr ++ " - "
                 ++ Endereco.estado addr)
              (Client.empresa c) (Client.celular c) (Client.vendedor c)
              (replaceFirst "." "," (toFixed 1 pct))
              (formatCurrency clientBalance)
              (cardList entradas) (cardList saidas)
              ("https://wa.me/" ++ Client.celular c)
              (Client.id c) (Client.id c))
  end.

(** [results.forEach(client => renderClientCard(client))] *)
Fixpoint appendCards (allTransactions : list Transaction.t)
    (results : list ClientWithSaldo) (appended : list Card.t) : Rendering :=
  match results with
  | [] => Rendered (Cards appended)
  | r :: rest =>
      match renderClientCard allTransactions r with
      | Some card => appendCards allTransactions rest (appended ++ [card])
      | None => Interrupted appended
      end
  end.

(** [refreshSearchResults] as the page shows it. *)
Definition showSearchResults (allClients : list Client.t)
    (allTransactions : list Transaction.t) (query balanceFilter : string)
    : Rendering :=
  match refreshSearchResults allClients allTransactions query balanceFilter with
  | [] => Rendered NenhumClienteEncontrado
  | results => appendCards allTransactions results []
  end.

(** [handleSearchSubmit] only refreshes the results. *)
Definition handleSearchSubmit (allClients : list Client.t)
    (allTransactions : list Transaction.t) (searchInput filterSaldo : string)
    : Rendering :=
  showSearchResults allClients allTransactions searchInput filterSaldo.

(** [refreshAllData]: the dashboard is updated first, then the results. *)
Definition refreshAllData (allClients : list Client.t)
    (allTransactions : list Transaction.t)
    (dateStart dateEnd searchInput filterSaldo : string)
    : DashboardView * Rendering :=
  let startDate := dateStart in
  let endDate := dateEnd in
  let stats :=
    calculateDashboardStats LocalTZA allClients allTransactions
      (Some startDate) (Some endDate) in
  (updateDashboardUI stats,
   showSearchResults allClients allTransactions searchInput filterSaldo).

End Presentation.

(** The absolute value of a rational, and the sign that [toFixed] writes
    for it. *)
Definition magnitude (q : Qc) : Q :=
  Qmake (Z.abs (Qnum (this q))) (Qden (this q)).

Definition signText (q : Qc) : string :=
  if Qnum (this q) <? 0 then "-" else "".

(** [n] units of [10^-f] written with a decimal comma: the integer part,
    a comma, and [f] digits. *)
Definition commaText (f : nat) (n : Z) : string :=
  digitsOfZ (n / 10 ^ Z.of_nat f) ++ "," ++ pad f (n mod 10 ^ Z.of_nat f).

(** ** The transaction form and the start of the page *)

(** The alerts raised outside the import: 'Campos Incompletos' by the
    transaction form, 'Erro Grave' by the load of the roster. *)
Inductive Notice : Type :=
| CamposIncompletos
| ErroGrave.

(** The store read as records of the data model; [None] when one of its
    elements is not such a record. *)
Fixpoint readStore (stored : list json) : option (list Transaction.t) :=
  match stored with
  | [] => Some []
  | v :: rest =>
      match asTransaction v, readStore rest with
      | Some t, Some ts => Some (t :: ts)
      | _, _ => None
      end
  end.

(** The modal of the transaction form: [isEntry] stands for the title
    ('Nova Entrada' or 'Nova Saida') and for the colour of the save button,
    the four strings are the values of the fields. *)
Module TransactionModal.
Record t : Type := mk {
  isEntry : bool;
  modalTransactionType : string;
  modalClientId : string;
  modalValue : string;
  modalDate : string;
  hidden : bool
}.
End TransactionModal.

(** [showTransactionModal]; [clock] is the reading of the clock by
    [getTodayDate]. *)
Definition showTransactionModal (clock : Z) (clientId type : string)
    : TransactionModal.t :=
  let isEntry := String.eqb type "entrada" in
  TransactionModal.mk isEntry type clientId "" (getTodayDate clock) false.

(** The result of a submit of the transaction form. *)
Inductive SubmitOutcome : Type :=
| Rejected (alert : Notice)
    (* [showAlert] and [return]: nothing else is touched *)
| Accepted (st : App.State) (modal : TransactionModal.t)
    (view : option (DashboardView * Rendering)).
    (* [view] is [None] for a store outside the data model *)

(** What [fetch('clientes.json')] and [response.json()] give:
    [data.clientes], or a failure (a rejected promise or a response that is
    not ok). *)
Inductive FetchOutcome : Type :=
| FetchFails
| Fetched (clientes : option (list Client.t)).

(** The page after [initializePage]. *)
Inductive PageLoad : Type :=
| Interactive (allClients : list Client.t) (st : App.State)
    (alert : option Notice) (dashboard : DashboardView) (shown : SearchResults)
    (* the event listeners are installed *)
| Halted
    (* an exception left [initializePage] before any listener was added *)
| OutsideDataModel.
    (* the store holds an element that is not a record of the data model *)

Section Page.

Variable formatBRL : number -> string.
Variable toLocaleDateString : number -> string.
Variable LocalTZA : Z.
Variable parseFloat : string -> number.

(** [transactionForm.reset()]: the values that the fields go back to are
    those of the HTML of the form. *)
Variable formReset : TransactionModal.t -> TransactionModal.t.

Definition hideTransactionModal (m : TransactionModal.t) : TransactionModal.t :=
  let fields := formReset m in
  TransactionModal.mk (TransactionModal.isEntry m)
    (TransactionModal.modalTransactionType fields)
    (TransactionModal.modalClientId fields)
    (TransactionModal.modalValue fields)
    (TransactionModal.modalDate fields)
    true.

(** [handleTransactionSubmit]; [now] is the reading of the clock by
    [Date.now()] in [addTransaction]. *)
Definition handleTransactionSubmit (now : Z) (m : TransactionModal.t)
    (st : App.State) (allClients : list Client.t)
    (dateStart dateEnd searchInput filterSaldo : string) : SubmitOutcome :=
  let type := TransactionModal.modalTransactionType m in
  let clientId := TransactionModal.modalClientId m in
  let value := TransactionModal.modalValue m in
  let date := TransactionModal.modalDate m in
  if String.eqb type "" || String.eqb clientId "" || String.eqb value ""
     || String.eqb date ""
  then Rejected CamposIncompletos
  else
    let st := addTransaction parseFloat now clientId type value date st in
    let m := hideTransactionModal m in
    Accepted st m
      (option_map
         (fun allTransactions =>
            refreshAllData formatBRL toLocaleDateString LocalTZA
              allClients allTransactions dateStart dateEnd searchInput filterSaldo)
         (readStore (App.allTransactions st))).

(** [loadClients]: [data.clientes || []], and the alert 'Erro Grave' with
    the roster left as it is when the load fails. *)
Definition loadClients (fetched : FetchOutcome) (allClients : list Client.t)
    : list Client.t * option Notice :=
  match fetched with
  | Fetched (Some clientes) => (clientes, None)
  | Fetched None => ([], None)
  | FetchFails => (allClients, Some ErroGrave)
  end.

(** [initializePage]: the roster and the store are loaded, the page is
    refreshed, and then only the listeners are added.  A store that is not
    an array has no [filter] to call. *)
Definition initializePage (fetched : FetchOutcome) (page : App.State)
    (dateStart dateEnd searchInput filterSaldo : string) : PageLoad :=
  let '(allClients, alert) := loadClients fetched [] in
  match loadTransactions page with
  | LoadThrows => Halted
  | LoadedNotAnArray _ => Halted
  | Loaded st =>
      match readStore (App.allTransactions st) with
      | None => OutsideDataModel
      | Some allTransactions =>
          match refreshAllData formatBRL toLocaleDateString LocalTZA
                  allClients allTransactions dateStart dateEnd searchInput filterSaldo
          with
          | (dashboard, Rendered shown) =>
              Interactive allClients st alert dashboard shown
          | (_, Interrupted _) => Halted
          end
      end
  end.

End Page.

(** ** Further notions used to state the properties

    They are written without the functions of the code that the properties
    are about. *)

(** The transactions of the store that carry a given [clienteId] and a given
    [tipo], in the order of the store. *)
Definition ofClientAndTipo (clientId tipo : string)
    (transactions : list Transaction.t) : list Transaction.t :=
  filter (fun t => String.eqb (Transaction.clienteId t) clientId
                   && String.eqb (Transaction.tipo t) tipo)
         transactions.

(** The client that a [clienteId] designates: the first client of the
    roster that has it as its [id]. *)
Fixpoint clientById (roster : list Client.t) (clienteId : string)
    : option Client.t :=
  match roster with
  | [] => None
  | c :: others =>
      if String.eqb (Client.id c) clienteId then Some c
      else clientById others clienteId
  end.

(** Commission due on one transaction: [valor * (comissaoPct / 100)] for
    the client that its [clienteId] designates, and [0] when it designates
    no client of the roster or a client without [comissaoPct]. *)
Definition commissionDue (roster : list Client.t) (t : Transaction.t) : number :=
  match clientById roster (Transaction.clienteId t) with
  | Some c =>
      match Client.comissaoPct c with
      | Some pct => (Transaction.valor t * (pct / #100))%js
      | None => (#0)%js
      end
  | None => (#0)%js
  end.

(** Sum of a list of numbers taken from left to right, starting from [0]:
    the order in which a loop over the list adds them up. *)
Definition sumInOrder (l : list number) : number :=
  fold_left JsNum.add l (#0)%js.

(** Calendar order and membership in a range, as tests. *)
Definition dateLeb (a b : CalendarDate) : bool :=
  (year a <? year b)
  || ((year a =? year b)
      && ((month a <? month b) || ((month a =? month b) && (day a <=? day b)))).

Definition withinRangeb (start end_ : option CalendarDate) (d : CalendarDate) : bool :=
  match start with Some s => dateLeb s d | None => true end
  && match end_ with Some e => dateLeb d e | None => true end.

(** The transactions of a given [tipo] whose calendar date lies in a range,
    in the order of the store. *)
Definition ofTipoWithin (tipo : string) (start end_ : option CalendarDate)
    (transactions : list Transaction.t) : list Transaction.t :=
  filter (fun t =>
            String.eqb (Transaction.tipo t) tipo
            && match parseCalendarDate (Transaction.data t) with
               | Some d => withinRangeb start end_ d
               | None => false
               end)
         transactions.

(** ** Where the exact numbers of the model are those of the code

    Sums and differences of whole numbers are whole numbers, and binary64
    holds every whole number of magnitude at most [2^53] exactly: when the
    amounts of a store are whole and their magnitudes add up to at most
    [2^53], no addition or subtraction of the calculation layer rounds, in
    whatever order the amounts are taken. *)
Definition wholeMagnitude (n : number) : option Z :=
  match n with
  | Num q =>
      if Zpos (Qden (this q)) =? 1 then Some (Z.abs (Qnum (this q))) else None
  | NaN => None
  end.

Fixpoint totalMagnitude (transactions : list Transaction.t) : option Z :=
  match transactions with
  | [] => Some 0
  | t :: later =>
      match wholeMagnitude (Transaction.valor t), totalMagnitude later with
      | Some m, Some total => Some (m + total)
      | _, _ => None
      end
  end.

Definition wholeAmounts (transactions : list Transaction.t) : bool :=
  match totalMagnitude transactions with
  | Some total => total <=? 2 ^ 53
  | None => false
  end.

(** [JSON.parse] reads a number literal as the binary64 number nearest to
    it, and as [Infinity], which the model does not have, when the magnitude
    of the literal is [2^1024 - 2^970] or more.  A value is within the
    range of binary64 when every number in it is below that magnitude. *)
Definition belowOverflow (n : number) : bool :=
  match n with
  | Num q =>
      Z.abs (Qnum (this q)) <? (2 ^ 1024 - 2 ^ 970) * Zpos (Qden (this q))
  | NaN => false
  end.

Fixpoint withinBinary64 (v : json) : bool :=
  match v with
  | JNumber n => belowOverflow n
  | JArray elements => forallb withinBinary64 elements
  | JObject properties => forallb (fun kv => withinBinary64 (snd kv)) properties
  | _ => true
  end.

(** ** The balance of a client over binary64

    The numbers of JavaScript are those of IEEE 754 binary64, and [+] and
    [-] round their result to the nearest of them.  What depends on that
    rounding is settled on this second embedding of
    [calculateClientBalance], over the binary64 numbers of the kernel. *)

Module Binary64.

Module Transaction.
Record t : Type := mk {
  id : string;
  clienteId : string;
  tipo : string;
  valor : float;
  data : string
}.
End Transaction.

Definition getTransactionsForClient
    (allTransactions : list Transaction.t) (clientId : string) : list Transaction.t :=
  filter (fun t => String.eqb (Transaction.clienteId t) clientId) allTransactions.

Definition calculateClientBalance
    (allTransactions : list Transaction.t) (clientId : string) : float :=
  let clientTransactions := getTransactionsForClient allTransactions clientId in
  fold_left
    (fun acc trans =>
       if String.eqb (Transaction.tipo trans) "entrada" then
         (acc + Transaction.valor trans)%float
       else if String.eqb (Transaction.tipo trans) "saida" then
         (acc - Transaction.valor trans)%float
       else acc)
    clientTransactions 0%float.

(** The balance as the specification words it: the transactions are gone
    through in the order of the store, the [valor] of an entrada of the
    client being added to the amount reached so far and that of a saida
    subtracted from it. *)
Fixpoint balanceFrom (reached : float) (clientId : string)
    (transactions : list Transaction.t) : float :=
  match transactions with
  | [] => reached
  | t :: later =>
      if negb (String.eqb (Transaction.clienteId t) clientId) then
        balanceFrom reached clientId later
      else if String.eqb (Transaction.tipo t) "entrada" then
        balanceFrom (reached + Transaction.valor t)%float clientId later
      else if String.eqb (Transaction.tipo t) "saida" then
        balanceFrom (reached - Transaction.valor t)%float clientId later
      else balanceFrom reached clientId later
  end.

Definition balanceOf (clientId : string) (transactions : list Transaction.t) : float :=
  balanceFrom 0%float clientId transactions.

(** Sum of [valor] over the transactions of a client that have a given
    [tipo], taken in the order of the store. *)
Definition sumValor (tipo clientId : string)
    (transactions : list Transaction.t) : float :=
  fold_left PrimFloat.add
    (map Transaction.valor
       (filter (fun t => String.eqb (Transaction.clienteId t) clientId
                         && String.eqb (Transaction.tipo t) tipo)
               transactions))
    0%float.

(** Three movements of one client: 0.1 in, 0.3 out, 0.2 in. *)
#[warnings="-inexact-float"]
Definition roundingStore : list Transaction.t :=
  [ Transaction.mk "trans_1" "c1" "entrada" 0.1%float "2024-01-10";
    Transaction.mk "trans_2" "c1" "saida" 0.3%float "2024-01-11";
    Transaction.mk "trans_3" "c1" "entrada" 0.2%float "2024-01-12" ].

End Binary64.

(** * Properties *)

(** ** Arithmetic of numbers *)

Ltac js_arith :=
  repeat match goal with
         | n : number |- _ => destruct n
         end;
  simpl; try reflexivity; try (f_equal; ring).

Lemma jsadd_comm (a b : number) : (a + b)%js = (b + a)%js.
Proof. js_arith. Qed.

Lemma jsadd_assoc (a b c : number) : (a + (b + c))%js = (a + b + c)%js.
Proof. js_arith. Qed.

Lemma ofZ_0 : JsNum.ofZ 0 = Num 0%Qc.
Proof. unfold JsNum.ofZ; f_equal; apply Qc_is_canon; reflexivity. Qed.

Lemma jsadd_0_l (a : number) : (#0 + a)%js = a.
Proof. rewrite ofZ_0; js_arith. Qed.

Lemma jsadd_0_r (a : number) : (a + #0)%js = a.
Proof. rewrite ofZ_0; js_arith. Qed.

Lemma jsadd_NaN_r (a : number) : (a + NaN)%js = NaN.
Proof. js_arith. Qed.

Lemma sumOf_cons (x : number) (l : list number) :
  sumOf (x :: l) = (x + sumOf l)%js.
Proof. reflexivity. Qed.


(** ** Balance of a client *)

Lemma filter_cons_if {A : Type} (f : A -> bool) (x : A) (l : list A) :
  filter f (x :: l) = if f x then x :: filter f l else filter f l.
Proof. reflexivity. Qed.

Lemma isTipo_exclusive (t : Transaction.t) :
  isTipo "entrada" t = true -> isTipo "saida" t = false.
Proof.
  unfold isTipo. intro H. apply String.eqb_eq in H. now rewrite H.
Qed.

Lemma balanceStep_cases (acc : number) (t : Transaction.t) :
  balanceStep acc t =
  if isTipo "entrada" t then (acc + Transaction.valor t)%js
  else if isTipo "saida" t then (acc - Transaction.valor t)%js
  else acc.
Proof. reflexivity. Qed.

Lemma balance_fold (l : list Transaction.t) (acc : number) :
  fold_left balanceStep l acc =
  (acc + (sumOf (map Transaction.valor (filter (isTipo "entrada") l))
          - sumOf (map Transaction.valor (filter (isTipo "saida") l))))%js.
Proof.
  revert acc; induction l as [|t l IH]; intro acc.
  - cbn [fold_left filter map sumOf fold_right]. rewrite ofZ_0. js_arith.
  - cbn [fold_left]. rewrite IH, balanceStep_cases.
    set (e := sumOf (map Transaction.valor (filter (isTipo "entrada") l))).
    set (s := sumOf (map Transaction.valor (filter (isTipo "saida") l))).
    rewrite !filter_cons_if.
    destruct (isTipo "entrada" t) eqn:E.
    + rewrite (isTipo_exclusive t E), map_cons, sumOf_cons. fold e s.
      generalize (Transaction.valor t); clearbody e s; intros; js_arith.
    + destruct (isTipo "saida" t) eqn:S; [|reflexivity].
      rewrite map_cons, sumOf_cons. fold e s.
      generalize (Transaction.valor t); clearbody e s; intros; js_arith.
Qed.

Lemma filter_filter {A : Type} (f g : A -> bool) (l : list A) :
  filter g (filter f l) = filter (fun x => f x && g x) l.
Proof.
  induction l as [|x l IH]; simpl; [reflexivity|].
  destruct (f x); simpl; [destruct (g x)|]; now rewrite IH.
Qed.

(** ** The balance of a client, with the rounding of binary64 *)

Lemma balance64_from (reached : float) (clientId : string)
    (transactions : list Binary64.Transaction.t) :
  fold_left
    (fun acc trans =>
       if String.eqb (Binary64.Transaction.tipo trans) "entrada" then
         (acc + Binary64.Transaction.valor trans)%float
       else if String.eqb (Binary64.Transaction.tipo trans) "saida" then
         (acc - Binary64.Transaction.valor trans)%float
       else acc)
    (Binary64.getTransactionsForClient transactions clientId) reached
  = Binary64.balanceFrom reached clientId transactions.
Proof.
  revert reached. induction transactions as [|t later IH]; intro reached.
  - reflexivity.
  - unfold Binary64.getTransactionsForClient in *.
    cbn [filter Binary64.balanceFrom].
    destruct (String.eqb (Binary64.Transaction.clienteId t) clientId);
      cbn [negb fold_left].
    + rewrite IH.
      destruct (String.eqb (Binary64.Transaction.tipo t) "entrada");
        [reflexivity|].
      destruct (String.eqb (Binary64.Transaction.tipo t) "saida"); reflexivity.
    + apply IH.
Qed.

Lemma balanceFrom_app (reached : float) (clientId : string)
    (l1 l2 : list Binary64.Transaction.t) :
  Binary64.balanceFrom reached clientId (l1 ++ l2)%list
  = Binary64.balanceFrom (Binary64.balanceFrom reached clientId l1) clientId l2.
Proof.
  revert reached. induction l1 as [|t l1 IH]; intro reached; [reflexivity|].
  cbn [app Binary64.balanceFrom].
  destruct (negb (String.eqb (Binary64.Transaction.clienteId t) clientId));
    [apply IH|].
  destruct (String.eqb (Binary64.Transaction.tipo t) "entrada"); [apply IH|].
  destruct (String.eqb (Binary64.Transaction.tipo t) "saida"); apply IH.
Qed.

Lemma balanceFrom_only_entradas (reached : float) (clientId : string)
    (transactions : list Binary64.Transaction.t) :
  (forall t, In t transactions ->
     Binary64.Transaction.clienteId t = clientId ->
     Binary64.Transaction.tipo t = "entrada") ->
  Binary64.balanceFrom reached clientId transactions
  = fold_left PrimFloat.add
      (map Binary64.Transaction.valor
         (filter (fun t => String.eqb (Binary64.Transaction.clienteId t) clientId
                           && String.eqb (Binary64.Transaction.tipo t) "entrada")
                 transactions))
      reached.
Proof.
  revert reached. induction transactions as [|t later IH]; intros reached H.
  - reflexivity.
  - cbn [Binary64.balanceFrom filter].
    destruct (String.eqb_spec (Binary64.Transaction.clienteId t) clientId)
      as [E|E]; cbn [negb andb].
    + rewrite (H t (or_introl eq_refl) E). cbn [String.eqb Ascii.eqb Bool.eqb].
      cbn [map fold_left]. apply IH. intros t' Ht'. apply H. now right.
    + apply IH. intros t' Ht'. apply H. now right.
Qed.

(** C1.  As the code computes it, the balance of a client is reached by going
    through the transactions of the store in order, starting from [0]: the
    [valor] of each entrada of the client is added to the amount reached so
    far and the [valor] of each saida is subtracted from it, each step
    giving a binary64 number.  A transaction of another client, or one whose
    [tipo] is neither ['entrada'] nor ['saida'], can be removed from the list
    without changing the balance; the balance is [0] when no transaction
    carries the client id, the roster not being consulted; and for a client
    whose transactions are all entradas it is the sum of their [valor] in
    store order. *)
Theorem calculateClientBalance_in_store_order
    (transactions : list Binary64.Transaction.t) (clientId : string) :
  Binary64.calculateClientBalance transactions clientId
  = Binary64.balanceOf clientId transactions
  /\ (forall before t after,
        transactions = (before ++ t :: after)%list ->
        Binary64.Transaction.clienteId t <> clientId
        \/ (Binary64.Transaction.tipo t <> "entrada"
            /\ Binary64.Transaction.tipo t <> "saida") ->
        Binary64.calculateClientBalance (before ++ after)%list clientId
        = Binary64.calculateClientBalance transactions clientId)
  /\ ((forall t, In t transactions ->
         Binary64.Transaction.clienteId t <> clientId) ->
      Binary64.calculateClientBalance transactions clientId = 0%float)
  /\ ((forall t, In t transactions ->
         Binary64.Transaction.clienteId t = clientId ->
         Binary64.Transaction.tipo t = "entrada") ->
      Binary64.calculateClientBalance transactions clientId
      = Binary64.sumValor "entrada" clientId transactions).
Proof.
  assert (forall l, Binary64.calculateClientBalance l clientId
                    = Binary64.balanceOf clientId l) as Hrun.
  { intro l. apply balance64_from. }
  split; [apply Hrun|split; [|split]].
  - intros before t after -> H. rewrite !Hrun. unfold Binary64.balanceOf.
    rewrite !balanceFrom_app. cbn [Binary64.balanceFrom].
    destruct H as [H|[H1 H2]].
    + apply String.eqb_neq in H. now rewrite H.
    + apply String.eqb_neq in H1, H2. rewrite H1, H2.
      now destruct (negb (String.eqb (Binary64.Transaction.clienteId t) clientId)).
  - intro H. rewrite Hrun. unfold Binary64.balanceOf.
    generalize 0%float as reached.
    induction transactions as [|t later IH]; intro reached; [reflexivity|].
    cbn [Binary64.balanceFrom].
    replace (String.eqb (Binary64.Transaction.clienteId t) clientId) with false
      by (symmetry; apply String.eqb_neq, H; now left).
    cbn [negb]. apply IH. intros t' Ht'. apply H. now right.
  - intro H. rewrite Hrun. now apply balanceFrom_only_entradas.
Qed.

Lemma calculateClientBalance_in_store_order_witness :
  let transactions :=
    [ Binary64.Transaction.mk "trans_1" "c1" "entrada" 0x1p-1%float "2024-01-10";
      Binary64.Transaction.mk "trans_2" "c2" "saida" 0x1p+1%float "2024-01-11";
      Binary64.Transaction.mk "trans_3" "c1" "entrada" 0x1p-2%float "2024-01-12" ] in
  Binary64.calculateClientBalance transactions "c1"
  = Binary64.sumValor "entrada" "c1" transactions.
Proof.
  intro transactions.
  apply (proj2 (proj2 (proj2
           (calculateClientBalance_in_store_order transactions "c1")))).
  intros t Ht E. simpl in Ht.
  destruct Ht as [<-|[<-|[<-|[]]]]; [reflexivity|discriminate E|reflexivity].
Defined.

(** On [roundingStore] the balance is [2^-55], about 2.78e-17, while the
    entradas add up to 0.30000000000000004 and the saidas to 0.3: their
    difference is [2^-54]. *)
Example roundingStore_balance :
  Binary64.calculateClientBalance Binary64.roundingStore "c1" = 0x1p-55%float
  /\ (Binary64.sumValor "entrada" "c1" Binary64.roundingStore
      - Binary64.sumValor "saida" "c1" Binary64.roundingStore)%float
     = 0x1p-54%float.
Proof. split; vm_compute; reflexivity. Qed.

(** The balance is not, in general, the sum of the entradas minus the sum
    of the saidas: the three movements of [roundingStore] give another
    number. *)
Lemma calculateClientBalance_not_sum_difference :
  Binary64.calculateClientBalance Binary64.roundingStore "c1"
  <> (Binary64.sumValor "entrada" "c1" Binary64.roundingStore
      - Binary64.sumValor "saida" "c1" Binary64.roundingStore)%float.
Proof.
  intro H.
  apply (f_equal (fun x => PrimFloat.eqb x 0x1p-55%float)) in H.
  vm_compute in H. discriminate H.
Qed.

(** ** Dashboard statistics *)

Lemma stats_projections (LocalTZA : Z) (allClients : list Client.t)
    (allTransactions : list Transaction.t) (startDate endDate : option string) :
  let n := Z.of_nat (List.length allClients) in
  let r := fold_left (dashboardStep allClients)
             (filteredTransactions LocalTZA allTransactions startDate endDate)
             ((#0)%js, (#0)%js) in
  let s := calculateDashboardStats LocalTZA allClients allTransactions startDate endDate in
  totalClientes s = (#n)%js
  /\ saldoTotal s = fst r
  /\ comissaoTotalValor s = snd r
  /\ comissaoMediaPct s =
       if 0 <? n
       then (fold_left (fun acc c => (acc + comissaoPctOrZero c)%js) allClients (#0)%js
             / #n)%js
       else (#0)%js.
Proof.
  cbv zeta. unfold calculateDashboardStats.
  destruct (fold_left _ _ _) as [s c]. cbn [fst snd].
  destruct (0 <? _); repeat split; reflexivity.
Qed.

Lemma truthy_false_zero (q : Qc) : JsNum.truthy (Num q) = false -> Num q = (#0)%js.
Proof.
  unfold JsNum.truthy. destruct (Qc_eq_dec q (Q2Qc 0)) as [->|]; [|discriminate].
  intros _. now rewrite ofZ_0.
Qed.

Lemma jsmul_zero_pct (v : Qc) : (Num v * (#0 / #100))%js = (#0)%js.
Proof.
  rewrite ofZ_0. unfold JsNum.div, JsNum.ofZ, JsNum.mul.
  destruct (Qc_eq_dec _ _) as [E|_].
  - apply (f_equal this) in E. discriminate E.
  - f_equal. field. intro E. apply (f_equal this) in E. discriminate E.
Qed.

Lemma dashboardStep_cases (allClients : list Client.t) (s c : number)
    (t : Transaction.t) :
  rosterNumeric allClients = true ->
  isNumber (Transaction.valor t) = true ->
  dashboardStep allClients (s, c) t =
  (balanceStep s t,
   if isTipo "entrada" t then (c + commissionOf allClients t)%js else c).
Proof.
  intros Hr Hv. unfold dashboardStep. rewrite balanceStep_cases.
  change (String.eqb (Transaction.tipo t) "entrada") with (isTipo "entrada" t).
  change (String.eqb (Transaction.tipo t) "saida") with (isTipo "saida" t).
  unfold commissionOf.
  destruct (isTipo "entrada" t).
  - destruct (findClient allClients (Transaction.clienteId t)) as [cl|] eqn:F;
      [|now rewrite jsadd_0_r].
    destruct (Client.comissaoPct cl) as [pct|] eqn:P; [|now rewrite jsadd_0_r].
    destruct (JsNum.truthy pct) eqn:T; [reflexivity|].
    apply find_some in F. destruct F as [F _].
    unfold rosterNumeric in Hr. rewrite forallb_forall in Hr.
    specialize (Hr cl F). rewrite P in Hr.
    destruct pct as [|q]; [discriminate|].
    rewrite (truthy_false_zero q T).
    destruct (Transaction.valor t) as [|v]; [discriminate|].
    now rewrite jsmul_zero_pct, jsadd_0_r.
  - destruct (isTipo "saida" t); reflexivity.
Qed.


Lemma storeNumeric_filter (f : Transaction.t -> bool) (l : list Transaction.t) :
  storeNumeric l = true -> storeNumeric (filter f l) = true.
Proof.
  unfold storeNumeric. rewrite !forallb_forall.
  intros H t Ht. apply filter_In in Ht. now apply H.
Qed.

Lemma filter_comm {A : Type} (f g : A -> bool) (l : list A) :
  filter f (filter g l) = filter g (filter f l).
Proof.
  rewrite !filter_filter. apply filter_ext. intro x. apply andb_comm.
Qed.




(** ** Dates and the period filter *)

Lemma ofZ_compare (a b : Z) :
  (Q2Qc (inject_Z a) ?= Q2Qc (inject_Z b))%Qc = (a ?= b).
Proof.
  unfold Qccompare. cbn [this Q2Qc].
  rewrite !Qred_correct. unfold Qcompare. cbn. now rewrite !Z.mul_1_r.
Qed.

Lemma ltb_ofZ (a b : Z) : JsNum.ltb (#a)%js (#b)%js = (a <? b).
Proof.
  unfold JsNum.ltb, JsNum.ofZ. rewrite ofZ_compare. unfold Z.ltb.
  now destruct (a ?= b).
Qed.

Lemma gtb_ofZ (a b : Z) : JsNum.gtb (#a)%js (#b)%js = (b <? a).
Proof. apply ltb_ofZ. Qed.

Lemma leb_ofZ (a b : Z) : JsNum.leb (#a)%js (#b)%js = (a <=? b).
Proof.
  unfold JsNum.leb, JsNum.ofZ. rewrite ofZ_compare. unfold Z.leb.
  now destruct (a ?= b).
Qed.

Lemma div_succ (a n : Z) :
  0 < n ->
  (a + 1) / n = a / n + (if (a + 1) mod n =? 0 then 1 else 0).
Proof.
  intro Hn. destruct (Z.eqb_spec ((a + 1) mod n) 0);
    Z.div_mod_to_equations; nia.
Qed.

Lemma dayFromYear_succ (y : Z) :
  dayFromYear (y + 1) = dayFromYear y + 365 + (if isLeapYear y then 1 else 0).
Proof.
  unfold dayFromYear.
  replace (y + 1 - 1969) with (y - 1969 + 1) by lia.
  replace (y + 1 - 1901) with (y - 1901 + 1) by lia.
  replace (y + 1 - 1601) with (y - 1601 + 1) by lia.
  rewrite !div_succ by lia.
  replace ((y - 1969 + 1) mod 4) with (y mod 4)
    by (Z.div_mod_to_equations; lia).
  replace ((y - 1901 + 1) mod 100) with (y mod 100)
    by (Z.div_mod_to_equations; lia).
  replace ((y - 1601 + 1) mod 400) with (y mod 400)
    by (Z.div_mod_to_equations; lia).
  unfold isLeapYear.
  destruct (Z.eqb_spec (y mod 4) 0) as [H4|H4],
    (Z.eqb_spec (y mod 100) 0) as [H100|H100],
    (Z.eqb_spec (y mod 400) 0) as [H400|H400]; cbn [andb orb negb];
    try lia; exfalso; Z.div_mod_to_equations; lia.
Qed.

Lemma dayFromYear_lt (y y' : Z) :
  y < y' ->
  dayFromYear y + 365 + (if isLeapYear y then 1 else 0) <= dayFromYear y'.
Proof.
  intro H. replace y' with (y + 1 + Z.of_nat (Z.to_nat (y' - y - 1))) by lia.
  induction (Z.to_nat (y' - y - 1)) as [|k IH].
  - rewrite Z.add_0_r, dayFromYear_succ. lia.
  - replace (y + 1 + Z.of_nat (S k)) with (y + 1 + Z.of_nat k + 1) by lia.
    rewrite dayFromYear_succ. destruct (isLeapYear (y + 1 + Z.of_nat k)); lia.
Qed.

Lemma validDate_spec (d : CalendarDate) :
  validDate d = true <->
  0 <= year d <= 9999 /\ 1 <= month d <= 12
  /\ 1 <= day d <= daysInMonth (year d) (month d).
Proof.
  unfold validDate. rewrite !andb_true_iff, !Z.leb_le. tauto.
Qed.

Ltac month_cases m :=
  let H := fresh "Hm" in
  assert (m = 1 \/ m = 2 \/ m = 3 \/ m = 4 \/ m = 5 \/ m = 6 \/ m = 7
          \/ m = 8 \/ m = 9 \/ m = 10 \/ m = 11 \/ m = 12) as H by lia;
  repeat (destruct H as [H|H]; [subst m|]); [..|subst m].

Lemma dayInYear_bound (y m d : Z) :
  1 <= m <= 12 -> 1 <= d <= daysInMonth y m ->
  0 <= daysBeforeMonth y m + (d - 1) < 365 + (if isLeapYear y then 1 else 0).
Proof.
  intros Hm Hd. unfold daysInMonth, daysBeforeMonth in *.
  destruct (isLeapYear y); month_cases m; cbn -[Z.add Z.sub] in *; lia.
Qed.

Lemma dayInYear_mono (y m d m' d' : Z) :
  1 <= m <= 12 -> 1 <= d <= daysInMonth y m ->
  1 <= m' <= 12 -> 1 <= d' <= daysInMonth y m' ->
  (daysBeforeMonth y m + (d - 1) <= daysBeforeMonth y m' + (d' - 1)
   <-> m < m' \/ (m = m' /\ d <= d')).
Proof.
  intros Hm Hd Hm' Hd'. unfold daysInMonth, daysBeforeMonth in *.
  destruct (isLeapYear y); month_cases m; month_cases m';
    cbn -[Z.add Z.sub] in *; lia.
Qed.

Lemma dayNumber_le_iff (a b : CalendarDate) :
  validDate a = true -> validDate b = true ->
  (dayNumber a <= dayNumber b <-> dateLe a b).
Proof.
  rewrite !validDate_spec. intros (_ & Hma & Hda) (_ & Hmb & Hdb).
  unfold dayNumber, dateLe.
  destruct a as [ya ma da], b as [yb mb db]; cbn [year month day] in *.
  pose proof (dayInYear_bound ya ma da Hma Hda) as Ba.
  pose proof (dayInYear_bound yb mb db Hmb Hdb) as Bb.
  destruct (Z.lt_trichotomy ya yb) as [L|[E|G]].
  - pose proof (dayFromYear_lt ya yb L). split; [now left|lia].
  - subst yb. pose proof (dayInYear_mono ya ma da mb db Hma Hda Hmb Hdb) as M.
    split.
    + intro H. right. split; [reflexivity|]. apply M. lia.
    + intros [H|[_ H]]; [lia|]. apply M in H. lia.
  - pose proof (dayFromYear_lt yb ya G). split; [lia|].
    intros [H'|[H' _]]; lia.
Qed.

Lemma substring_append_prefix (s t : string) :
  substring 0 (String.length s) (s ++ t) = s.
Proof.
  induction s as [|c s IH]; cbn.
  - now destruct t.
  - now rewrite IH.
Qed.

Lemma substring_append_skip (s t : string) (k n : nat) :
  substring (String.length s + k) n (s ++ t) = substring k n t.
Proof. induction s as [|c s IH]; cbn; [reflexivity|exact IH]. Qed.

Lemma length_append (s t : string) :
  String.length (s ++ t) = (String.length s + String.length t)%nat.
Proof. induction s as [|c s IH]; cbn; [reflexivity|now rewrite IH]. Qed.

Lemma newDate_midnight (LocalTZA : Z) (s : string) :
  String.length s = 10%nat ->
  parseDate LocalTZA s =
  match parseCalendarDate s with
  | Some d => (#(dayNumber d * msPerDay - LocalTZA))%js
  | None => NaN
  end.
Proof.
  intro L. unfold parseDate, newDate.
  rewrite length_append, L.
  pose proof (substring_append_skip s "T00:00:00" 0 1) as E1.
  pose proof (substring_append_prefix s "T00:00:00") as E2.
  pose proof (substring_append_skip s "T00:00:00" 1 8) as E3.
  rewrite L in E1, E2, E3.
  change (substring 10 1 (s ++ "T00:00:00") = "T") in E1.
  change (substring 11 8 (s ++ "T00:00:00") = "00:00:00") in E3.
  change (10 + String.length "T00:00:00" - 11)%nat with 8%nat.
  rewrite E1, E2, E3.
  cbn [String.length Nat.add Nat.sub substring String.eqb Ascii.eqb Bool.eqb negb].
  destruct (parseCalendarDate s) as [d|]; [|reflexivity].
  change (parseTimeOfDay "00:00:00") with (Some 0).
  cbv iota beta. f_equal. lia.
Qed.

Lemma parseCalendarDate_Some (s : string) (d : CalendarDate) :
  parseCalendarDate s = Some d ->
  String.length s = 10%nat /\ validDate d = true.
Proof.
  unfold parseCalendarDate.
  destruct (Nat.eqb_spec (String.length s) 10) as [L|]; [|discriminate].
  cbn [negb].
  destruct (negb _); [discriminate|]. destruct (negb _); [discriminate|].
  destruct (digitsValue _) as [y|]; [|discriminate].
  destruct (digitsValue _) as [m|]; [|discriminate].
  destruct (digitsValue _) as [dd|]; [|discriminate].
  destruct (validDate _) eqn:V; [|discriminate].
  intro H; injection H as <-. split; assumption.
Qed.

Lemma parseDate_valid (LocalTZA : Z) (s : string) (d : CalendarDate) :
  parseCalendarDate s = Some d ->
  parseDate LocalTZA s = (#(dayNumber d * msPerDay - LocalTZA))%js.
Proof.
  intro H. destruct (parseCalendarDate_Some s d H) as [L _].
  now rewrite newDate_midnight, H.
Qed.

Lemma dateBound_read (LocalTZA : Z) (arg : option string)
    (b : option CalendarDate) :
  readBound arg = Some b ->
  dateBound LocalTZA arg =
  option_map (fun d => (#(dayNumber d * msPerDay - LocalTZA))%js) b
  /\ (forall d, b = Some d -> validDate d = true).
Proof.
  unfold readBound, dateBound. destruct arg as [s|].
  - destruct (String.eqb s "").
    + intro H; injection H as <-. split; [reflexivity|discriminate].
    + destruct (parseCalendarDate s) as [d|] eqn:P; [|discriminate].
      intro H; injection H as <-. split.
      * cbn [option_map]. now rewrite (parseDate_valid LocalTZA s d P).
      * intros d' H; injection H as <-.
        now destruct (parseCalendarDate_Some s d P).
  - intro H; injection H as <-. split; [reflexivity|discriminate].
Qed.

Lemma inPeriod_spec (LocalTZA : Z) (startDate endDate : option string)
    (start end_ : option CalendarDate) (t : Transaction.t) (d : CalendarDate) :
  readBound startDate = Some start ->
  readBound endDate = Some end_ ->
  parseCalendarDate (Transaction.data t) = Some d ->
  (inPeriod LocalTZA (dateBound LocalTZA startDate) (dateBound LocalTZA endDate) t
   = true
   <-> withinRange start end_ d).
Proof.
  intros Hs He Hd.
  destruct (dateBound_read LocalTZA startDate start Hs) as [-> Vs].
  destruct (dateBound_read LocalTZA endDate end_ He) as [-> Ve].
  destruct (parseCalendarDate_Some _ _ Hd) as [_ Vd].
  unfold inPeriod, withinRange. rewrite (parseDate_valid LocalTZA _ d Hd).
  assert (forall a b, validDate a = true -> validDate b = true ->
          (((dayNumber a * msPerDay - LocalTZA <? dayNumber b * msPerDay - LocalTZA)
            = false) <-> dateLe b a)) as Hcmp.
  { intros a b Va Vb. rewrite <- (dayNumber_le_iff b a Vb Va), Z.ltb_ge.
    unfold msPerDay. lia. }
  destruct start as [s|], end_ as [e|]; cbn [option_map].
  - rewrite ltb_ofZ, gtb_ofZ.
    specialize (Vs s eq_refl). specialize (Ve e eq_refl).
    pose proof (Hcmp d s Vd Vs) as C1. pose proof (Hcmp e d Ve Vd) as C2.
    destruct (_ <? _); [|destruct (_ <? _)]; split;
      try discriminate; try reflexivity.
    + intros [H _]. specialize (H s eq_refl). apply C1 in H. discriminate.
    + intros [_ H]. specialize (H e eq_refl). apply C2 in H. discriminate.
    + intros _. split; intros x Hx; injection Hx as <-;
        [now apply C1|now apply C2].
  - rewrite ltb_ofZ. specialize (Vs s eq_refl).
    pose proof (Hcmp d s Vd Vs) as C1.
    destruct (_ <? _); split; try discriminate; try reflexivity.
    + intros [H _]. specialize (H s eq_refl). apply C1 in H. discriminate.
    + intros _. split; intros x Hx; [injection Hx as <-; now apply C1|discriminate].
  - rewrite gtb_ofZ. specialize (Ve e eq_refl).
    pose proof (Hcmp e d Ve Vd) as C2.
    destruct (_ <? _); split; try discriminate; try reflexivity.
    + intros [_ H]. specialize (H e eq_refl). apply C2 in H. discriminate.
    + intros _. split; intros x Hx; [discriminate|injection Hx as <-; now apply C2].
  - split; [|reflexivity]. intros _. split; discriminate.
Qed.

Lemma dateLe_refl (d : CalendarDate) : dateLe d d.
Proof. unfold dateLe. lia. Qed.

Lemma filteredTransactions_unbounded (LocalTZA : Z) (l : list Transaction.t) :
  filteredTransactions LocalTZA l None None = l.
Proof.
  unfold filteredTransactions. cbn [dateBound].
  induction l as [|t l IH]; [reflexivity|].
  rewrite filter_cons_if at 1. cbn [inPeriod]. now rewrite IH.
Qed.

(** C4. With date arguments and a transaction date that are calendar
    dates, a transaction of the store is among the transactions from which
    [saldoTotal] and [comissaoTotalValor] are computed exactly when its date
    is not before the start date, if one is given, and not after the end
    date, if one is given.  A transaction dated on the start date or on the
    end date is included when it meets the other bound, and one dated the
    day before the start date or the day after the end date is excluded. *)
Theorem period_filter_spec (LocalTZA : Z) (allTransactions : list Transaction.t)
    (startDate endDate : option string) (start end_ : option CalendarDate) :
  readBound startDate = Some start ->
  readBound endDate = Some end_ ->
  let included := filteredTransactions LocalTZA allTransactions startDate endDate in
  (forall allClients,
      let windowed :=
        calculateDashboardStats LocalTZA allClients allTransactions startDate endDate in
      let unbounded :=
        calculateDashboardStats LocalTZA allClients included None None in
      saldoTotal windowed = saldoTotal unbounded
      /\ comissaoTotalValor windowed = comissaoTotalValor unbounded)
  /\ (forall t d,
        parseCalendarDate (Transaction.data t) = Some d ->
        (In t included <-> In t allTransactions /\ withinRange start end_ d))
  /\ (forall t d,
        In t allTransactions ->
        parseCalendarDate (Transaction.data t) = Some d ->
        start = Some d -> (forall e, end_ = Some e -> dateLe d e) ->
        In t included)
  /\ (forall t d,
        In t allTransactions ->
        parseCalendarDate (Transaction.data t) = Some d ->
        end_ = Some d -> (forall s, start = Some s -> dateLe s d) ->
        In t included)
  /\ (forall t d s,
        parseCalendarDate (Transaction.data t) = Some d ->
        start = Some s -> dayNumber d = dayNumber s - 1 ->
        ~ In t included)
  /\ (forall t d e,
        parseCalendarDate (Transaction.data t) = Some d ->
        end_ = Some e -> dayNumber d = dayNumber e + 1 ->
        ~ In t included).
Proof.
  intros Hs He included.
  assert (forall t d,
            parseCalendarDate (Transaction.data t) = Some d ->
            (In t included <-> In t allTransactions /\ withinRange start end_ d))
    as Hiff.
  { intros t d Hd. unfold included, filteredTransactions.
    rewrite filter_In, (inPeriod_spec LocalTZA startDate endDate start end_ t d)
      by assumption.
    reflexivity. }
  split; [|split; [exact Hiff|repeat split]].
  - intros allClients windowed unbounded.
    destruct (stats_projections LocalTZA allClients allTransactions startDate endDate)
      as (_ & S1 & C1 & _).
    destruct (stats_projections LocalTZA allClients included None None)
      as (_ & S2 & C2 & _).
    cbv zeta in *. subst windowed unbounded.
    rewrite S1, C1, S2, C2, filteredTransactions_unbounded. split; reflexivity.
  - intros t d Hin Hd -> Hend. apply (Hiff t d Hd). split; [exact Hin|].
    split; [|exact Hend]. intros s H; injection H as <-. apply dateLe_refl.
  - intros t d Hin Hd -> Hstart. apply (Hiff t d Hd). split; [exact Hin|].
    split; [exact Hstart|]. intros e H; injection H as <-. apply dateLe_refl.
  - intros t d s Hd -> Hday Hin. apply (Hiff t d Hd) in Hin.
    destruct Hin as [_ [H _]]. specialize (H s eq_refl).
    destruct (dateBound_read LocalTZA startDate (Some s) Hs) as [_ Vs].
    destruct (parseCalendarDate_Some _ _ Hd) as [_ Vd].
    apply (dayNumber_le_iff s d (Vs s eq_refl) Vd) in H. lia.
  - intros t d e Hd -> Hday Hin. apply (Hiff t d Hd) in Hin.
    destruct Hin as [_ [_ H]]. specialize (H e eq_refl).
    destruct (dateBound_read LocalTZA endDate (Some e) He) as [_ Ve].
    destruct (parseCalendarDate_Some _ _ Hd) as [_ Vd].
    apply (dayNumber_le_iff d e Vd (Ve e eq_refl)) in H. lia.
Qed.

(** A [data] that [parseDate] cannot read gives an invalid date, which
    compares false with every bound: such a transaction passes the period
    filter whatever the range. *)
Remark inPeriod_invalid_date (LocalTZA : Z) (start end_ : option number)
    (t : Transaction.t) :
  parseDate LocalTZA (Transaction.data t) = NaN ->
  inPeriod LocalTZA start end_ t = true.
Proof.
  intro H. unfold inPeriod. rewrite H.
  destruct start as [[|s]|], end_ as [[|e]|]; reflexivity.
Qed.

Example readBound_absent :
  readBound None = Some None /\ readBound (Some "") = Some None.
Proof. split; reflexivity. Qed.

Lemma period_filter_spec_witness :
  In (Transaction.mk "trans_1" "c1" "entrada" (#1000)%js "2024-01-10")
     (filteredTransactions 0 sampleStore (Some "2024-01-10") (Some "2024-01-20"))
  /\ In (Transaction.mk "trans_2" "c1" "saida" (#300)%js "2024-01-20")
        (filteredTransactions 0 sampleStore (Some "2024-01-10") (Some "2024-01-20"))
  /\ ~ In (Transaction.mk "trans_1" "c1" "entrada" (#1000)%js "2024-01-10")
          (filteredTransactions 0 sampleStore (Some "2024-01-11") None).
Proof.
  pose proof (period_filter_spec 0 sampleStore
                (Some "2024-01-10") (Some "2024-01-20")
                (Some (mkDate 2024 1 10)) (Some (mkDate 2024 1 20))
                eq_refl eq_refl) as (_ & _ & Hstart & Hend & _).
  pose proof (period_filter_spec 0 sampleStore (Some "2024-01-11") None
                (Some (mkDate 2024 1 11)) None eq_refl eq_refl)
    as (_ & _ & _ & _ & Hbefore & _).
  split; [|split].
  - apply (Hstart _ (mkDate 2024 1 10)); [simpl; tauto|reflexivity|reflexivity|].
    intros e H; injection H as <-. unfold dateLe; simpl; lia.
  - apply (Hend _ (mkDate 2024 1 20)); [simpl; tauto|reflexivity|reflexivity|].
    intros s H; injection H as <-. unfold dateLe; simpl; lia.
  - apply (Hbefore _ (mkDate 2024 1 10) (mkDate 2024 1 11));
      reflexivity.
Defined.

(** ** The commission of a period *)

Lemma clientById_findClient (roster : list Client.t) (clienteId : string) :
  findClient roster clienteId = clientById roster clienteId.
Proof.
  unfold findClient. induction roster as [|c others IH]; [reflexivity|].
  cbn [find clientById]. now destruct (String.eqb (Client.id c) clienteId).
Qed.

Lemma commissionDue_commissionOf (roster : list Client.t) (t : Transaction.t) :
  commissionOf roster t = commissionDue roster t.
Proof. unfold commissionOf, commissionDue. now rewrite clientById_findClient. Qed.

Lemma clientById_none (roster : list Client.t) (clienteId : string) :
  (forall c, In c roster -> Client.id c <> clienteId) ->
  clientById roster clienteId = None.
Proof.
  induction roster as [|c others IH]; intro H; [reflexivity|].
  cbn [clientById].
  replace (String.eqb (Client.id c) clienteId) with false
    by (symmetry; apply String.eqb_neq, H; now left).
  apply IH. intros c' Hc'. apply H. now right.
Qed.

Lemma dateLeb_spec (a b : CalendarDate) : dateLeb a b = true <-> dateLe a b.
Proof.
  unfold dateLeb, dateLe.
  rewrite !orb_true_iff, !andb_true_iff, !orb_true_iff, !andb_true_iff,
    !Z.ltb_lt, !Z.eqb_eq, Z.leb_le.
  reflexivity.
Qed.

Lemma withinRangeb_spec (start end_ : option CalendarDate) (d : CalendarDate) :
  withinRangeb start end_ d = true <-> withinRange start end_ d.
Proof.
  unfold withinRangeb, withinRange. rewrite andb_true_iff.
  destruct start as [s|], end_ as [e|]; rewrite ?dateLeb_spec; split.
  - intros [H1 H2]. split; intros x E; injection E as <-; assumption.
  - intros [H1 H2]. split; [now apply H1|now apply H2].
  - intros [H1 _]. split; [intros x E; injection E as <-; assumption|discriminate].
  - intros [H1 _]. split; [now apply H1|reflexivity].
  - intros [_ H2]. split; [discriminate|intros x E; injection E as <-; assumption].
  - intros [_ H2]. split; [reflexivity|now apply H2].
  - intros _. split; discriminate.
  - intros _. now split.
Qed.

Lemma storeDated_date (l : list Transaction.t) (t : Transaction.t) :
  storeDated l = true -> In t l ->
  exists d, parseCalendarDate (Transaction.data t) = Some d.
Proof.
  unfold storeDated. rewrite forallb_forall. intros H Hin.
  specialize (H t Hin). unfold hasCalendarDate in H.
  destruct (parseCalendarDate (Transaction.data t)) as [d|]; [eauto|discriminate].
Qed.

(** For a store whose transactions carry calendar dates, the transactions
    of a [tipo] that pass the period filter are those of that [tipo] whose
    date lies in the range. *)
Lemma filteredTransactions_ofTipoWithin (LocalTZA : Z) (tipo : string)
    (l : list Transaction.t) (startDate endDate : option string)
    (start end_ : option CalendarDate) :
  storeDated l = true ->
  readBound startDate = Some start ->
  readBound endDate = Some end_ ->
  filter (isTipo tipo) (filteredTransactions LocalTZA l startDate endDate)
  = ofTipoWithin tipo start end_ l.
Proof.
  intros Hd Hs He. unfold filteredTransactions, ofTipoWithin.
  rewrite filter_filter. apply filter_ext_in. intros t Ht.
  destruct (storeDated_date l t Hd Ht) as [d E]. rewrite E.
  unfold isTipo. rewrite andb_comm. f_equal.
  apply eq_true_iff_eq.
  rewrite (inPeriod_spec LocalTZA startDate endDate start end_ t d Hs He E).
  symmetry. apply withinRangeb_spec.
Qed.

Lemma dashboard_commission_in_order (allClients : list Client.t)
    (l : list Transaction.t) (s c : number) :
  rosterNumeric allClients = true ->
  storeNumeric l = true ->
  snd (fold_left (dashboardStep allClients) l (s, c))
  = fold_left JsNum.add
      (map (commissionDue allClients) (filter (isTipo "entrada") l)) c.
Proof.
  intros Hr. revert s c. induction l as [|t l IH]; intros s c Hl; [reflexivity|].
  unfold storeNumeric in Hl. cbn [forallb] in Hl.
  apply andb_true_iff in Hl. destruct Hl as [Hv Hl].
  cbn [fold_left]. rewrite dashboardStep_cases by assumption.
  rewrite IH by exact Hl. rewrite filter_cons_if.
  destruct (isTipo "entrada" t); [|reflexivity].
  cbn [map fold_left]. now rewrite commissionDue_commissionOf.
Qed.

Lemma storeNumeric_app (l1 l2 : list Transaction.t) :
  storeNumeric (l1 ++ l2)%list = storeNumeric l1 && storeNumeric l2.
Proof. unfold storeNumeric. apply forallb_app. Qed.

Lemma storeDated_app (l1 l2 : list Transaction.t) :
  storeDated (l1 ++ l2)%list = storeDated l1 && storeDated l2.
Proof. unfold storeDated. apply forallb_app. Qed.

Lemma ofTipoWithin_app (tipo : string) (start end_ : option CalendarDate)
    (l1 l2 : list Transaction.t) :
  ofTipoWithin tipo start end_ (l1 ++ l2)%list
  = (ofTipoWithin tipo start end_ l1 ++ ofTipoWithin tipo start end_ l2)%list.
Proof. unfold ofTipoWithin. apply filter_app. Qed.

Lemma comissaoTotalValor_in_order (LocalTZA : Z) (allClients : list Client.t)
    (l : list Transaction.t) (startDate endDate : option string)
    (start end_ : option CalendarDate) :
  rosterNumeric allClients = true ->
  storeNumeric l = true ->
  storeDated l = true ->
  readBound startDate = Some start ->
  readBound endDate = Some end_ ->
  comissaoTotalValor
    (calculateDashboardStats LocalTZA allClients l startDate endDate)
  = sumInOrder (map (commissionDue allClients)
                  (ofTipoWithin "entrada" start end_ l)).
Proof.
  intros Hr Hn Hd Hs He.
  destruct (stats_projections LocalTZA allClients l startDate endDate)
    as (_ & _ & -> & _).
  rewrite dashboard_commission_in_order;
    [|exact Hr|unfold filteredTransactions; now apply storeNumeric_filter].
  now rewrite (filteredTransactions_ofTipoWithin LocalTZA "entrada" l
                 startDate endDate start end_ Hd Hs He).
Qed.

(** C2. With numeric [valor] and [comissaoPct] fields and calendar dates,
    the total commission of the dashboard is the sum, taken in store order
    over the entradas whose date lies in the period, of
    [valor * (comissaoPct / 100)] for the client that the [clienteId]
    designates in the roster, an entrada that designates no client or a
    client without a percentage counting for [0].  A transaction that is not
    an entrada, a saida in particular, or whose [clienteId] is the id of no
    client, or whose client has no percentage, can be removed from the
    store without changing the total. *)
Theorem comissaoTotalValor_spec (LocalTZA : Z) (allClients : list Client.t)
    (allTransactions : list Transaction.t) (startDate endDate : option string)
    (start end_ : option CalendarDate) :
  rosterNumeric allClients = true ->
  storeNumeric allTransactions = true ->
  storeDated allTransactions = true ->
  readBound startDate = Some start ->
  readBound endDate = Some end_ ->
  let total transactions :=
    comissaoTotalValor
      (calculateDashboardStats LocalTZA allClients transactions startDate endDate) in
  total allTransactions
  = sumInOrder (map (commissionDue allClients)
                  (ofTipoWithin "entrada" start end_ allTransactions))
  /\ (forall before t after,
        allTransactions = (before ++ t :: after)%list ->
        Transaction.tipo t <> "entrada"
        \/ (forall c, In c allClients -> Client.id c <> Transaction.clienteId t)
        \/ (exists c,
               clientById allClients (Transaction.clienteId t) = Some c
               /\ Client.comissaoPct c = None) ->
        total (before ++ after)%list = total allTransactions).
Proof.
  intros Hr Hn Hd Hs He total. split.
  - now apply comissaoTotalValor_in_order.
  - intros before t after -> H. unfold total.
    assert (storeNumeric (before ++ after)%list = true
            /\ storeDated (before ++ after)%list = true) as [Hn' Hd'].
    { rewrite storeNumeric_app, storeDated_app in *.
      apply andb_true_iff in Hn, Hd. destruct Hn as [Hn1 Hn2], Hd as [Hd1 Hd2].
      unfold storeNumeric, storeDated in Hn2, Hd2. cbn [forallb] in Hn2, Hd2.
      apply andb_true_iff in Hn2, Hd2. destruct Hn2 as [_ Hn2], Hd2 as [_ Hd2].
      split; apply andb_true_iff; now split. }
    rewrite !(comissaoTotalValor_in_order LocalTZA allClients _
                startDate endDate start end_) by assumption.
    rewrite !ofTipoWithin_app.
    unfold ofTipoWithin at 4. rewrite filter_cons_if.
    fold (ofTipoWithin "entrada" start end_ after).
    destruct (String.eqb (Transaction.tipo t) "entrada"
              && match parseCalendarDate (Transaction.data t) with
                 | Some d => withinRangeb start end_ d
                 | None => false
                 end) eqn:K; [|reflexivity].
    apply andb_true_iff in K. destruct K as [K _]. apply String.eqb_eq in K.
    assert (commissionDue allClients t = (#0)%js) as Z0.
    { unfold commissionDue. destruct H as [H|[H|(c & Hc & Hp)]].
      - contradiction.
      - now rewrite (clientById_none _ _ H).
      - now rewrite Hc, Hp. }
    unfold sumInOrder. rewrite !map_app, !fold_left_app. cbn [map fold_left].
    now rewrite Z0, jsadd_0_r.
Qed.

Lemma comissaoTotalValor_spec_witness :
  comissaoTotalValor
    (calculateDashboardStats 0 sampleRoster sampleStore
       (Some "2024-01-01") (Some "2024-01-31"))
  = sumInOrder
      (map (commissionDue sampleRoster)
         (ofTipoWithin "entrada" (Some (mkDate 2024 1 1)) (Some (mkDate 2024 1 31))
            sampleStore)).
Proof.
  refine (proj1 (comissaoTotalValor_spec 0 sampleRoster sampleStore
                   (Some "2024-01-01") (Some "2024-01-31")
                   (Some (mkDate 2024 1 1)) (Some (mkDate 2024 1 31))
                   _ _ _ _ _));
    vm_compute; reflexivity.
Defined.

(** In the sample data one entrada falls in January 2024, of 1000 for a
    client with 10%: the commission due on it is 100. *)
Example commissionDue_sample :
  map Transaction.id
    (ofTipoWithin "entrada" (Some (mkDate 2024 1 1)) (Some (mkDate 2024 1 31))
       sampleStore) = ["trans_1"]
  /\ JsNum.eqb
       (sumInOrder
          (map (commissionDue sampleRoster)
             (ofTipoWithin "entrada" (Some (mkDate 2024 1 1))
                (Some (mkDate 2024 1 31)) sampleStore)))
       (#100)%js = true.
Proof. split; reflexivity. Qed.

(** ** Balance filter *)

Lemma ltb_Num (x y : Qc) : JsNum.ltb (Num x) (Num y) = true <-> (this x < this y)%Q.
Proof.
  unfold JsNum.ltb. change (x ?= y)%Qc with (this x ?= this y)%Q.
  rewrite Qlt_alt. destruct (this x ?= this y)%Q; split; congruence.
Qed.

Lemma leb_Num (x y : Qc) : JsNum.leb (Num x) (Num y) = true <-> (this x <= this y)%Q.
Proof.
  unfold JsNum.leb. change (x ?= y)%Qc with (this x ?= this y)%Q.
  rewrite Qle_alt. destruct (this x ?= this y)%Q; split; congruence.
Qed.

Lemma eqb_Num (x y : Qc) : JsNum.eqb (Num x) (Num y) = true <-> (this x == this y)%Q.
Proof.
  unfold JsNum.eqb. destruct (Qc_eq_dec x y) as [->|N].
  - split; [reflexivity|reflexivity].
  - split; [discriminate|]. intro H. exfalso. apply N. now apply Qc_is_canon.
Qed.

Lemma keeps_filter (balanceFilter : string) (results : list ClientWithSaldo) :
  applyBalanceFilter balanceFilter results = filter (keeps balanceFilter) results.
Proof.
  unfold keeps, applyBalanceFilter.
  destruct (negb (String.eqb balanceFilter "todos")).
  - destruct (balancePredicate balanceFilter) as [p|].
    + apply filter_ext. intro r. cbn [filter]. now destruct (p r).
    + induction results as [|r l IH]; [reflexivity|].
      rewrite filter_cons_if. now rewrite <- IH.
  - induction results as [|r l IH]; [reflexivity|].
    rewrite filter_cons_if. now rewrite <- IH.
Qed.

Lemma keeps_buckets (r : ClientWithSaldo) :
  keeps "positivo" r = JsNum.gtb (saldo r) (#0)%js
  /\ keeps "0-500" r = JsNum.gtb (saldo r) (#0)%js && JsNum.leb (saldo r) (#500)%js
  /\ keeps "501-1000" r
     = JsNum.geb (saldo r) (#501)%js && JsNum.leb (saldo r) (#1000)%js
  /\ keeps "1001+" r = JsNum.gtb (saldo r) (#1000)%js
  /\ keeps "negativo" r = JsNum.ltb (saldo r) (#0)%js
  /\ keeps "zero" r = JsNum.eqb (saldo r) (#0)%js.
Proof.
  unfold keeps, applyBalanceFilter, balancePredicate.
  cbn [String.eqb Ascii.eqb Bool.eqb negb filter].
  repeat split; match goal with |- context [if ?b then _ else _] => now destruct b end.
Qed.

Ltac bucket_arith :=
  unfold JsNum.gtb, JsNum.geb, JsNum.ofZ in *;
  repeat match goal with
         | H : _ && _ = true |- _ => apply andb_true_iff in H; destruct H
         | H : JsNum.ltb (Num _) (Num _) = true |- _ => apply ltb_Num in H
         | H : JsNum.leb (Num _) (Num _) = true |- _ => apply leb_Num in H
         | H : JsNum.eqb (Num _) (Num _) = true |- _ => apply eqb_Num in H
         | |- _ = false => apply not_true_is_false; intro
         | |- _ && _ = true => apply andb_true_iff; split
         | |- JsNum.ltb (Num _) (Num _) = true => apply ltb_Num
         | |- JsNum.leb (Num _) (Num _) = true => apply leb_Num
         | |- JsNum.eqb (Num _) (Num _) = true => apply eqb_Num
         end;
  cbn [this Q2Qc] in *;
  repeat match goal with
         | H : context [Qred (inject_Z ?z)] |- _ =>
             change (Qred (inject_Z z)) with (inject_Z z) in H
         | |- context [Qred (inject_Z ?z)] =>
             change (Qred (inject_Z z)) with (inject_Z z)
         end;
  unfold inject_Z in *; try lra.

(** C5. Boundaries of the balance filter.  The filter keeps the results
    that pass the one predicate selected by its value.  A balance of
    exactly 500 passes ['0-500'] and not ['501-1000']; a balance of exactly
    501 passes ['501-1000']; a balance of exactly 0 passes ['zero'] and none
    of the other restricting filters; a balance strictly between 500 and
    501 passes neither ['0-500'] nor ['501-1000']; and no balance passes two
    different range filters. *)
Theorem balance_buckets (r : ClientWithSaldo) :
  (forall balanceFilter results,
      applyBalanceFilter balanceFilter results
      = filter (keeps balanceFilter) results)
  /\ (saldo r = (#500)%js ->
       keeps "0-500" r = true /\ keeps "501-1000" r = false)
  /\ (saldo r = (#501)%js ->
       keeps "501-1000" r = true /\ keeps "0-500" r = false)
  /\ (saldo r = (#0)%js ->
       keeps "zero" r = true /\ keeps "positivo" r = false
       /\ keeps "negativo" r = false /\ keeps "0-500" r = false
       /\ keeps "501-1000" r = false /\ keeps "1001+" r = false)
  /\ (JsNum.gtb (saldo r) (#500)%js = true ->
       JsNum.ltb (saldo r) (#501)%js = true ->
       keeps "0-500" r = false /\ keeps "501-1000" r = false)
  /\ (forall b1 b2,
        In b1 rangeBuckets -> In b2 rangeBuckets -> b1 <> b2 ->
        keeps b1 r = true -> keeps b2 r = false).
Proof.
  destruct (keeps_buckets r) as (Kp & K0 & K5 & K1 & Kn & Kz).
  split; [exact keeps_filter|split; [|split; [|split; [|split]]]].
  - intro E. rewrite K0, K5, E. split; reflexivity.
  - intro E. rewrite K0, K5, E. split; reflexivity.
  - intro E. rewrite Kz, Kp, Kn, K0, K5, K1, E. repeat split; reflexivity.
  - rewrite K0, K5. destruct (saldo r) as [|q]; [discriminate|].
    intros H1 H2. split; bucket_arith.
  - intros b1 b2 H1 H2 Hne.
    destruct (saldo r) as [|q] eqn:S.
    + cbn in H1. intuition subst;
        rewrite ?K0, ?K5, ?K1, ?Kn, ?Kz in *; discriminate.
    + cbn in H1, H2.
      repeat (destruct H1 as [<-|H1]; [|]); try contradiction;
      repeat (destruct H2 as [<-|H2]; [|]); try contradiction;
      try (exfalso; apply Hne; reflexivity);
      rewrite ?K0, ?K5, ?K1, ?Kn, ?Kz; intro Hk; bucket_arith.
Qed.

Lemma balance_buckets_witness :
  keeps "0-500" (mkResult (mkClient "c1" "Maria Souza" "Padaria Central" None) (#500)%js)
  = true
  /\ keeps "501-1000"
       (mkResult (mkClient "c1" "Maria Souza" "Padaria Central" None) (#500)%js)
     = false.
Proof.
  apply (balance_buckets
           (mkResult (mkClient "c1" "Maria Souza" "Padaria Central" None) (#500)%js)).
  reflexivity.
Defined.

(** ** Text filter *)

Lemma prefix_spec (p s : string) :
  prefix p s = true <-> exists post, s = p ++ post.
Proof.
  revert s; induction p as [|a p IH]; intro s.
  - split; [intros _; now exists s|now destruct s].
  - destruct s as [|b s]; cbn.
    + split; [discriminate|]. intros [post H]. discriminate.
    + destruct (Ascii.ascii_dec a b) as [->|N].
      * rewrite IH. split; intros [post H]; exists post.
        -- now rewrite H.
        -- now injection H.
      * split; [discriminate|]. intros [post H]. injection H as H _.
        now elim N.
Qed.

Lemma includes_spec (s sub : string) :
  includes s sub = true <-> exists pre post, s = pre ++ sub ++ post.
Proof.
  induction s as [|c s IH]; cbn [includes]; rewrite orb_true_iff, prefix_spec.
  - split.
    + intros [[post H]|H]; [|discriminate]. now exists "", post.
    + intros (pre & post & H). left.
      destruct pre; [now exists post|discriminate].
  - rewrite IH. split.
    + intros [[post H]|(pre & post & H)].
      * now exists "", post.
      * exists (String c pre), post. cbn. now rewrite H.
    + intros (pre & post & H). destruct pre as [|a pre].
      * left. now exists post.
      * right. injection H as _ H. now exists pre, post.
Qed.

Lemma toLowerCase_append (a b : string) :
  toLowerCase (a ++ b) = toLowerCase a ++ toLowerCase b.
Proof. induction a as [|c a IH]; cbn; [reflexivity|now rewrite IH]. Qed.

Lemma toLowerCase_split (s a b : string) :
  toLowerCase s = a ++ b ->
  exists a' b', s = a' ++ b' /\ toLowerCase a' = a /\ toLowerCase b' = b.
Proof.
  revert s; induction a as [|c a IH]; intros s H.
  - now exists "", s.
  - destruct s as [|x s]; [discriminate|].
    cbn in H. injection H as Hc H.
    destruct (IH s H) as (a' & b' & -> & Ha & Hb).
    exists (String x a'), b'. cbn. now rewrite Hc, Ha.
Qed.

Lemma includes_lower_spec (s q : string) :
  includes (toLowerCase s) (toLowerCase q) = true <-> containsIgnoringCase s q.
Proof.
  rewrite includes_spec. unfold containsIgnoringCase. split.
  - intros (pre & post & H).
    apply toLowerCase_split in H. destruct H as (pre' & rest & -> & Hpre & H).
    apply toLowerCase_split in H. destruct H as (mid & post' & -> & Hmid & Hpost).
    now exists pre', mid, post'.
  - intros (pre & mid & post & -> & H).
    exists (toLowerCase pre), (toLowerCase post).
    now rewrite !toLowerCase_append, H.
Qed.

Lemma matchesQuery_spec (query : string) (r : ClientWithSaldo) :
  matchesQuery (toLowerCase query) r = true <->
  containsIgnoringCase (Client.nome (client r)) query
  \/ containsIgnoringCase (Client.empresa (client r)) query
  \/ containsIgnoringCase (Client.id (client r)) query.
Proof.
  unfold matchesQuery. now rewrite !orb_true_iff, !includes_lower_spec, or_assoc.
Qed.

Lemma filter_all {A : Type} (l : list A) : filter (fun _ => true) l = l.
Proof. induction l as [|x l IH]; cbn; [reflexivity|now rewrite IH]. Qed.

(** C8. For a non-empty query the text filter keeps, in roster order,
    exactly the clients whose [nome], [empresa] or [id] contains the query
    as a substring up to the case of the letters, one field being enough; a
    client whose [nome] equals the query up to case is therefore kept.  An
    empty query keeps every client. *)
Theorem text_filter_spec (allClients : list Client.t)
    (allTransactions : list Transaction.t) (query balanceFilter : string) :
  let annotated := annotateWithSaldo allClients allTransactions in
  (query <> "" ->
     exists keep : ClientWithSaldo -> bool,
       (forall r, keep r = true <->
          containsIgnoringCase (Client.nome (client r)) query
          \/ containsIgnoringCase (Client.empresa (client r)) query
          \/ containsIgnoringCase (Client.id (client r)) query)
       /\ applyTextFilter query annotated = filter keep annotated
       /\ refreshSearchResults allClients allTransactions query balanceFilter
          = applyBalanceFilter balanceFilter (filter keep annotated))
  /\ (query <> "" ->
      forall r, In r annotated ->
        toLowerCase (Client.nome (client r)) = toLowerCase query ->
        In r (applyTextFilter query annotated))
  /\ applyTextFilter "" annotated = annotated
  /\ refreshSearchResults allClients allTransactions "" "todos" = annotated.
Proof.
  intro annotated.
  assert (query <> "" ->
          applyTextFilter query annotated
          = filter (matchesQuery (toLowerCase query)) annotated) as Hf.
  { intro Hq. unfold applyTextFilter. destruct query; [now elim Hq|reflexivity]. }
  split; [|split; [|split]].
  - intro Hq. exists (matchesQuery (toLowerCase query)).
    split; [apply matchesQuery_spec|]. split; [now apply Hf|].
    unfold refreshSearchResults. fold (annotateWithSaldo allClients allTransactions).
    fold annotated. now rewrite Hf.
  - intros Hq r Hr E. rewrite Hf by exact Hq. apply filter_In. split; [exact Hr|].
    apply matchesQuery_spec. left.
    exists "", (Client.nome (client r)), "". split; [|exact E].
    cbn. clear. induction (Client.nome (client r)) as [|c s IH]; cbn; congruence.
  - reflexivity.
  - reflexivity.
Qed.

Lemma text_filter_spec_witness :
  In (mkResult (mkClient "c2" "JOSE LIMA" "Oficina Lima" None) (#500)%js)
     (applyTextFilter "Jose Lima" (annotateWithSaldo sampleRoster sampleStore)).
Proof.
  apply (text_filter_spec sampleRoster sampleStore "Jose Lima" "todos").
  - discriminate.
  - simpl. right. left. reflexivity.
  - reflexivity.
Defined.

(** ** Sorting and the recent transactions *)

Section SortFacts.

Context {A : Type}.
Variable comparefn : A -> A -> number.
Variable P : A -> Prop.
Variable key : A -> Z.
Hypothesis comesAfter_key :
  forall x y, P x -> P y -> comesAfter comparefn x y = (key x <? key y).

Lemma insertSorted_perm (x : A) (l : list A) :
  Permutation (insertSorted comparefn x l) (x :: l).
Proof.
  induction l as [|y l IH]; cbn [insertSorted]; [reflexivity|].
  destruct (comesAfter comparefn x y); [|reflexivity].
  rewrite IH. apply perm_swap.
Qed.

Lemma sort_perm (l : list A) : Permutation (sort comparefn l) l.
Proof.
  induction l as [|x l IH]; cbn [sort fold_right]; [reflexivity|].
  fold (sort comparefn l). rewrite insertSorted_perm. now constructor.
Qed.

Lemma insertSorted_sorted (x : A) (l : list A) :
  P x -> Forall P l ->
  StronglySorted (fun x y => key y <= key x) l ->
  StronglySorted (fun x y => key y <= key x) (insertSorted comparefn x l).
Proof.
  intros Px Pl Hs. induction Hs as [|y l Hs IH Hy]; cbn [insertSorted].
  - repeat constructor.
  - inversion Pl as [|? ? Py Pl']; subst.
    rewrite (comesAfter_key x y Px Py).
    destruct (Z.ltb_spec (key x) (key y)) as [L|G].
    + constructor; [now apply IH|].
      rewrite insertSorted_perm.
      constructor; [lia|exact Hy].
    + constructor; [now constructor|].
      constructor; [exact G|].
      eapply Forall_impl; [|exact Hy]. cbv beta. intros; lia.
Qed.

Lemma sort_sorted (l : list A) :
  Forall P l -> StronglySorted (fun x y => key y <= key x) (sort comparefn l).
Proof.
  induction l as [|x l IH]; intro Pl; cbn [sort fold_right]; [constructor|].
  fold (sort comparefn l). inversion Pl; subst.
  apply insertSorted_sorted; [assumption| |now apply IH].
  now rewrite sort_perm.
Qed.

End SortFacts.

Lemma Permutation_filter' {A : Type} (f : A -> bool) (l l' : list A) :
  Permutation l l' -> Permutation (filter f l) (filter f l').
Proof.
  induction 1 as [|x l l' _ IH|x y l|l l' l'' _ IH1 _ IH2]; cbn [filter].
  - constructor.
  - destruct (f x); [now constructor|exact IH].
  - destruct (f x), (f y); try reflexivity. apply perm_swap.
  - now transitivity (filter f l').
Qed.

Lemma StronglySorted_filter' {A : Type} (R : A -> A -> Prop) (f : A -> bool)
    (l : list A) :
  StronglySorted R l -> StronglySorted R (filter f l).
Proof.
  induction 1 as [|x l _ IH Hx]; cbn [filter]; [constructor|].
  destruct (f x); [|exact IH]. constructor; [exact IH|].
  rewrite Forall_forall in *. intros y Hy. apply filter_In in Hy. now apply Hx.
Qed.

Lemma sub_ofZ (a b : Z) : (#a - #b)%js = (#(a - b))%js.
Proof.
  unfold JsNum.sub, JsNum.ofZ. f_equal. apply Qc_is_canon.
  unfold Qcminus, Qcplus, Qcopp. cbn [this Q2Qc].
  rewrite !Qred_correct. unfold inject_Z, Qplus, Qopp, Qeq. cbn. lia.
Qed.

Lemma comesAfter_compareRecent (LocalTZA : Z) (a b : Transaction.t) :
  hasCalendarDate a = true -> hasCalendarDate b = true ->
  comesAfter (compareRecent LocalTZA) a b = (dateKey a <? dateKey b).
Proof.
  unfold hasCalendarDate, dateKey, comesAfter, compareRecent.
  destruct (parseCalendarDate (Transaction.data a)) as [da|] eqn:Ea; [|discriminate].
  destruct (parseCalendarDate (Transaction.data b)) as [db|] eqn:Eb; [|discriminate].
  intros _ _.
  rewrite (parseDate_valid LocalTZA _ da Ea), (parseDate_valid LocalTZA _ db Eb).
  rewrite sub_ofZ, gtb_ofZ. unfold msPerDay.
  destruct (Z.ltb_spec (dayNumber da) (dayNumber db)) as [L|G].
  - apply Z.ltb_lt. lia.
  - apply Z.ltb_ge. lia.
Qed.

Lemma keyDescending_notOlder (l : list Transaction.t) :
  Forall (fun t => hasCalendarDate t = true) l ->
  StronglySorted (fun x y => dateKey y <= dateKey x) l ->
  StronglySorted notOlder l.
Proof.
  intros Hd Hs. induction Hs as [|x l _ IH Hx]; [constructor|].
  inversion Hd as [|? ? Dx Dl]; subst.
  constructor; [now apply IH|].
  rewrite Forall_forall in *. intros y Hy.
  specialize (Hx y Hy). specialize (Dl y Hy).
  unfold hasCalendarDate, dateKey, notOlder in *.
  destruct (parseCalendarDate (Transaction.data x)) as [dx|] eqn:Ex; [|discriminate].
  destruct (parseCalendarDate (Transaction.data y)) as [dy|] eqn:Ey; [|discriminate].
  exists dx, dy. repeat split.
  apply dayNumber_le_iff; [| |exact Hx].
  - now destruct (parseCalendarDate_Some _ _ Ey).
  - now destruct (parseCalendarDate_Some _ _ Ex).
Qed.

Lemma recent_view (LocalTZA : Z) (allTransactions : list Transaction.t)
    (clientId tipo : string) :
  (forall t, In t allTransactions -> Transaction.clienteId t = clientId ->
             hasCalendarDate t = true) ->
  mostRecentFirst 4
    (slice0 4 (filter (isTipo tipo)
                 (clientTransactionsSorted LocalTZA allTransactions clientId)))
    (filter (isTipo tipo) (getTransactionsForClient allTransactions clientId)).
Proof.
  intro Hd. unfold clientTransactionsSorted, slice0.
  set (mine := getTransactionsForClient allTransactions clientId).
  set (sorted := sort (compareRecent LocalTZA) mine).
  assert (Forall (fun t => hasCalendarDate t = true) mine) as Hmine.
  { apply Forall_forall. intros t Ht. apply filter_In in Ht.
    destruct Ht as [Ht E]. apply String.eqb_eq in E. now apply Hd. }
  assert (Permutation sorted mine) as Hperm by apply sort_perm.
  exists (skipn 4 (filter (isTipo tipo) sorted)).
  rewrite firstn_skipn. split; [|split].
  - now apply Permutation_filter'.
  - apply keyDescending_notOlder.
    + apply Forall_forall. intros t Ht. apply filter_In in Ht.
      destruct Ht as [Ht _]. rewrite Forall_forall in Hmine. apply Hmine.
      now apply (Permutation_in _ Hperm).
    + apply StronglySorted_filter'.
      apply (sort_sorted (compareRecent LocalTZA)
               (fun t => hasCalendarDate t = true) dateKey).
      * intros x y. apply comesAfter_compareRecent.
      * exact Hmine.
  - rewrite length_firstn. f_equal. apply Permutation_length.
    now apply Permutation_filter'.
Qed.

Lemma notOlder_timeNotBefore (LocalTZA : Z) (a b : Transaction.t) :
  notOlder a b -> timeNotBefore LocalTZA a b.
Proof.
  intros (da & db & Ha & Hb & Hle). unfold timeNotBefore, JsNum.geb.
  rewrite (parseDate_valid LocalTZA _ da Ha), (parseDate_valid LocalTZA _ db Hb).
  rewrite leb_ofZ. apply Z.leb_le.
  destruct (parseCalendarDate_Some _ _ Ha) as [_ Va].
  destruct (parseCalendarDate_Some _ _ Hb) as [_ Vb].
  apply (dayNumber_le_iff db da Vb Va) in Hle. unfold msPerDay. lia.
Qed.

Lemma StronglySorted_weaken {A : Type} (R R' : A -> A -> Prop) (l : list A) :
  (forall x y, R x y -> R' x y) -> StronglySorted R l -> StronglySorted R' l.
Proof.
  intros HR. induction 1 as [|x l _ IH Hx]; constructor; [exact IH|].
  eapply Forall_impl; [|exact Hx]. intros y. apply HR.
Qed.

Lemma ofClientAndTipo_filter (clientId tipo : string)
    (transactions : list Transaction.t) :
  filter (isTipo tipo) (getTransactionsForClient transactions clientId)
  = ofClientAndTipo clientId tipo transactions.
Proof.
  unfold getTransactionsForClient, ofClientAndTipo. rewrite filter_filter.
  apply filter_ext. intro t. reflexivity.
Qed.

(** C9. When the transactions of a client carry calendar dates, the card of
    the client shows two lists, one of its entradas and one of its saidas:
    each holds transactions of the store that carry the id of the client and
    the [tipo] of the list, is sorted by date, most recent first, and holds
    the four most recent of them (all of them when there are fewer than
    four).  The order is that of the time values given by [parseDate], the
    function that the dashboard uses for its period filter. *)
Theorem recent_transactions_spec (LocalTZA : Z)
    (allTransactions : list Transaction.t) (clientId : string) :
  (forall t, In t allTransactions -> Transaction.clienteId t = clientId ->
             hasCalendarDate t = true) ->
  let entradas := recentEntradas LocalTZA allTransactions clientId in
  let saidas := recentSaidas LocalTZA allTransactions clientId in
  mostRecentFirst 4 entradas (ofClientAndTipo clientId "entrada" allTransactions)
  /\ mostRecentFirst 4 saidas (ofClientAndTipo clientId "saida" allTransactions)
  /\ (forall t, In t entradas ->
        In t allTransactions /\ Transaction.clienteId t = clientId
        /\ Transaction.tipo t = "entrada")
  /\ (forall t, In t saidas ->
        In t allTransactions /\ Transaction.clienteId t = clientId
        /\ Transaction.tipo t = "saida")
  /\ (List.length entradas <= 4)%nat /\ (List.length saidas <= 4)%nat
  /\ StronglySorted notOlder entradas /\ StronglySorted notOlder saidas
  /\ StronglySorted (timeNotBefore LocalTZA) entradas
  /\ StronglySorted (timeNotBefore LocalTZA) saidas.
Proof.
  intros Hd entradas saidas.
  pose proof (recent_view LocalTZA allTransactions clientId "entrada" Hd) as He.
  pose proof (recent_view LocalTZA allTransactions clientId "saida" Hd) as Hs.
  rewrite ofClientAndTipo_filter in He, Hs.
  change (mostRecentFirst 4 entradas
            (ofClientAndTipo clientId "entrada" allTransactions)) in He.
  change (mostRecentFirst 4 saidas
            (ofClientAndTipo clientId "saida" allTransactions)) in Hs.
  assert (forall shown cands, mostRecentFirst 4 shown cands ->
            (List.length shown <= 4)%nat /\ StronglySorted notOlder shown) as Hpre.
  { intros shown cands (rest & _ & Hsorted & Hlen). split; [lia|].
    clear Hlen. induction shown as [|x l IH]; [constructor|].
    cbn in Hsorted. apply StronglySorted_inv in Hsorted.
    destruct Hsorted as [Hl Hx]. constructor; [now apply IH|].
    rewrite Forall_forall in *. intros y Hy. apply Hx. apply in_or_app. now left. }
  assert (forall shown tipo,
            mostRecentFirst 4 shown (ofClientAndTipo clientId tipo allTransactions) ->
            forall t, In t shown ->
              In t allTransactions /\ Transaction.clienteId t = clientId
              /\ Transaction.tipo t = tipo) as Hown.
  { intros shown tipo (rest & Hperm & _) t Ht.
    assert (In t (ofClientAndTipo clientId tipo allTransactions)) as Hin.
    { apply (Permutation_in _ Hperm). apply in_or_app. now left. }
    apply filter_In in Hin. destruct Hin as [Hin E].
    apply andb_true_iff in E. destruct E as [E1 E2].
    apply String.eqb_eq in E1, E2. now repeat split. }
  destruct (Hpre _ _ He) as [Le Se]. destruct (Hpre _ _ Hs) as [Ls Ss].
  split; [exact He|]. split; [exact Hs|].
  split; [exact (Hown _ _ He)|]. split; [exact (Hown _ _ Hs)|].
  repeat split; try assumption;
    eapply StronglySorted_weaken; try eassumption;
    apply notOlder_timeNotBefore.
Qed.

Example recentEntradas_busyStore :
  map Transaction.id (recentEntradas 0 busyStore "c1")
  = ["trans_4"; "trans_7"; "trans_1"; "trans_8"]
  /\ map Transaction.id (recentSaidas 0 busyStore "c1") = ["trans_3"]
  /\ map Transaction.id (ofClientAndTipo "c1" "entrada" busyStore)
     = ["trans_1"; "trans_2"; "trans_4"; "trans_6"; "trans_7"; "trans_8"].
Proof. repeat split; reflexivity. Qed.

Lemma recent_transactions_spec_witness :
  mostRecentFirst 4 (recentEntradas 0 busyStore "c1")
    (ofClientAndTipo "c1" "entrada" busyStore).
Proof.
  apply (recent_transactions_spec 0 busyStore "c1").
  intros t Ht _. simpl in Ht.
  repeat (destruct Ht as [<-|Ht]; [reflexivity|]). destruct Ht.
Defined.

(** ** Adding a transaction *)

Lemma asTransaction_toJson (t : Transaction.t) : asTransaction (toJson t) = Some t.
Proof. now destruct t. Qed.

(** C10. [addTransaction] keeps every stored record in its place and
    appends exactly one record, whose [clienteId], [tipo] and [data] are the
    arguments as given and whose [valor] is [parseFloat] of the value
    argument; the new store is saved to the local storage. *)
Theorem addTransaction_appends (parseFloat : string -> number) (now : Z)
    (clientId type value date : string) (st : App.State) :
  let st' := addTransaction parseFloat now clientId type value date st in
  exists record id,
    App.allTransactions st' = (App.allTransactions st ++ [record])%list
    /\ firstn (List.length (App.allTransactions st)) (App.allTransactions st')
       = App.allTransactions st
    /\ List.length (App.allTransactions st')
       = S (List.length (App.allTransactions st))
    /\ asTransaction record
       = Some (Transaction.mk id clientId type (parseFloat value) date)
    /\ App.localStorage st'
       = Some (JSON_stringify (JArray (App.allTransactions st'))).
Proof.
  cbv zeta.
  exists (newTransaction parseFloat now clientId type value date),
         ("trans_" ++ numberToString (#now)%js).
  unfold addTransaction, saveTransactions, setTransactions.
  cbn [App.allTransactions App.localStorage].
  repeat split.
  - rewrite firstn_app, firstn_all, Nat.sub_diag. cbn [firstn]. apply app_nil_r.
  - rewrite length_app. cbn [List.length]. lia.
Qed.

Example addTransaction_sample :
  let st' := addTransaction (fun _ => (#75)%js) 1700000000000
               "c2" "saida" "75" "2024-03-01" sampleState in
  nth_error (App.allTransactions st') 5
  = Some (toJson (Transaction.mk "trans_1700000000000" "c2" "saida" (#75)%js
                    "2024-03-01"))
  /\ firstn 5 (App.allTransactions st') = App.allTransactions sampleState.
Proof. split; reflexivity. Qed.

(** ** Import *)

Example notAnArrayText_parsed :
  JSON_parse notAnArrayText = Some (JObject [("not", JString "an array")]).
Proof. reflexivity. Qed.

(** C6. When the text of the file parses to a JSON value that is not an
    array, the import shows its failure alert and leaves the store and the
    saved copy as they were; so it does for a text that does not parse.
    When the text parses to an array, the store becomes that array, the
    former transactions being dropped, and is saved. *)
Theorem import_contract (result : string) (st : App.State) :
  let st' := importOnLoad result st in
  (forall v,
      JSON_parse result = Some v -> (forall l, v <> JArray l) ->
      App.allTransactions st' = App.allTransactions st
      /\ App.localStorage st' = App.localStorage st
      /\ App.alertModal st' = Some (FalhaNaImportacao NotAnArray))
  /\ (JSON_parse result = None ->
      App.allTransactions st' = App.allTransactions st
      /\ App.localStorage st' = App.localStorage st
      /\ App.alertModal st' = Some (FalhaNaImportacao SyntaxError))
  /\ (forall importedData,
      JSON_parse result = Some (JArray importedData) ->
      App.allTransactions st' = importedData
      /\ App.localStorage st' = Some (JSON_stringify (JArray importedData))
      /\ App.alertModal st' = Some ImportacaoConcluida).
Proof.
  cbv zeta. unfold importOnLoad. split; [|split].
  - intros v -> Hv. destruct v; try (repeat split; reflexivity).
    now elim (Hv elements).
  - intros ->. repeat split; reflexivity.
  - intros l ->. repeat split; reflexivity.
Qed.

Lemma import_contract_witness :
  App.allTransactions (importOnLoad notAnArrayText sampleState)
  = App.allTransactions sampleState
  /\ App.localStorage (importOnLoad notAnArrayText sampleState)
     = App.localStorage sampleState
  /\ App.alertModal (importOnLoad notAnArrayText sampleState)
     = Some (FalhaNaImportacao NotAnArray).
Proof.
  apply (proj1 (import_contract notAnArrayText sampleState)
           (JObject [("not", JString "an array")])).
  - reflexivity.
  - discriminate.
Defined.

(** ** Decimal digits *)

Lemma append_assoc (a b c : string) : (a ++ b) ++ c = a ++ (b ++ c).
Proof. induction a as [|x a IH]; cbn; [reflexivity|now rewrite IH]. Qed.

Lemma append_nil_r (a : string) : a ++ "" = a.
Proof. induction a as [|x a IH]; cbn; [reflexivity|now rewrite IH]. Qed.

Lemma digitChar_spec (d : Z) :
  0 <= d <= 9 ->
  digitValue (digitChar d) = Some d /\ isDigit (digitChar d) = true.
Proof.
  intro H.
  assert (d = 0 \/ d = 1 \/ d = 2 \/ d = 3 \/ d = 4 \/ d = 5 \/ d = 6
          \/ d = 7 \/ d = 8 \/ d = 9) as C by lia.
  repeat (destruct C as [->|C]; [split; reflexivity|]). subst; split; reflexivity.
Qed.

Lemma digitsFrom_append (a : Z) (x y : string) :
  digitsFrom a (x ++ y) =
  match digitsFrom a x with
  | Some a' => digitsFrom a' y
  | None => None
  end.
Proof.
  revert a; induction x as [|c x IH]; intro a; cbn; [reflexivity|].
  destruct (digitValue c); [apply IH|reflexivity].
Qed.

Lemma allDigits_append (x y : string) :
  allDigits (x ++ y) = allDigits x && allDigits y.
Proof.
  induction x as [|c x IH]; cbn; [reflexivity|]. now rewrite IH, andb_assoc.
Qed.

Lemma digitsAux_acc (fuel : nat) (n : Z) (acc : string) :
  digitsAux fuel n acc = digitsAux fuel n "" ++ acc.
Proof.
  revert n acc; induction fuel as [|f IH]; intros n acc; cbn [digitsAux].
  - reflexivity.
  - destruct (n <? 10); [reflexivity|].
    rewrite IH, (IH _ (String _ "")), append_assoc. reflexivity.
Qed.

Lemma digitsAux_spec (fuel : nat) (n : Z) :
  0 <= n < 10 ^ Z.of_nat (S fuel) ->
  let ds := digitsAux fuel n "" in
  allDigits ds = true
  /\ (forall a, 0 <= a ->
        digitsFrom a ds = Some (a * 10 ^ Z.of_nat (String.length ds) + n))
  /\ (0 < n -> exists c rest, ds = String c rest /\ Ascii.eqb c "0" = false).
Proof.
  revert n; induction fuel as [|f IH]; intros n Hn; cbn [digitsAux].
  - assert (n mod 10 = n) as E
      by (change (10 ^ Z.of_nat 1) with 10 in Hn; apply Z.mod_small; lia).
    rewrite E. change (10 ^ Z.of_nat 1) with 10 in Hn.
    destruct (digitChar_spec n) as [V D]; [lia|].
    cbv zeta. cbn [allDigits digitsFrom String.length]. rewrite V, D.
    repeat split.
    + intros a Ha. f_equal. change (10 ^ Z.of_nat 1) with 10. lia.
    + intro Hp. exists (digitChar n), "". split; [reflexivity|].
      assert (n = 1 \/ n = 2 \/ n = 3 \/ n = 4 \/ n = 5 \/ n = 6
              \/ n = 7 \/ n = 8 \/ n = 9) as C by lia.
      repeat (destruct C as [->|C]; [reflexivity|]). subst; reflexivity.
  - destruct (Z.ltb_spec n 10) as [L|G].
    + assert (n mod 10 = n) as E by (apply Z.mod_small; lia).
      rewrite E. destruct (digitChar_spec n) as [V D]; [lia|].
      cbv zeta. cbn [allDigits digitsFrom String.length]. rewrite V, D.
      repeat split.
      * intros a Ha. f_equal. change (10 ^ Z.of_nat 1) with 10. lia.
      * intro Hp. exists (digitChar n), "". split; [reflexivity|].
        assert (n = 1 \/ n = 2 \/ n = 3 \/ n = 4 \/ n = 5 \/ n = 6
                \/ n = 7 \/ n = 8 \/ n = 9) as C by lia.
        repeat (destruct C as [->|C]; [reflexivity|]). subst; reflexivity.
    + rewrite digitsAux_acc.
      assert (0 <= n / 10 < 10 ^ Z.of_nat (S f)) as Hq.
      { rewrite Nat2Z.inj_succ, Z.pow_succ_r in Hn by lia.
        split; [apply Z.div_pos; lia|apply Z.div_lt_upper_bound; lia]. }
      destruct (IH (n / 10) Hq) as (A & V & F). cbv zeta in *.
      set (ds := digitsAux f (n / 10) "") in *.
      destruct (digitChar_spec (n mod 10)) as [Vd Dd];
        [pose proof (Z.mod_pos_bound n 10); lia|].
      repeat split.
      * rewrite allDigits_append, A. cbn [allDigits]. now rewrite Dd.
      * intros a Ha. rewrite digitsFrom_append, V by exact Ha.
        cbn [digitsFrom]. rewrite Vd. f_equal.
        rewrite length_append. cbn [String.length].
        rewrite Nat2Z.inj_add, Z.pow_add_r by lia.
        change (10 ^ Z.of_nat 1) with 10.
        pose proof (Z.div_mod n 10). lia.
      * intros _. destruct F as (c & rest & E & N);
          [apply Z.div_str_pos; lia|].
        exists c, (rest ++ str1 (digitChar (n mod 10))). rewrite E. now split.
Qed.

Lemma digitsOfZ_spec (n : Z) :
  0 <= n ->
  allDigits (digitsOfZ n) = true
  /\ (forall a, 0 <= a ->
        digitsFrom a (digitsOfZ n)
        = Some (a * 10 ^ Z.of_nat (String.length (digitsOfZ n)) + n))
  /\ (0 < n -> exists c rest,
        digitsOfZ n = String c rest /\ Ascii.eqb c "0" = false).
Proof.
  intro Hn. apply digitsAux_spec. split; [exact Hn|].
  rewrite Nat2Z.inj_succ, Z2Nat.id by apply Z.log2_nonneg.
  destruct (Z.eq_dec n 0) as [->|N]; [reflexivity|].
  pose proof (Z.log2_spec n ltac:(lia)) as [_ H].
  eapply Z.lt_le_trans; [exact H|].
  apply Z.pow_le_mono_l. lia.
Qed.

Lemma zeros_spec (j : nat) :
  allDigits (zeros j) = true /\ String.length (zeros j) = j
  /\ forall a, digitsFrom a (zeros j) = Some (a * 10 ^ Z.of_nat j).
Proof.
  induction j as [|j (A & L & V)]; cbn [zeros allDigits String.length digitsFrom].
  - repeat split. intro a. f_equal. cbn. lia.
  - repeat split; [assumption|now rewrite L|].
    intro a. change (digitValue "0") with (Some 0). cbv beta iota.
    rewrite V. f_equal.
    rewrite Nat2Z.inj_succ, Z.pow_succ_r by lia. lia.
Qed.

Lemma stripTrailingZeros_spec (s : string) :
  exists j, s = stripTrailingZeros s ++ zeros j.
Proof.
  induction s as [|c s [j IH]]; [now exists 0%nat|].
  cbn [stripTrailingZeros].
  destruct (stripTrailingZeros s) as [|c' s'] eqn:E.
  - destruct (Ascii.eqb_spec c "0") as [->|N].
    + exists (S j). cbn in *. now rewrite <- IH.
    + exists j. cbn in *. now rewrite <- IH.
  - exists j. cbn in *. now rewrite <- IH.
Qed.

Lemma stripTrailingZeros_head (c : ascii) (s : string) :
  Ascii.eqb c "0" = false ->
  exists s', stripTrailingZeros (String c s) = String c s'.
Proof.
  intro N. cbn [stripTrailingZeros].
  destruct (stripTrailingZeros s) as [|c' s'].
  - rewrite N. now exists "".
  - now exists (String c' s').
Qed.

Lemma takeDigits_spec (ds rest : string) :
  allDigits ds = true ->
  match rest with String c _ => isDigit c = false | EmptyString => True end ->
  takeDigits (ds ++ rest) = (ds, rest).
Proof.
  intros A R. induction ds as [|c ds IH]; cbn [append takeDigits].
  - destruct rest as [|c r]; [reflexivity|]. cbn [takeDigits]. now rewrite R.
  - cbn [allDigits] in A. apply andb_true_iff in A. destruct A as [A1 A2].
    now rewrite A1, IH.
Qed.

(** ** Reading back a printed number *)

Lemma valQ_scale (m j e : Z) :
  0 <= j -> (valQ (m * 10 ^ j) (e - j) == valQ m e)%Q.
Proof.
  intro Hj. unfold valQ.
  destruct (Z.leb_spec 0 (e - j)) as [A|A], (Z.leb_spec 0 e) as [B|B];
    try lia; unfold Qeq, inject_Z; cbn [Qnum Qden].
  - replace e with (e - j + j) at 2 by lia.
    rewrite Z.pow_add_r by lia. lia.
  - rewrite Z2Pos.id by (apply Z.pow_pos_nonneg; lia).
    replace (10 ^ e) with (10 ^ e * 1) by lia.
    replace j with (e + - (e - j)) at 1 by lia.
    rewrite Z.pow_add_r by lia. lia.
  - rewrite !Z2Pos.id by (apply Z.pow_pos_nonneg; lia).
    replace (- (e - j)) with (j + - e) by lia.
    rewrite Z.pow_add_r by lia. lia.
Qed.

Lemma valQ_opp (m e : Z) : (valQ (- m) e == - valQ m e)%Q.
Proof.
  unfold valQ. destruct (0 <=? e); unfold Qeq, Qopp, inject_Z; cbn [Qnum Qden]; lia.
Qed.

Lemma valQ_ratio (p d c : Z) (e : nat) :
  0 < d -> 10 ^ Z.of_nat e = d * c ->
  (valQ (p * c) (- Z.of_nat e) == Qmake p (Z.to_pos d))%Q.
Proof.
  intros Hd Hc. unfold valQ.
  destruct (Z.leb_spec 0 (- Z.of_nat e)) as [A|A]; unfold Qeq, inject_Z;
    cbn [Qnum Qden]; rewrite ?Z2Pos.id by lia.
  - assert (Z.of_nat e = 0) as E by lia. rewrite E in *.
    change (10 ^ (- 0)) with 1. change (10 ^ 0) with 1 in Hc.
    replace (p * c * 1 * d) with (p * (d * c)) by ring. rewrite <- Hc. ring.
  - rewrite Z.opp_involutive, Hc. lia.
Qed.

Lemma digitsFrom_allDigits (s : string) :
  allDigits s = true ->
  forall a, digitsFrom a s
            = Some (a * 10 ^ Z.of_nat (String.length s) + digitsToZ s).
Proof.
  unfold digitsToZ. induction s as [|c s IH]; intros A a.
  - cbn. f_equal. lia.
  - cbn [allDigits] in A. apply andb_true_iff in A. destruct A as [Ac As].
    cbn [digitsFrom String.length].
    assert (exists v, digitValue c = Some v) as [v Hv].
    { unfold digitValue. unfold isDigit in Ac.
      apply andb_true_iff in Ac. destruct Ac as [A1 A2].
      apply Nat.leb_le in A1, A2.
      replace ((48 <=? Z.of_nat (nat_of_ascii c)) && (Z.of_nat (nat_of_ascii c) <=? 57))
        with true; [eauto|].
      symmetry. apply andb_true_iff. split; apply Z.leb_le; lia. }
    rewrite Hv, (IH As (10 * a + v)), (IH As (10 * 0 + v)). f_equal.
    rewrite Nat2Z.inj_succ, Z.pow_succ_r by lia. lia.
Qed.

Lemma digitsToZ_append (x y : string) :
  allDigits x = true -> allDigits y = true ->
  digitsToZ (x ++ y) = digitsToZ x * 10 ^ Z.of_nat (String.length y) + digitsToZ y.
Proof.
  intros Ax Ay.
  assert (digitsFrom 0 (x ++ y)
          = Some (digitsToZ x * 10 ^ Z.of_nat (String.length y) + digitsToZ y)) as H.
  { rewrite digitsFrom_append, (digitsFrom_allDigits x Ax).
    rewrite (digitsFrom_allDigits y Ay). f_equal; lia. }
  unfold digitsToZ at 1. now rewrite H.
Qed.

Lemma digitsToZ_zeros (j : nat) : digitsToZ (zeros j) = 0.
Proof.
  unfold digitsToZ. destruct (zeros_spec j) as (_ & _ & V). now rewrite V.
Qed.

Lemma digitsToZ_digitsOfZ (n : Z) : 0 <= n -> digitsToZ (digitsOfZ n) = n.
Proof.
  intro Hn. destruct (digitsOfZ_spec n Hn) as (_ & V & _).
  unfold digitsToZ. rewrite V by lia. lia.
Qed.

Lemma endsNumber_nondigit (rest : string) :
  endsNumber rest = true ->
  match rest with String c _ => isDigit c = false | EmptyString => True end.
Proof.
  destruct rest as [|c r]; [trivial|]. cbn [endsNumber].
  destruct (isDigit c); [discriminate|reflexivity].
Qed.

Lemma parseFraction_none (rest : string) :
  endsNumber rest = true -> parseFraction rest = Some ("", rest).
Proof.
  destruct rest as [|c r]; [reflexivity|]. cbn [endsNumber parseFraction].
  destruct (Ascii.eqb c "."); [|reflexivity].
  now rewrite orb_true_r.
Qed.

Lemma parseExponent_none (rest : string) :
  endsNumber rest = true -> parseExponent rest = Some (0, rest).
Proof.
  destruct rest as [|c r]; [reflexivity|]. cbn [endsNumber parseExponent].
  destruct (Ascii.eqb c "e"), (Ascii.eqb c "E"); cbn [orb]; try reflexivity;
    rewrite ?orb_true_r; discriminate.
Qed.

Lemma parseFraction_dot (ds rest : string) :
  ds <> "" -> allDigits ds = true ->
  match rest with String c _ => isDigit c = false | EmptyString => True end ->
  parseFraction ("." ++ ds ++ rest) = Some (ds, rest).
Proof.
  intros N A R. cbn [append parseFraction Ascii.eqb Bool.eqb].
  rewrite takeDigits_spec by assumption.
  destruct ds; [now elim N|reflexivity].
Qed.

Lemma parseExponent_e (e : Z) (rest : string) :
  endsNumber rest = true ->
  parseExponent ("e" ++ (if e <? 0 then "-" else "+") ++ digitsOfZ (Z.abs e) ++ rest)
  = Some (e, rest).
Proof.
  intro R.
  destruct (digitsOfZ_spec (Z.abs e) (Z.abs_nonneg e)) as (A & _ & _).
  pose proof (digitsToZ_digitsOfZ (Z.abs e) (Z.abs_nonneg e)) as V.
  assert (digitsOfZ (Z.abs e) <> "") as N.
  { unfold digitsOfZ. destruct (Z.to_nat _); cbn [digitsAux];
      [discriminate|]. destruct (_ <? 10); [discriminate|].
    rewrite digitsAux_acc. destruct (digitsAux _ _ ""); discriminate. }
  destruct (Z.ltb_spec e 0) as [L|G];
    cbn [append parseExponent Ascii.eqb Bool.eqb orb];
    rewrite takeDigits_spec by (try assumption; now apply endsNumber_nondigit);
    destruct (digitsOfZ (Z.abs e)) as [|c ds] eqn:E; try (now elim N);
    rewrite V; do 2 f_equal; lia.
Qed.

Lemma substring_split (s : string) (n : nat) :
  (n <= String.length s)%nat ->
  substring 0 n s ++ substring n (String.length s - n) s = s
  /\ String.length (substring 0 n s) = n.
Proof.
  revert n; induction s as [|c s IH]; intros n Hn.
  - cbn in Hn. assert (n = 0)%nat as -> by lia. now split.
  - destruct n as [|n].
    + cbn [substring String.length Nat.sub append]. split; [|reflexivity].
      f_equal. destruct (IH 0%nat ltac:(lia)) as [E _].
      cbn [substring append] in E.
      replace (substring 0 0 s) with "" in E by (now destruct s).
      now rewrite Nat.sub_0_r in E.
    + cbn [String.length] in Hn. destruct (IH n ltac:(lia)) as [E L].
      cbn [substring String.length Nat.sub append]. now rewrite E, L.
Qed.

Lemma decimalValue_valQ (negative : bool) (int frac : string) (exp : Z) :
  decimalValue negative int frac exp
  = Num (Q2Qc (valQ (if negative then - digitsToZ (int ++ frac)
                     else digitsToZ (int ++ frac))
                    (exp - Z.of_nat (String.length frac)))).
Proof. reflexivity. Qed.

Lemma parseMagnitude_steps (negative : bool) (c : ascii)
    (tail after frac s3 rest : string) (exp : Z) :
  allDigits (String c tail) = true ->
  Ascii.eqb c "0" && negb (String.eqb tail "") = false ->
  match after with String x _ => isDigit x = false | EmptyString => True end ->
  parseFraction after = Some (frac, s3) ->
  parseExponent s3 = Some (exp, rest) ->
  parseMagnitude negative (String c tail ++ after)
  = Some (decimalValue negative (String c tail) frac exp, rest).
Proof.
  intros A Z N F E. unfold parseMagnitude.
  rewrite takeDigits_spec by assumption. now rewrite Z, F, E.
Qed.

Lemma parseMagnitude_format (negative : bool) (digits rest : string) (n : Z)
    (c : ascii) (tail : string) :
  digits = String c tail -> Ascii.eqb c "0" = false ->
  allDigits digits = true -> endsNumber rest = true ->
  exists m e,
    parseMagnitude negative (formatDecimal digits n ++ rest)
    = Some (Num (Q2Qc (valQ (if negative then - m else m) e)), rest)
    /\ (valQ m e == valQ (digitsToZ digits) (n - Z.of_nat (String.length digits)))%Q.
Proof.
  intros Hd Hc Ad Hr.
  destruct (stripTrailingZeros_spec digits) as [j Hj].
  destruct (stripTrailingZeros_head c tail Hc) as [s' Hs]. rewrite <- Hd in Hs.
  set (s := stripTrailingZeros digits) in *.
  assert (allDigits s = true) as As.
  { rewrite Hj, allDigits_append in Ad. now apply andb_true_iff in Ad. }
  destruct (zeros_spec j) as (Az & Lz & _).
  assert (digitsToZ digits = digitsToZ s * 10 ^ Z.of_nat j) as Vd.
  { rewrite Hj at 1. rewrite digitsToZ_append, digitsToZ_zeros, Lz by assumption. lia. }
  assert (String.length digits = (String.length s + j)%nat) as Ld.
  { rewrite Hj at 1. now rewrite length_append, Lz. }
  set (k := Z.of_nat (String.length s)).
  assert (forall m e, (valQ m e == valQ (digitsToZ s) (n - k))%Q ->
          (valQ m e == valQ (digitsToZ digits)
                            (n - Z.of_nat (String.length digits)))%Q) as Hfin.
  { intros m e ->. rewrite Vd, Ld, Nat2Z.inj_add.
    replace (n - (Z.of_nat (String.length s) + Z.of_nat j)) with (n - k - Z.of_nat j)
      by (unfold k; lia).
    symmetry. apply valQ_scale. lia. }
  pose proof (endsNumber_nondigit rest Hr) as Hnd.
  unfold formatDecimal. fold s. cbv zeta. fold k.
  assert (0 < k) as Kpos by (unfold k; rewrite Hs; cbn [String.length]; lia).
  destruct ((k <=? n) && (n <=? 21)) eqn:BA.
  { (* digits followed by zeros *)
    apply andb_true_iff in BA. destruct BA as [B1 B2].
    apply Z.leb_le in B1, B2.
    set (a := Z.to_nat (n - k)).
    destruct (zeros_spec a) as (Aa & La & _).
    exists (digitsToZ s * 10 ^ Z.of_nat a), 0. split.
    - rewrite Hs. cbn [append].
      change (String c ((s' ++ zeros a) ++ rest))
        with (String c (s' ++ zeros a) ++ rest).
      rewrite (parseMagnitude_steps negative c (s' ++ zeros a) rest "" rest rest 0).
      + rewrite decimalValue_valQ, append_nil_r.
        change (String c (s' ++ zeros a)) with (String c s' ++ zeros a).
        rewrite <- Hs, digitsToZ_append, digitsToZ_zeros, La by assumption.
        cbn [String.length]. now rewrite Z.add_0_r, Z.sub_0_r.
      + change (String c (s' ++ zeros a)) with (String c s' ++ zeros a).
        rewrite <- Hs, allDigits_append, As. exact Aa.
      + now rewrite Hc.
      + exact Hnd.
      + now apply parseFraction_none.
      + now apply parseExponent_none.
    - apply Hfin.
      replace 0 with (n - k - Z.of_nat a) at 1 by (unfold a; lia).
      apply valQ_scale. lia. }
  destruct ((0 <? n) && (n <=? 21)) eqn:BB.
  { (* a decimal point inside the digits *)
    apply andb_true_iff in BB. destruct BB as [B1 B2].
    apply Z.ltb_lt in B1. apply Z.leb_le in B2.
    assert (n < k) as B3.
    { apply andb_false_iff in BA. destruct BA as [BA|BA];
        [apply Z.leb_gt in BA|apply Z.leb_gt in BA]; lia. }
    destruct (substring_split s (Z.to_nat n)) as [Es Ls]; [unfold k in B3; lia|].
    replace (Z.to_nat (k - n)) with (String.length s - Z.to_nat n)%nat
      by (unfold k; lia).
    set (s0 := substring 0 (Z.to_nat n) s) in *.
    set (s1 := substring (Z.to_nat n) (String.length s - Z.to_nat n) s) in *.
    assert (String.length s1 = (String.length s - Z.to_nat n)%nat) as L1.
    { pose proof (f_equal String.length Es) as L.
      rewrite length_append, Ls in L. lia. }
    assert (allDigits s0 = true /\ allDigits s1 = true) as [A0 A1].
    { rewrite <- Es, allDigits_append in As. now apply andb_true_iff in As. }
    assert (exists t0, s0 = String c t0) as [t0 H0].
    { destruct s0 as [|x t0]; [cbn in Ls; lia|].
      rewrite Hs in Es. cbn [append] in Es. injection Es as -> _. now exists t0. }
    exists (digitsToZ s), (n - k). split; [|now apply Hfin].
    rewrite append_assoc, H0.
    rewrite (parseMagnitude_steps negative c t0 _ s1 rest rest 0).
    - rewrite decimalValue_valQ, <- H0, Es, L1.
      replace (0 - Z.of_nat (String.length s - Z.to_nat n)) with (n - k)
        by (unfold k in *; lia).
      reflexivity.
    - now rewrite <- H0.
    - now rewrite Hc.
    - reflexivity.
    - rewrite append_assoc. apply parseFraction_dot; [|assumption..].
      intro E. rewrite E in L1. cbn in L1. unfold k in B3. lia.
    - now apply parseExponent_none. }
  destruct ((-6 <? n) && (n <=? 0)) eqn:BC.
  { (* zeros between the decimal point and the digits *)
    apply andb_true_iff in BC. destruct BC as [B1 B2].
    apply Z.ltb_lt in B1. apply Z.leb_le in B2.
    set (z := Z.to_nat (- n)).
    destruct (zeros_spec z) as (Azz & Lzz & _).
    exists (digitsToZ s), (n - k). split; [|now apply Hfin].
    change (("0." ++ zeros z ++ s) ++ rest)
      with (String "0" "" ++ ("." ++ ((zeros z ++ s) ++ rest))).
    rewrite (parseMagnitude_steps negative "0" "" _ (zeros z ++ s) rest rest 0).
    - rewrite decimalValue_valQ.
      change (String "0" "" ++ zeros z ++ s) with (zeros (S z) ++ s).
      rewrite digitsToZ_append, digitsToZ_zeros, length_append, Lzz
        by (try assumption; apply zeros_spec).
      replace (0 - Z.of_nat (z + String.length s)) with (n - k)
        by (unfold k, z; lia).
      now rewrite Z.mul_0_l, Z.add_0_l.
    - reflexivity.
    - reflexivity.
    - reflexivity.
    - apply parseFraction_dot.
      + rewrite Hs. destruct (zeros z); discriminate.
      + now rewrite allDigits_append, Azz.
      + exact Hnd.
    - now apply parseExponent_none. }
  (* exponent notation *)
  set (e := n - 1).
  set (expText := "e" ++ (if e <? 0 then "-" else "+") ++ digitsOfZ (Z.abs e)).
  assert (parseExponent (expText ++ rest) = Some (e, rest)) as Hexp.
  { unfold expText. rewrite !append_assoc. now apply parseExponent_e. }
  assert (exists x t, expText ++ rest = String x t /\ isDigit x = false
                      /\ Ascii.eqb x "." = false) as (x & t & Hx & Dx & Px).
  { unfold expText. cbn [append]. eauto. }
  exists (digitsToZ s), (n - k). split; [|now apply Hfin].
  destruct (Z.eqb_spec k 1) as [K1|K1].
  - rewrite append_assoc. fold expText. rewrite Hs.
    rewrite (parseMagnitude_steps negative c s' _ "" (expText ++ rest) rest e).
    + rewrite decimalValue_valQ, append_nil_r, <- Hs. cbn [String.length].
      replace (e - Z.of_nat 0) with (n - k) by (unfold e; lia). reflexivity.
    + now rewrite <- Hs.
    + now rewrite Hc.
    + now rewrite Hx.
    + rewrite Hx. cbn [parseFraction]. now rewrite Px.
    + exact Hexp.
  - assert (substring 0 1 s = String c "" /\
            substring 1 (Z.to_nat (k - 1)) s = s') as [E0 E1].
    { rewrite Hs. cbn [substring]. split; [now destruct s'|].
      replace (Z.to_nat (k - 1)) with (String.length s')
        by (unfold k; rewrite Hs; cbn [String.length]; lia).
      destruct (substring_split s' (String.length s') (Nat.le_refl _)) as [E _].
      rewrite Nat.sub_diag in E.
      replace (substring (String.length s') 0 s') with "" in E
        by (clear; induction s' as [|y s' IH]; cbn; [reflexivity|exact IH]).
      now rewrite append_nil_r in E. }
    rewrite E0, E1, !append_assoc. fold expText.
    assert (allDigits s' = true) as As'.
    { rewrite Hs in As. cbn [allDigits] in As. now apply andb_true_iff in As. }
    rewrite (parseMagnitude_steps negative c "" _ s' (expText ++ rest) rest e).
    + rewrite decimalValue_valQ.
      change (String c "" ++ s') with (String c s'). rewrite <- Hs.
      replace (e - Z.of_nat (String.length s')) with (n - k)
        by (unfold e, k; rewrite Hs; cbn [String.length]; lia).
      reflexivity.
    + rewrite Hs in As. cbn [allDigits] in As |- *.
      apply andb_true_iff in As. now rewrite (proj1 As).
    + cbn [String.eqb negb]. apply andb_false_r.
    + reflexivity.
    + apply parseFraction_dot; [|exact As'|now rewrite Hx].
      intros ->. unfold k in K1. rewrite Hs in K1. now cbn in K1.
    + exact Hexp.
Qed.

Lemma decimalExponent_Some (fuel e0 : nat) (den : Z) (e : nat) :
  decimalExponent fuel e0 den = Some e -> (10 ^ Z.of_nat e) mod den = 0.
Proof.
  revert e0; induction fuel as [|f IH]; intros e0; cbn [decimalExponent];
    destruct (Z.eqb_spec ((10 ^ Z.of_nat e0) mod den) 0) as [E|E];
    try (intro H; injection H as <-; exact E); try discriminate.
  apply IH.
Qed.

Lemma parseMagnitude_head (negative : bool) (s : string) (r : number * string) :
  parseMagnitude negative s = Some r ->
  exists x t, s = String x t /\ isDigit x = true.
Proof.
  unfold parseMagnitude. destruct s as [|x t]; [discriminate|].
  cbn [takeDigits]. destruct (isDigit x) eqn:D; [|discriminate].
  intros _. now exists x, t.
Qed.

Lemma Q2Qc_canon (x : Q) (q : Qc) : (x == this q)%Q -> Q2Qc x = q.
Proof. intro H. apply Qc_is_canon. cbn [this Q2Qc]. now rewrite Qred_correct. Qed.

Lemma parseMagnitude_positive (negative : bool) (p d : positive) (rest : string) :
  decimalExponent (Z.to_nat (Z.log2 (Zpos d))) 0 (Zpos d) <> None ->
  endsNumber rest = true ->
  exists x,
    parseMagnitude negative (positiveToString (Zpos p) (Zpos d) ++ rest)
    = Some (Num (Q2Qc x), rest)
    /\ (x == Qmake (if negative then Zneg p else Zpos p) d)%Q.
Proof.
  intros Hdec Hr. unfold positiveToString.
  destruct (decimalExponent _ 0 (Zpos d)) as [e|] eqn:E; [|now elim Hdec].
  apply decimalExponent_Some in E.
  set (c := 10 ^ Z.of_nat e / Zpos d).
  assert (10 ^ Z.of_nat e = Zpos d * c) as Hc.
  { unfold c. pose proof (Z.div_mod (10 ^ Z.of_nat e) (Zpos d)). lia. }
  assert (0 < c) as Cpos.
  { assert (0 < 10 ^ Z.of_nat e) by (apply Z.pow_pos_nonneg; lia). nia. }
  cbv zeta. fold c.
  set (m := Zpos p * c). assert (0 < m) as Mpos by (unfold m; nia).
  destruct (digitsOfZ_spec m ltac:(lia)) as (A & _ & F).
  destruct (F Mpos) as (x & t & Hx & Nx).
  destruct (parseMagnitude_format negative (digitsOfZ m) rest
              (Z.of_nat (String.length (digitsOfZ m)) - Z.of_nat e)
              x t Hx Nx A Hr) as (m' & e' & Hp & Hv).
  exists (valQ (if negative then - m' else m') e'). split; [exact Hp|].
  rewrite digitsToZ_digitsOfZ in Hv by lia.
  replace (Z.of_nat (String.length (digitsOfZ m)) - Z.of_nat e
           - Z.of_nat (String.length (digitsOfZ m))) with (- Z.of_nat e) in Hv by lia.
  pose proof (valQ_ratio (Zpos p) (Zpos d) c e ltac:(lia) Hc) as R.
  fold m in R. cbn [Z.to_pos] in R.
  destruct negative.
  - rewrite valQ_opp, Hv, R. reflexivity.
  - now rewrite Hv, R.
Qed.

Lemma parseNumber_numberToString (n : number) (rest : string) :
  isDecimal n = true -> endsNumber rest = true ->
  parseNumber (numberToString n ++ rest) = Some (n, rest).
Proof.
  destruct n as [|q]; [discriminate|]. intros Hd Hr.
  unfold isDecimal in Hd. unfold numberToString.
  destruct q as [[p d] Hcanon] eqn:Eq. cbn [this Qnum Qden] in *.
  assert (decimalExponent (Z.to_nat (Z.log2 (Zpos d))) 0 (Zpos d) <> None) as Hdec
    by (destruct (decimalExponent _ _ _); [discriminate|discriminate Hd]).
  destruct p as [|p|p].
  - cbn [append parseNumber Ascii.eqb Bool.eqb].
    change (String "0" rest) with (String "0" "" ++ rest).
    rewrite (parseMagnitude_steps false "0" "" rest "" rest rest 0);
      try reflexivity; try (now apply endsNumber_nondigit);
      try (now apply parseFraction_none); try (now apply parseExponent_none).
    rewrite decimalValue_valQ, <- Eq.
    rewrite (Q2Qc_canon _ q); [reflexivity|]. rewrite Eq. reflexivity.
  - destruct (parseMagnitude_positive false p d rest Hdec Hr) as (x & Hp & Hx).
    destruct (parseMagnitude_head _ _ _ Hp) as (y & t & Ht & Dy).
    unfold parseNumber. rewrite Ht in *.
    replace (Ascii.eqb y "-") with false
      by (destruct (Ascii.eqb_spec y "-") as [->|]; [discriminate Dy|reflexivity]).
    rewrite Hp, <- Eq. rewrite (Q2Qc_canon x q); [reflexivity|]. now rewrite Eq.
  - destruct (parseMagnitude_positive true p d rest Hdec Hr) as (x & Hp & Hx).
    cbn [append parseNumber Ascii.eqb Bool.eqb].
    rewrite Hp, <- Eq. rewrite (Q2Qc_canon x q); [reflexivity|]. now rewrite Eq.
Qed.

(** ** Numbers with a finite decimal expansion *)

Lemma decimalExponent_complete (fuel e0 : nat) (den : Z) (e : nat) :
  (e0 <= e <= e0 + fuel)%nat -> (10 ^ Z.of_nat e) mod den = 0 ->
  decimalExponent fuel e0 den <> None.
Proof.
  revert e0; induction fuel as [|f IH]; intros e0 He Hm; cbn [decimalExponent];
    destruct (Z.eqb_spec ((10 ^ Z.of_nat e0) mod den) 0) as [E|E];
    try discriminate.
  - assert (e = e0) by lia. subst. contradiction.
  - apply IH; [|exact Hm].
    assert (e <> e0) by (intros ->; contradiction). lia.
Qed.

Lemma coprime_to_10 (den : Z) :
  0 < den -> den mod 2 <> 0 -> den mod 5 <> 0 -> Z.gcd den 10 = 1.
Proof.
  intros Hd H2 H5.
  pose proof (Z.gcd_divide_l den 10) as Gl.
  pose proof (Z.gcd_divide_r den 10) as Gr.
  pose proof (Z.gcd_nonneg den 10) as G0.
  set (g := Z.gcd den 10) in *.
  assert (g <= 10) as G10 by (apply Z.divide_pos_le; [lia|exact Gr]).
  assert (g <> 0) as Gn by (intros E; rewrite E in Gr; destruct Gr as [k Hk]; lia).
  assert (10 mod g = 0) as M by (apply Z.mod_divide; assumption).
  assert (forall k, (k | g) -> (k | den)) as Hk
    by (intros k Hkg; now apply (Z.divide_trans k g den)).
  assert (g = 1 \/ g = 2 \/ g = 3 \/ g = 4 \/ g = 5 \/ g = 6 \/ g = 7
          \/ g = 8 \/ g = 9 \/ g = 10) as C by lia.
  destruct C as [E|[E|[E|[E|[E|[E|[E|[E|[E|E]]]]]]]]]; rewrite E in *;
    try exact eq_refl; try discriminate M; exfalso.
  - apply H2. apply Z.mod_divide; [lia|exact Gl].
  - apply H5. apply Z.mod_divide; [lia|exact Gl].
  - apply H2. apply Z.mod_divide; [lia|]. apply Hk. now exists 5.
Qed.

Lemma divides_pow10_bound (n : nat) :
  forall den : Z, 0 < den -> Z.to_nat den = n ->
  forall e : nat, (den | 10 ^ Z.of_nat e) ->
  exists e' : nat, Z.of_nat e' <= Z.log2 den /\ (den | 10 ^ Z.of_nat e').
Proof.
  induction n as [n IH] using lt_wf_ind. intros den Hd Hn e He.
  destruct (Z.eq_dec den 1) as [->|N1].
  { exists 0%nat. split; [reflexivity|]. now exists 1. }
  assert (forall g den', (g = 2 \/ g = 5) -> den = g * den' ->
          exists e' : nat, Z.of_nat e' <= Z.log2 den /\ (den | 10 ^ Z.of_nat e'))
    as Hstep.
  { intros g den' Hg Eden.
    assert (0 < den' < den) as Hd' by (destruct Hg; subst g; lia).
    destruct (IH (Z.to_nat den') ltac:(lia) den' ltac:(lia) eq_refl e)
      as (e' & Le & De).
    { apply (Z.divide_trans den' den); [|exact He]. exists g. lia. }
    exists (S e'). split.
    - assert (Z.log2 (2 * den') <= Z.log2 den) as Hl
        by (apply Z.log2_le_mono; destruct Hg; subst g; lia).
      rewrite Z.log2_double in Hl by lia. lia.
    - rewrite Nat2Z.inj_succ, Z.pow_succ_r by lia. rewrite Eden.
      destruct De as [k Hk]. rewrite Hk.
      destruct Hg; subst g; [exists (5 * k)|exists (2 * k)]; ring. }
  destruct (Z.eq_dec (den mod 2) 0) as [E2|E2].
  { apply (Hstep 2 (den / 2)); [now left|].
    pose proof (Z.div_mod den 2). lia. }
  destruct (Z.eq_dec (den mod 5) 0) as [E5|E5].
  { apply (Hstep 5 (den / 5)); [now right|].
    pose proof (Z.div_mod den 5). lia. }
  exfalso. apply N1.
  assert (den | 1) as D1.
  { pose proof (coprime_to_10 den Hd E2 E5) as G. clear - He G.
    induction e as [|e IHe]; [exact He|]. apply IHe.
    rewrite Nat2Z.inj_succ, Z.pow_succ_r in He by lia.
    now apply (Z.gauss den 10). }
  apply Z.divide_1_r_nonneg in D1; lia.
Qed.

(** A number is decimal exactly when it is an integer divided by a power
    of ten. *)
Lemma isDecimal_spec (q : Qc) :
  isDecimal (Num q) = true <->
  exists (m : Z) (e : nat), (this q == valQ m (- Z.of_nat e))%Q.
Proof.
  unfold isDecimal. destruct q as [[p d] Hc]. cbn [this Qnum Qden]. split.
  - destruct (decimalExponent _ 0 (Zpos d)) as [e|] eqn:E; [|discriminate].
    intros _. apply decimalExponent_Some in E.
    exists (p * (10 ^ Z.of_nat e / Zpos d)), e.
    symmetry.
    apply (valQ_ratio p (Zpos d) (10 ^ Z.of_nat e / Zpos d) e); [lia|].
    pose proof (Z.div_mod (10 ^ Z.of_nat e) (Zpos d)). lia.
  - intros (m & e & H).
    assert (Zpos d | 10 ^ Z.of_nat e) as Hdiv.
    { apply Qred_iff in Hc. cbn [Qnum Qden] in Hc.
      apply (Z.gauss (Zpos d) p).
      - assert (0 < 10 ^ Z.of_nat e) as Hp by (apply Z.pow_pos_nonneg; lia).
        unfold valQ, Qeq in H. cbn [Qnum Qden] in H.
        destruct (Z.leb_spec 0 (- Z.of_nat e)) as [A|A]; cbn [Qnum Qden inject_Z] in H.
        + assert (Z.of_nat e = 0) as E0 by lia. rewrite E0 in *.
          change (10 ^ (- 0)) with 1 in H. change (10 ^ 0) with 1.
          exists (m). lia.
        + rewrite Z.opp_involutive, Z2Pos.id in H by exact Hp.
          exists m. lia.
      - now rewrite Z.gcd_comm. }
    destruct (divides_pow10_bound _ (Zpos d) ltac:(lia) eq_refl e Hdiv)
      as (e' & Le & De).
    assert (decimalExponent (Z.to_nat (Z.log2 (Zpos d))) 0 (Zpos d) <> None) as Hn.
    { apply (decimalExponent_complete _ 0 (Zpos d) e'); [lia|].
      apply Z.mod_divide; [lia|exact De]. }
    destruct (decimalExponent _ 0 (Zpos d)); [reflexivity|now elim Hn].
Qed.

(** ** Reading back a printed string *)

Lemma parseChars_quoteChar (c : ascii) (text : string) :
  parseChars (quoteChar c ++ text) =
  match parseChars text with
  | Some (body, rest) => Some (String c body, rest)
  | None => None
  end.
Proof.
  destruct c as [[] [] [] [] [] [] [] []]; reflexivity.
Qed.

Lemma parseChars_quoteChars (s rest : string) :
  parseChars (quoteChars s ++ String dquote rest) = Some (s, rest).
Proof.
  induction s as [|c s IH]; [reflexivity|].
  cbn [quoteChars]. now rewrite append_assoc, parseChars_quoteChar, IH.
Qed.

(** ** Reading back a printed value *)

Lemma skipWhitespace_blank (w s : string) :
  blank w = true -> skipWhitespace (w ++ s) = skipWhitespace s.
Proof.
  induction w as [|c w IH]; [reflexivity|]. cbn [blank append skipWhitespace].
  intro H. apply andb_true_iff in H. destruct H as [-> H]. now apply IH.
Qed.

Lemma skipWhitespace_head (c : ascii) (t : string) :
  isWhitespace c = false -> skipWhitespace (String c t) = String c t.
Proof. intro H. cbn [skipWhitespace]. now rewrite H. Qed.

Lemma readable_string (gap indent s : string) : readable 1 gap indent (JString s).
Proof.
  intros fuel w rest Hf Hw _. destruct fuel as [|f]; [lia|].
  cbn [parseValue serialize]. rewrite skipWhitespace_blank by exact Hw.
  unfold quoteJSONString. cbn [append].
  rewrite skipWhitespace_head by reflexivity.
  rewrite append_assoc. cbn [append str1].
  change (Ascii.eqb dquote "[") with false.
  change (Ascii.eqb dquote "{") with false.
  change (Ascii.eqb dquote dquote) with true. cbv iota.
  now rewrite parseChars_quoteChars.
Qed.

Lemma numberStart_cases (x : ascii) :
  isDigit x = true \/ x = "-"%char ->
  isWhitespace x = false /\ Ascii.eqb x "[" = false /\ Ascii.eqb x "{" = false
  /\ Ascii.eqb x dquote = false /\ Ascii.eqb x "t" = false
  /\ Ascii.eqb x "f" = false /\ Ascii.eqb x "n" = false.
Proof.
  destruct x as [[] [] [] [] [] [] [] []];
    intros [H|H]; try discriminate H; repeat split; reflexivity.
Qed.

Lemma parseNumber_head (s : string) (r : number * string) :
  parseNumber s = Some r ->
  exists x t, s = String x t /\ (isDigit x = true \/ x = "-"%char).
Proof.
  destruct s as [|x t]; [discriminate|]. cbn [parseNumber].
  destruct (Ascii.eqb_spec x "-") as [->|N].
  - intros _. exists "-"%char, t. split; [reflexivity|now right].
  - intro H. apply parseMagnitude_head in H.
    destruct H as (y & t' & E & D). injection E as -> ->.
    exists y, t'. split; [reflexivity|now left].
Qed.

Lemma readable_number (gap indent : string) (n : number) :
  isDecimal n = true -> readable 1 gap indent (JNumber n).
Proof.
  intros Hn fuel w rest Hf Hw Hr. destruct fuel as [|f]; [lia|].
  cbn [parseValue serialize]. rewrite skipWhitespace_blank by exact Hw.
  replace (isNumber n) with true by (now destruct n).
  pose proof (parseNumber_numberToString n rest Hn Hr) as P.
  destruct (parseNumber_head _ _ P) as (x & t & E & Hx).
  destruct (numberStart_cases x Hx) as (W & B1 & B2 & B3 & B4 & B5 & B6).
  rewrite E in *. rewrite skipWhitespace_head by exact W.
  now rewrite B1, B2, B3, B4, B5, B6, P.
Qed.

Lemma serialize_object (gap indent : string) (props : list (string * json)) :
  String.eqb gap "" = false -> props <> [] ->
  serialize gap indent (JObject props)
  = "{" ++ newline ++ (indent ++ gap)
      ++ joinWith ("," ++ newline ++ (indent ++ gap))
           (map (memberText gap (indent ++ gap)) props)
      ++ newline ++ indent ++ "}".
Proof.
  intros G N. destruct props as [|kv props]; [now elim N|].
  cbn [serialize]. rewrite G. reflexivity.
Qed.

Lemma serialize_array (gap indent : string) (elements : list json) :
  String.eqb gap "" = false -> elements <> [] ->
  serialize gap indent (JArray elements)
  = "[" ++ newline ++ (indent ++ gap)
      ++ joinWith ("," ++ newline ++ (indent ++ gap))
           (map (serialize gap (indent ++ gap)) elements)
      ++ newline ++ indent ++ "]".
Proof.
  intros G N. destruct elements as [|v elements]; [now elim N|].
  cbn [serialize]. rewrite G. reflexivity.
Qed.

Lemma blank_append (a b : string) : blank (a ++ b) = blank a && blank b.
Proof.
  induction a as [|c a IH]; cbn [append blank]; [reflexivity|].
  now rewrite IH, andb_assoc.
Qed.

Lemma parseValue_head (fuel : nat) (s : string) (r : json * string) :
  parseValue fuel s = Some r ->
  exists c t, skipWhitespace s = String c t
              /\ Ascii.eqb c "]" = false /\ Ascii.eqb c "}" = false.
Proof.
  destruct fuel as [|f]; [discriminate|]. cbn [parseValue].
  destruct (skipWhitespace s) as [|c t]; [discriminate|].
  intro H. exists c, t. split; [reflexivity|].
  destruct (Ascii.eqb_spec c "]") as [->|_];
    [cbn in H; discriminate|].
  destruct (Ascii.eqb_spec c "}") as [->|_];
    [cbn in H; discriminate|]. now split.
Qed.

Lemma parseMembers_joined (gap ind2 indent : string) (need : nat)
    (props : list (string * json)) :
  blank ind2 = true -> blank indent = true -> props <> [] ->
  Forall (fun kv => readable need gap ind2 (snd kv)) props ->
  forall fuel w rest,
    (need + List.length props <= fuel)%nat -> blank w = true ->
    parseMembers fuel
      (w ++ joinWith ("," ++ newline ++ ind2) (map (memberText gap ind2) props)
         ++ newline ++ indent ++ "}" ++ rest)
    = Some (props, rest).
Proof.
  intros B2 Bi N HR. induction HR as [|[k v] props Hv HR IH]; [now elim N|].
  intros fuel w rest Hf Hw. cbn [List.length] in Hf.
  destruct fuel as [|f]; [lia|]. cbn [snd] in Hv. unfold readable in Hv.
  assert (forall tail, endsNumber tail = true ->
            parseMembers (S f) (w ++ memberText gap ind2 (k, v) ++ tail)
            = match skipWhitespace tail with
              | String c rest4 =>
                  if Ascii.eqb c "," then
                    match parseMembers f rest4 with
                    | Some (ms, rest5) => Some ((k, v) :: ms, rest5)
                    | None => None
                    end
                  else if Ascii.eqb c "}" then Some ([(k, v)], rest4)
                  else None
              | EmptyString => None
              end) as Hstep.
  { intros tail Ht. cbn [parseMembers].
    rewrite skipWhitespace_blank by exact Hw.
    unfold memberText, quoteJSONString. cbn [fst snd append].
    rewrite skipWhitespace_head by reflexivity.
    change (Ascii.eqb dquote dquote) with true. cbv iota.
    rewrite !append_assoc. cbn [append str1].
    rewrite parseChars_quoteChars.
    rewrite skipWhitespace_head by reflexivity.
    cbn [Ascii.eqb Bool.eqb]. cbv iota.
    change (String " " (serialize gap ind2 v ++ tail))
      with (" " ++ serialize gap ind2 v ++ tail).
    rewrite (Hv f " " tail); [reflexivity|lia|reflexivity|exact Ht]. }
  destruct props as [|kv' props'].
  - cbn [map joinWith]. rewrite ?append_assoc, Hstep by reflexivity.
    cbn [append newline str1]. cbn [skipWhitespace isWhitespace].
    change (isWhitespace (ascii_of_nat 10)) with true. cbv iota.
    rewrite skipWhitespace_blank by exact Bi.
    now rewrite skipWhitespace_head by reflexivity.
  - cbn [map joinWith]. cbn [map joinWith] in IH.
    rewrite !append_assoc, Hstep by reflexivity.
    cbn [append]. rewrite skipWhitespace_head by reflexivity.
    cbn [Ascii.eqb Bool.eqb]. cbv iota.
    change (String (ascii_of_nat 10) ?x) with (newline ++ x).
    specialize (IH ltac:(discriminate) f (newline ++ ind2) rest).
    rewrite !append_assoc in IH. cbn [append newline str1] in IH |- *.
    rewrite IH; [reflexivity|cbn [List.length] in *; lia|].
    cbn [blank]. now rewrite B2.
Qed.

Lemma readable_object (gap indent : string) (need : nat)
    (props : list (string * json)) :
  String.eqb gap "" = false -> blank gap = true -> blank indent = true ->
  props <> [] -> normalKeys props ->
  Forall (fun kv => readable need gap (indent ++ gap) (snd kv)) props ->
  readable (S (need + List.length props)) gap indent (JObject props).
Proof.
  intros G Bg Bi N K HR fuel w rest Hf Hw _.
  destruct fuel as [|f]; [lia|].
  rewrite serialize_object by assumption.
  assert (blank (indent ++ gap) = true) as B2 by (now rewrite blank_append, Bi, Bg).
  assert (blank (newline ++ (indent ++ gap)) = true) as B3
    by (cbn [newline str1 append blank]; exact B2).
  pose proof (parseMembers_joined gap (indent ++ gap) indent need props
                B2 Bi N HR f (newline ++ (indent ++ gap)) rest ltac:(lia) B3) as P.
  remember ((newline ++ (indent ++ gap))
            ++ joinWith ("," ++ newline ++ (indent ++ gap))
                 (map (memberText gap (indent ++ gap)) props)
            ++ newline ++ indent ++ "}" ++ rest) as body eqn:Eb.
  assert (exists t, skipWhitespace body = String dquote t) as [t Ht].
  { rewrite Eb, skipWhitespace_blank by exact B3.
    destruct props as [|[k v] [|kv' props']]; [now elim N| |];
      cbn [map joinWith memberText quoteJSONString fst append];
      rewrite skipWhitespace_head by reflexivity; eauto. }
  replace (("{" ++ newline ++ (indent ++ gap)
              ++ joinWith ("," ++ newline ++ (indent ++ gap))
                   (map (memberText gap (indent ++ gap)) props)
              ++ newline ++ indent ++ "}") ++ rest)
    with (String "{" body)
    by (rewrite Eb, !append_assoc; reflexivity).
  cbn [parseValue]. rewrite skipWhitespace_blank by exact Hw.
  rewrite skipWhitespace_head by reflexivity.
  cbn [Ascii.eqb Bool.eqb]. cbv iota.
  rewrite Ht. change (Ascii.eqb dquote "}") with false. cbv iota.
  now rewrite P, K.
Qed.

Lemma joinWith_cons2 (sep x y : string) (l : list string) :
  joinWith sep (x :: y :: l) = x ++ sep ++ joinWith sep (y :: l).
Proof. reflexivity. Qed.

Lemma parseElements_joined (gap ind2 indent : string) (need : nat)
    (elements : list json) :
  blank ind2 = true -> blank indent = true -> elements <> [] ->
  Forall (readable need gap ind2) elements ->
  forall fuel w rest,
    (S need + List.length elements <= fuel)%nat -> blank w = true ->
    parseElements fuel
      (w ++ joinWith ("," ++ newline ++ ind2) (map (serialize gap ind2) elements)
         ++ newline ++ indent ++ "]" ++ rest)
    = Some (elements, rest).
Proof.
  intros B2 Bi N HR. induction HR as [|v elements Hv HR IH]; [now elim N|].
  intros fuel w rest Hf Hw. cbn [List.length] in Hf.
  destruct fuel as [|f]; [lia|]. unfold readable in Hv.
  assert (forall tail, endsNumber tail = true ->
            parseElements (S f) (w ++ serialize gap ind2 v ++ tail)
            = match skipWhitespace tail with
              | String c rest' =>
                  if Ascii.eqb c "," then
                    match parseElements f rest' with
                    | Some (vs, rest'') => Some (v :: vs, rest'')
                    | None => None
                    end
                  else if Ascii.eqb c "]" then Some ([v], rest')
                  else None
              | EmptyString => None
              end) as Hstep.
  { intros tail Ht. cbn [parseElements].
    rewrite (Hv f w tail); [reflexivity|lia|exact Hw|exact Ht]. }
  destruct elements as [|v' elements'].
  - cbn [map joinWith]. rewrite ?append_assoc, Hstep by reflexivity.
    rewrite (skipWhitespace_blank newline), (skipWhitespace_blank indent)
      by (try assumption; reflexivity).
    cbn [append]. now rewrite skipWhitespace_head by reflexivity.
  - specialize (IH ltac:(discriminate) f (newline ++ ind2) rest).
    cbn [map] in IH |- *. rewrite joinWith_cons2.
    remember (joinWith ("," ++ newline ++ ind2)
                (serialize gap ind2 v' :: map (serialize gap ind2) elements')) as J.
    rewrite !append_assoc in IH. rewrite !append_assoc, Hstep by reflexivity.
    cbn [append] in IH |- *. rewrite skipWhitespace_head by reflexivity.
    cbn [Ascii.eqb Bool.eqb]. cbv iota.
    rewrite IH; [reflexivity|cbn [List.length] in *; lia|].
    cbn [newline str1 append blank]. exact B2.
Qed.

Lemma readable_array (gap indent : string) (need : nat) (elements : list json) :
  String.eqb gap "" = false -> blank gap = true -> blank indent = true ->
  elements <> [] ->
  Forall (readable need gap (indent ++ gap)) elements ->
  readable (S (S need + List.length elements)) gap indent (JArray elements).
Proof.
  intros G Bg Bi N HR fuel w rest Hf Hw _.
  destruct fuel as [|f]; [lia|].
  rewrite serialize_array by assumption.
  assert (blank (indent ++ gap) = true) as B2 by (now rewrite blank_append, Bi, Bg).
  assert (blank (newline ++ (indent ++ gap)) = true) as B3
    by (cbn [newline str1 append blank]; exact B2).
  pose proof (parseElements_joined gap (indent ++ gap) indent need elements
                B2 Bi N HR f (newline ++ (indent ++ gap)) rest ltac:(lia) B3) as P.
  remember ((newline ++ (indent ++ gap))
            ++ joinWith ("," ++ newline ++ (indent ++ gap))
                 (map (serialize gap (indent ++ gap)) elements)
            ++ newline ++ indent ++ "]" ++ rest) as body eqn:Eb.
  assert (exists c t, skipWhitespace body = String c t
                      /\ Ascii.eqb c "]" = false) as (c & t & Ht & Hc).
  { destruct elements as [|v elements']; [now elim N|].
    destruct f as [|f']; [cbn [List.length] in Hf; lia|].
    cbn [parseElements] in P.
    destruct (parseValue f' body) as [r|] eqn:E; [|discriminate].
    destruct (parseValue_head _ _ _ E) as (c & t & H1 & H2 & _). eauto. }
  replace (("[" ++ newline ++ (indent ++ gap)
              ++ joinWith ("," ++ newline ++ (indent ++ gap))
                   (map (serialize gap (indent ++ gap)) elements)
              ++ newline ++ indent ++ "]") ++ rest)
    with (String "[" body)
    by (rewrite Eb, !append_assoc; reflexivity).
  cbn [parseValue]. rewrite skipWhitespace_blank by exact Hw.
  rewrite skipWhitespace_head by reflexivity.
  cbn [Ascii.eqb Bool.eqb]. cbv iota.
  now rewrite Ht, Hc, P.
Qed.

Lemma readable_toJson (indent : string) (t : Transaction.t) :
  blank indent = true -> isDecimal (Transaction.valor t) = true ->
  readable 7 "  " indent (toJson t).
Proof.
  intros Bi Hv. unfold toJson.
  match goal with
  | |- readable _ _ _ (JObject ?props) =>
      change (readable (S (1 + List.length props)) "  " indent (JObject props));
      apply (readable_object "  " indent 1 props)
  end; try reflexivity; try assumption; try discriminate.
  repeat constructor; cbn [snd];
    try apply readable_string; now apply readable_number.
Qed.

Lemma length_joinWith (sep : string) (parts : list string) :
  Forall (fun p => (1 <= String.length p)%nat) parts ->
  (List.length parts <= String.length (joinWith sep parts))%nat.
Proof.
  induction 1 as [|p parts Hp _ IH]; [cbn; lia|].
  destruct parts as [|p' parts']; [cbn [joinWith List.length]; lia|].
  rewrite joinWith_cons2, !length_append. cbn [List.length] in *. lia.
Qed.

Lemma JSON_parse_pretty_store (transactions : list Transaction.t) :
  validStore transactions = true ->
  JSON_parse (JSON_stringify_pretty (JArray (map toJson transactions)))
  = Some (JArray (map toJson transactions)).
Proof.
  intro Hv. destruct transactions as [|t0 ts0] eqn:Et; [reflexivity|].
  rewrite <- Et in *. set (elements := map toJson transactions).
  assert (elements <> []) as N by (unfold elements; rewrite Et; discriminate).
  assert (Forall (readable 7 "  " ("" ++ "  ")) elements) as HR.
  { unfold elements. apply Forall_forall. intros v Hin.
    apply in_map_iff in Hin. destruct Hin as (t & <- & Hin).
    apply readable_toJson; [reflexivity|].
    unfold validStore in Hv. rewrite forallb_forall in Hv. now apply Hv. }
  pose proof (readable_array "  " "" 7 elements eq_refl eq_refl eq_refl N HR) as R.
  unfold JSON_parse, JSON_stringify_pretty.
  set (text := serialize "  " "" (JArray elements)).
  specialize (R (2 * String.length text + 1)%nat "" "").
  cbn [append] in R. fold text in R. rewrite append_nil_r in R.
  rewrite R; [reflexivity| |reflexivity|reflexivity].
  unfold text. rewrite serialize_array by (try reflexivity; exact N).
  rewrite !length_append.
  pose proof (length_joinWith ("," ++ newline ++ ("" ++ "  "))
                (map (serialize "  " ("" ++ "  ")) elements)) as L.
  rewrite length_map in L.
  assert (Forall (fun p => (1 <= String.length p)%nat)
            (map (serialize "  " ("" ++ "  ")) elements)) as Hp.
  { apply Forall_forall. intros p Hin. apply in_map_iff in Hin.
    destruct Hin as (v & <- & Hin). unfold elements in Hin.
    apply in_map_iff in Hin. destruct Hin as (t & <- & _).
    cbn [toJson serialize String.eqb Ascii.eqb Bool.eqb append String.length map].
    lia. }
  specialize (L Hp). cbn [String.length newline str1]. lia.
Qed.

(** ** Export followed by import *)

(** C7. For a store of transaction records whose amounts are decimal
    numbers, importing the text shown by the export puts back the store
    that was exported, whatever the store held before the import: the
    records are the same, in the same order, and each reads back with the
    field values it had. *)
Theorem backup_round_trip (transactions : list Transaction.t)
    (st prior : App.State) :
  validStore transactions = true ->
  App.allTransactions st = map toJson transactions ->
  let exported := App.ioModalTextarea (handleExport st) in
  let st' := importOnLoad exported prior in
  App.allTransactions st' = App.allTransactions st
  /\ map asTransaction (App.allTransactions st') = map Some transactions
  /\ App.alertModal st' = Some ImportacaoConcluida.
Proof.
  intros Hv Hst. cbv zeta. unfold handleExport, importOnLoad.
  cbn [App.ioModalTextarea]. rewrite Hst, JSON_parse_pretty_store by exact Hv.
  cbn [App.allTransactions App.alertModal saveTransactions setTransactions showAlert].
  repeat split. rewrite map_map. apply map_ext. apply asTransaction_toJson.
Qed.

Lemma backup_round_trip_witness :
  App.allTransactions
    (importOnLoad (App.ioModalTextarea (handleExport sampleState))
       (App.mkState [] None "" None))
  = App.allTransactions sampleState.
Proof.
  apply (backup_round_trip sampleStore sampleState (App.mkState [] None "" None));
    reflexivity.
Defined.

(** ** The scenarios of the specification *)

Example scenario_january :
  JsNum.eqb (calculateClientBalance scenarioStore "c1") (#1000)%js = true
  /\ statsEqb (calculateDashboardStats 0 scenarioRoster scenarioStore
                 (Some "2024-01-01") (Some "2024-01-31")) 1 1000 100 10 = true.
Proof. split; reflexivity. Qed.

Example scenario_february :
  statsEqb (calculateDashboardStats 0 scenarioRoster scenarioStore
              (Some "2024-02-01") (Some "2024-02-28")) 1 0 0 10 = true.
Proof. reflexivity. Qed.

(** * Further properties of the calculation layer *)

(** ** Net balance of the dashboard *)

Lemma dashboardStep_saldo (allClients : list Client.t) (acc : number * number)
    (t : Transaction.t) :
  fst (dashboardStep allClients acc t) = balanceStep (fst acc) t.
Proof.
  destruct acc as [s c]. unfold dashboardStep, balanceStep. cbn [fst].
  destruct (String.eqb (Transaction.tipo t) "entrada").
  - destruct (findClient allClients (Transaction.clienteId t)) as [cl|];
      [|reflexivity].
    destruct (Client.comissaoPct cl) as [p|]; [|reflexivity].
    now destruct (JsNum.truthy p).
  - now destruct (String.eqb (Transaction.tipo t) "saida").
Qed.

Lemma dashboard_fold_saldo (allClients : list Client.t) (l : list Transaction.t)
    (acc : number * number) :
  fst (fold_left (dashboardStep allClients) l acc) = fold_left balanceStep l (fst acc).
Proof.
  revert acc. induction l as [|t l IH]; intro acc; [reflexivity|].
  cbn [fold_left]. now rewrite IH, dashboardStep_saldo.
Qed.

Lemma saldoTotal_fold (LocalTZA : Z) (allClients : list Client.t)
    (allTransactions : list Transaction.t) (startDate endDate : option string) :
  saldoTotal (calculateDashboardStats LocalTZA allClients allTransactions startDate endDate)
  = fold_left balanceStep
      (filteredTransactions LocalTZA allTransactions startDate endDate) (#0)%js.
Proof.
  destruct (stats_projections LocalTZA allClients allTransactions startDate endDate)
    as (_ & -> & _).
  now rewrite dashboard_fold_saldo.
Qed.

(** X1. The net balance of the dashboard does not depend on the roster.
    For a store of whole amounts whose magnitudes add up to at most [2^53]
    (no addition rounds) and whose transactions carry calendar dates, it is
    the sum of the entradas dated within the period minus the sum of the
    saidas dated within it, over the transactions of all client ids. *)
Theorem saldoTotal_spec (LocalTZA : Z) (allClients : list Client.t)
    (allTransactions : list Transaction.t) (startDate endDate : option string)
    (start end_ : option CalendarDate) :
  (forall otherClients,
      saldoTotal
        (calculateDashboardStats LocalTZA otherClients allTransactions startDate endDate)
      = saldoTotal
          (calculateDashboardStats LocalTZA allClients allTransactions startDate endDate))
  /\ (wholeAmounts allTransactions = true ->
      storeDated allTransactions = true ->
      readBound startDate = Some start ->
      readBound endDate = Some end_ ->
      saldoTotal
        (calculateDashboardStats LocalTZA allClients allTransactions startDate endDate)
      = (sumOf (map Transaction.valor
                  (ofTipoWithin "entrada" start end_ allTransactions))
         - sumOf (map Transaction.valor
                    (ofTipoWithin "saida" start end_ allTransactions)))%js).
Proof.
  split.
  - intro otherClients. now rewrite !saldoTotal_fold.
  - intros _ Hd Hs He.
    rewrite saldoTotal_fold, balance_fold, jsadd_0_l.
    now rewrite !(filteredTransactions_ofTipoWithin LocalTZA _ allTransactions
                    startDate endDate start end_ Hd Hs He).
Qed.

Lemma saldoTotal_spec_witness :
  saldoTotal
    (calculateDashboardStats 0 sampleRoster sampleStore
       (Some "2024-01-01") (Some "2024-01-31"))
  = (sumOf (map Transaction.valor
              (ofTipoWithin "entrada" (Some (mkDate 2024 1 1))
                 (Some (mkDate 2024 1 31)) sampleStore))
     - sumOf (map Transaction.valor
                (ofTipoWithin "saida" (Some (mkDate 2024 1 1))
                   (Some (mkDate 2024 1 31)) sampleStore)))%js.
Proof.
  refine (proj2 (saldoTotal_spec 0 sampleRoster sampleStore
                   (Some "2024-01-01") (Some "2024-01-31")
                   (Some (mkDate 2024 1 1)) (Some (mkDate 2024 1 31)))
            _ _ _ _);
    vm_compute; reflexivity.
Defined.

(** ** The dashboard against the cards *)

Lemma calculateClientBalance_snoc (l : list Transaction.t) (t : Transaction.t)
    (clientId : string) :
  calculateClientBalance (l ++ [t])%list clientId =
  if String.eqb (Transaction.clienteId t) clientId
  then balanceStep (calculateClientBalance l clientId) t
  else calculateClientBalance l clientId.
Proof.
  unfold calculateClientBalance, getTransactionsForClient.
  rewrite filter_app. cbn [filter].
  destruct (String.eqb (Transaction.clienteId t) clientId).
  - now rewrite fold_left_app.
  - now rewrite app_nil_r.
Qed.

Lemma balanceStep_add_l (a b : number) (t : Transaction.t) :
  balanceStep (a + b)%js t = (balanceStep a t + b)%js.
Proof.
  unfold balanceStep. generalize (Transaction.valor t). intro v.
  destruct (String.eqb (Transaction.tipo t) "entrada"); [js_arith|].
  destruct (String.eqb (Transaction.tipo t) "saida"); [js_arith|reflexivity].
Qed.

Lemma balanceStep_add_r (a b : number) (t : Transaction.t) :
  balanceStep (a + b)%js t = (a + balanceStep b t)%js.
Proof.
  unfold balanceStep. generalize (Transaction.valor t). intro v.
  destruct (String.eqb (Transaction.tipo t) "entrada"); [js_arith|].
  destruct (String.eqb (Transaction.tipo t) "saida"); [js_arith|reflexivity].
Qed.

Lemma sumOf_zeros {A : Type} (l : list A) : sumOf (map (fun _ => (#0)%js) l) = (#0)%js.
Proof.
  induction l as [|x l IH]; [reflexivity|].
  cbn [map]. now rewrite sumOf_cons, IH, jsadd_0_l.
Qed.

(** Applying [bump] to the term of the one client whose id is [k] applies
    it to the sum. *)
Lemma sumOf_bump (f : Client.t -> number) (bump : number -> number) (k : string)
    (allClients : list Client.t) :
  (forall a b, bump (a + b)%js = (bump a + b)%js) ->
  (forall a b, bump (a + b)%js = (a + bump b)%js) ->
  NoDup (map Client.id allClients) ->
  In k (map Client.id allClients) ->
  sumOf (map (fun c => if String.eqb k (Client.id c) then bump (f c) else f c)
           allClients)
  = bump (sumOf (map f allClients)).
Proof.
  intros H1 H2. induction allClients as [|c cl IH]; intros Hnd Hin; [destruct Hin|].
  cbn [map] in *. inversion Hnd as [|? ? Hc Hcl]; subst.
  rewrite !sumOf_cons. destruct (String.eqb_spec k (Client.id c)) as [->|Hk].
  - rewrite H1. f_equal. f_equal. apply map_ext_in. intros c' Hc'.
    destruct (String.eqb_spec (Client.id c) (Client.id c')) as [E|_]; [|reflexivity].
    exfalso. apply Hc. rewrite E. now apply in_map.
  - rewrite H2. f_equal. apply IH; [exact Hcl|].
    destruct Hin as [E|Hin]; [now elim Hk|exact Hin].
Qed.

Lemma isOrphan_false (allClients : list Client.t) (t : Transaction.t) :
  isOrphan allClients t = false <->
  In (Transaction.clienteId t) (map Client.id allClients).
Proof.
  unfold isOrphan. rewrite negb_false_iff, existsb_exists, in_map_iff.
  split; intros (c & H1 & H2); exists c.
  - apply String.eqb_eq in H2. now split.
  - split; [exact H2|]. now apply String.eqb_eq.
Qed.

Lemma isOrphan_true (allClients : list Client.t) (t : Transaction.t) (c : Client.t) :
  isOrphan allClients t = true -> In c allClients ->
  String.eqb (Transaction.clienteId t) (Client.id c) = false.
Proof.
  intros Ho Hc. apply not_true_is_false. intro E.
  apply String.eqb_eq in E.
  assert (isOrphan allClients t = false) as F.
  { apply isOrphan_false. rewrite E. now apply in_map. }
  congruence.
Qed.

Lemma cards_of_all_clients (allClients : list Client.t)
    (allTransactions : list Transaction.t) :
  map saldo (refreshSearchResults allClients allTransactions "" "todos")
  = map (fun c => calculateClientBalance allTransactions (Client.id c)) allClients.
Proof.
  unfold refreshSearchResults, applyTextFilter, applyBalanceFilter.
  cbn [String.length Nat.ltb Nat.leb String.eqb Ascii.eqb Bool.eqb negb].
  now rewrite map_map.
Qed.

Lemma net_balance_by_client (allClients : list Client.t) (l : list Transaction.t) :
  NoDup (map Client.id allClients) ->
  fold_left balanceStep l (#0)%js
  = (sumOf (map (fun c => calculateClientBalance l (Client.id c)) allClients)
     + fold_left balanceStep (filter (isOrphan allClients) l) (#0)%js)%js.
Proof.
  intro Hnd. induction l as [|t l IH] using rev_ind.
  - cbn [filter fold_left]. unfold calculateClientBalance. cbn [getTransactionsForClient filter fold_left].
    now rewrite sumOf_zeros, jsadd_0_l.
  - rewrite fold_left_app. cbn [fold_left]. rewrite IH.
    rewrite filter_app. cbn [filter].
    destruct (isOrphan allClients t) eqn:Ho.
    + rewrite fold_left_app. cbn [fold_left]. rewrite balanceStep_add_r.
      f_equal. f_equal. apply map_ext_in. intros c Hc.
      now rewrite calculateClientBalance_snoc, (isOrphan_true _ _ _ Ho Hc).
    + rewrite app_nil_r, balanceStep_add_l. f_equal.
      rewrite <- (sumOf_bump _ (fun x => balanceStep x t) (Transaction.clienteId t));
        [|intros; apply balanceStep_add_l|intros; apply balanceStep_add_r
         |exact Hnd|now apply isOrphan_false].
      f_equal. apply map_ext. intro c. now rewrite calculateClientBalance_snoc.
Qed.

(** X2. When the ids of the roster are distinct and the amounts of the
    store are whole, their magnitudes adding up to at most [2^53] (no
    addition rounds), the net balance of the dashboard over all dates is
    the sum of the balances shown on the cards of all clients plus the net
    amount of the orphan transactions, those whose [clienteId] is the id of
    no client; without orphans the two totals agree. *)
Theorem saldoTotal_sum_of_cards (LocalTZA : Z) (allClients : list Client.t)
    (allTransactions : list Transaction.t) :
  NoDup (map Client.id allClients) ->
  wholeAmounts allTransactions = true ->
  let cards := refreshSearchResults allClients allTransactions "" "todos" in
  let orphans := filter (isOrphan allClients) allTransactions in
  saldoTotal (calculateDashboardStats LocalTZA allClients allTransactions None None)
  = (sumOf (map saldo cards)
     + saldoTotal (calculateDashboardStats LocalTZA allClients orphans None None))%js
  /\ (orphans = [] ->
      saldoTotal (calculateDashboardStats LocalTZA allClients allTransactions None None)
      = sumOf (map saldo cards)).
Proof.
  intros Hnd _ cards orphans. unfold cards.
  rewrite cards_of_all_clients, !saldoTotal_fold, !filteredTransactions_unbounded.
  pose proof (net_balance_by_client allClients allTransactions Hnd) as H.
  fold orphans in H. split; [exact H|].
  intro E. rewrite H, E. cbn [fold_left]. apply jsadd_0_r.
Qed.

Lemma saldoTotal_sum_of_cards_witness :
  saldoTotal (calculateDashboardStats 0 sampleRoster (firstn 4 sampleStore) None None)
  = sumOf (map saldo (refreshSearchResults sampleRoster (firstn 4 sampleStore) "" "todos")).
Proof.
  apply (saldoTotal_sum_of_cards 0 sampleRoster (firstn 4 sampleStore)).
  - repeat constructor; simpl; intuition discriminate.
  - reflexivity.
  - reflexivity.
Defined.

(** ** An empty roster *)

Lemma dashboard_fold_no_client (l : list Transaction.t) (acc : number * number) :
  snd (fold_left (dashboardStep []) l acc) = snd acc.
Proof.
  revert acc. induction l as [|t l IH]; intro acc; [reflexivity|].
  cbn [fold_left]. rewrite IH. destruct acc as [s c].
  unfold dashboardStep. cbn [findClient find].
  destruct (String.eqb (Transaction.tipo t) "entrada"); [reflexivity|].
  now destruct (String.eqb (Transaction.tipo t) "saida").
Qed.

(** X3. With an empty roster, which is what a failed load of
    [clientes.json] leaves, the dashboard counts no client, its average
    percentage and its commission are 0 whatever the store and the period
    (the division by the number of clients is not carried out), and the
    search gives no card whatever the query and the balance filter. *)
Theorem empty_roster (LocalTZA : Z) (allTransactions : list Transaction.t)
    (startDate endDate : option string) (query balanceFilter : string) :
  let stats := calculateDashboardStats LocalTZA [] allTransactions startDate endDate in
  totalClientes stats = (#0)%js
  /\ comissaoMediaPct stats = (#0)%js
  /\ comissaoTotalValor stats = (#0)%js
  /\ refreshSearchResults [] allTransactions query balanceFilter = [].
Proof.
  cbv zeta.
  destruct (stats_projections LocalTZA [] allTransactions startDate endDate)
    as (H1 & _ & H3 & H4).
  repeat split.
  - exact H1.
  - exact H4.
  - rewrite H3. apply dashboard_fold_no_client.
  - unfold refreshSearchResults, applyTextFilter, applyBalanceFilter. cbn [map].
    destruct (0 <? String.length query)%nat; cbn [filter];
      destruct (negb (String.eqb balanceFilter "todos")); try reflexivity;
      now destruct (balancePredicate balanceFilter).
Qed.

(** ** Periods of the dashboard *)

Lemma readBound_date (s : string) (d : CalendarDate) :
  parseCalendarDate s = Some d -> readBound (Some s) = Some (Some d).
Proof.
  intro H. unfold readBound. destruct s as [|c s]; [discriminate H|].
  cbn [String.eqb]. now rewrite H.
Qed.

(** Membership in a period, by day numbers. *)
Lemma inPeriod_days (LocalTZA : Z) (startDate endDate : option string)
    (start end_ : option CalendarDate) (t : Transaction.t) (d : CalendarDate) :
  readBound startDate = Some start ->
  readBound endDate = Some end_ ->
  parseCalendarDate (Transaction.data t) = Some d ->
  (inPeriod LocalTZA (dateBound LocalTZA startDate) (dateBound LocalTZA endDate) t
   = true
   <-> match start with Some s => dayNumber s <= dayNumber d | None => True end
       /\ match end_ with Some e => dayNumber d <= dayNumber e | None => True end).
Proof.
  intros Hs He Hd.
  rewrite (inPeriod_spec LocalTZA _ _ start end_ t d Hs He Hd).
  destruct (dateBound_read LocalTZA _ _ Hs) as [_ Vs].
  destruct (dateBound_read LocalTZA _ _ He) as [_ Ve].
  destruct (parseCalendarDate_Some _ _ Hd) as [_ Vd].
  unfold withinRange. split.
  - intros [A B]. split.
    + destruct start as [s|]; [|exact I].
      apply dayNumber_le_iff; auto.
    + destruct end_ as [e|]; [|exact I].
      apply dayNumber_le_iff; auto.
  - intros [A B]. split.
    + intros s ->. apply dayNumber_le_iff; auto.
    + intros e ->. apply dayNumber_le_iff; auto.
Qed.

Lemma filteredTransactions_filter (LocalTZA : Z) (l : list Transaction.t)
    (startDate endDate : option string) :
  filteredTransactions LocalTZA l startDate endDate
  = filter (inPeriod LocalTZA (dateBound LocalTZA startDate)
              (dateBound LocalTZA endDate)) l.
Proof. reflexivity. Qed.

Lemma dashboardStep_shift (allClients : list Client.t) (s c : number)
    (t : Transaction.t) :
  dashboardStep allClients (s, c) t
  = ((s + fst (dashboardStep allClients ((#0)%js, (#0)%js) t))%js,
     (c + snd (dashboardStep allClients ((#0)%js, (#0)%js) t))%js).
Proof.
  unfold dashboardStep. generalize (Transaction.valor t). intro v.
  destruct (String.eqb (Transaction.tipo t) "entrada").
  - destruct (findClient allClients (Transaction.clienteId t)) as [cl|];
      [destruct (Client.comissaoPct cl) as [p|]; [destruct (JsNum.truthy p)|]|];
      cbn [fst snd]; now rewrite ?jsadd_0_l, ?jsadd_0_r.
  - destruct (String.eqb (Transaction.tipo t) "saida"); cbn [fst snd];
      rewrite ?jsadd_0_r; [|reflexivity].
    f_equal. rewrite ofZ_0. js_arith.
Qed.

(** The two totals of the loop of [calculateDashboardStats] are sums of
    the contributions of the single transactions. *)
Lemma dashboard_fold_sum (allClients : list Client.t) (l : list Transaction.t)
    (s c : number) :
  fold_left (dashboardStep allClients) l (s, c)
  = ((s + sumOf (map (fun t => fst (dashboardStep allClients ((#0)%js, (#0)%js) t)) l))%js,
     (c + sumOf (map (fun t => snd (dashboardStep allClients ((#0)%js, (#0)%js) t)) l))%js).
Proof.
  revert s c. induction l as [|t l IH]; intros s c.
  - cbn [fold_left map]. unfold sumOf. cbn [fold_right]. now rewrite !jsadd_0_r.
  - cbn [fold_left map]. rewrite dashboardStep_shift, IH, !sumOf_cons.
    now rewrite !jsadd_assoc.
Qed.

Lemma sumOf_filter_split {A : Type} (f : A -> number) (p p1 p2 : A -> bool)
    (l : list A) :
  (forall x, In x l -> p x = p1 x || p2 x) ->
  (forall x, In x l -> p1 x && p2 x = false) ->
  sumOf (map f (filter p l))
  = (sumOf (map f (filter p1 l)) + sumOf (map f (filter p2 l)))%js.
Proof.
  induction l as [|x l IH]; intros Hp Hd.
  - cbn [filter map]. unfold sumOf. cbn [fold_right]. now rewrite jsadd_0_l.
  - assert (sumOf (map f (filter p l))
            = (sumOf (map f (filter p1 l)) + sumOf (map f (filter p2 l)))%js) as E.
    { apply IH; intros y Hy; [apply Hp|apply Hd]; now right. }
    specialize (Hp x (or_introl eq_refl)). specialize (Hd x (or_introl eq_refl)).
    rewrite !filter_cons_if, Hp.
    destruct (p1 x), (p2 x); try discriminate Hd; cbn [orb map];
      rewrite ?sumOf_cons, E.
    + apply jsadd_assoc.
    + generalize (f x) (sumOf (map f (filter p1 l))) (sumOf (map f (filter p2 l))).
      intros a b c. js_arith.
    + reflexivity.
Qed.

(** X4. Net balances of adjacent periods add up.  For a store of whole
    amounts whose magnitudes add up to at most [2^53] (no addition rounds)
    and whose transactions carry calendar dates, when a period is cut in two
    at a day [cut], the second part starting on the next day, the net
    balance of the whole period is the sum of those of the two parts. *)
Theorem adjacent_periods_add (LocalTZA : Z) (allClients : list Client.t)
    (allTransactions : list Transaction.t) (startDate endDate : option string)
    (cut next : string) (start end_ : option CalendarDate) (dc dn : CalendarDate) :
  wholeAmounts allTransactions = true ->
  storeDated allTransactions = true ->
  readBound startDate = Some start ->
  readBound endDate = Some end_ ->
  parseCalendarDate cut = Some dc ->
  parseCalendarDate next = Some dn ->
  dayNumber dn = dayNumber dc + 1 ->
  (forall s, start = Some s -> dateLe s dn) ->
  (forall e, end_ = Some e -> dateLe dc e) ->
  let whole :=
    calculateDashboardStats LocalTZA allClients allTransactions startDate endDate in
  let first :=
    calculateDashboardStats LocalTZA allClients allTransactions startDate (Some cut) in
  let second :=
    calculateDashboardStats LocalTZA allClients allTransactions (Some next) endDate in
  saldoTotal whole = (saldoTotal first + saldoTotal second)%js.
Proof.
  intros _ Hdated Hs He Hc Hn Hnext Hlo Hhi. cbv zeta.
  pose proof (readBound_date _ _ Hc) as Rc.
  pose proof (readBound_date _ _ Hn) as Rn.
  destruct (parseCalendarDate_Some _ _ Hc) as [_ Vc].
  destruct (parseCalendarDate_Some _ _ Hn) as [_ Vn].
  destruct (dateBound_read LocalTZA _ _ Hs) as [_ Vs].
  destruct (dateBound_read LocalTZA _ _ He) as [_ Ve].
  assert (match start with Some s => dayNumber s <= dayNumber dn | None => True end)
    as Hlo'.
  { destruct start as [s|]; [|exact I]. apply dayNumber_le_iff; auto. }
  assert (match end_ with Some e => dayNumber dc <= dayNumber e | None => True end)
    as Hhi'.
  { destruct end_ as [e|]; [|exact I]. apply dayNumber_le_iff; auto. }
  clear Hlo Hhi.
  set (P := inPeriod LocalTZA (dateBound LocalTZA startDate) (dateBound LocalTZA endDate)).
  set (P1 := inPeriod LocalTZA (dateBound LocalTZA startDate)
               (dateBound LocalTZA (Some cut))).
  set (P2 := inPeriod LocalTZA (dateBound LocalTZA (Some next))
               (dateBound LocalTZA endDate)).
  assert (forall t, In t allTransactions -> P t = P1 t || P2 t) as Hor.
  { intros t Ht. destruct (storeDated_date _ _ Hdated Ht) as [d Hd].
    apply eq_true_iff_eq. rewrite orb_true_iff. unfold P, P1, P2.
    rewrite (inPeriod_days LocalTZA _ _ _ _ t d Hs He Hd),
            (inPeriod_days LocalTZA _ _ _ _ t d Hs Rc Hd),
            (inPeriod_days LocalTZA _ _ _ _ t d Rn He Hd).
    destruct start, end_; lia. }
  assert (forall t, In t allTransactions -> P1 t && P2 t = false) as Hdis.
  { intros t Ht. destruct (storeDated_date _ _ Hdated Ht) as [d Hd].
    apply not_true_is_false. rewrite andb_true_iff. unfold P1, P2.
    rewrite (inPeriod_days LocalTZA _ _ _ _ t d Hs Rc Hd),
            (inPeriod_days LocalTZA _ _ _ _ t d Rn He Hd).
    lia. }
  destruct (stats_projections LocalTZA allClients allTransactions startDate endDate)
    as (_ & -> & _).
  destruct (stats_projections LocalTZA allClients allTransactions startDate (Some cut))
    as (_ & -> & _).
  destruct (stats_projections LocalTZA allClients allTransactions (Some next) endDate)
    as (_ & -> & _).
  rewrite !filteredTransactions_filter. fold P P1 P2.
  rewrite !dashboard_fold_sum. cbn [fst snd]. rewrite !jsadd_0_l.
  now apply sumOf_filter_split.
Qed.

Lemma adjacent_periods_add_witness :
  saldoTotal (calculateDashboardStats 0 sampleRoster sampleStore
                (Some "2024-01-01") (Some "2024-02-29"))
  = (saldoTotal (calculateDashboardStats 0 sampleRoster sampleStore
                   (Some "2024-01-01") (Some "2024-01-31"))
     + saldoTotal (calculateDashboardStats 0 sampleRoster sampleStore
                     (Some "2024-02-01") (Some "2024-02-29")))%js.
Proof.
  apply (adjacent_periods_add 0 sampleRoster sampleStore
           (Some "2024-01-01") (Some "2024-02-29") "2024-01-31" "2024-02-01"
           (Some (mkDate 2024 1 1)) (Some (mkDate 2024 2 29))
           (mkDate 2024 1 31) (mkDate 2024 2 1));
    try reflexivity.
  - intros s [= <-]. unfold dateLe. simpl. lia.
  - intros e [= <-]. unfold dateLe. simpl. lia.
Defined.

Lemma filter_none {A : Type} (f : A -> bool) (l : list A) :
  (forall x, In x l -> f x = false) -> filter f l = [].
Proof.
  induction l as [|x l IH]; intro H; [reflexivity|].
  cbn [filter]. rewrite (H x (or_introl eq_refl)). apply IH.
  intros y Hy. apply H. now right.
Qed.

(** X5. A period whose start date is after its end date holds no dated
    transaction: for a store whose transactions carry calendar dates the
    filtered list is empty and both totals of the period are 0. *)
Theorem inverted_period_empty (LocalTZA : Z) (allClients : list Client.t)
    (allTransactions : list Transaction.t) (startDate endDate : string)
    (ds de : CalendarDate) :
  storeDated allTransactions = true ->
  parseCalendarDate startDate = Some ds ->
  parseCalendarDate endDate = Some de ->
  ~ dateLe ds de ->
  let stats :=
    calculateDashboardStats LocalTZA allClients allTransactions
      (Some startDate) (Some endDate) in
  filteredTransactions LocalTZA allTransactions (Some startDate) (Some endDate) = []
  /\ saldoTotal stats = (#0)%js
  /\ comissaoTotalValor stats = (#0)%js.
Proof.
  intros Hdated Hs He Hinv. cbv zeta.
  pose proof (readBound_date _ _ Hs) as Rs.
  pose proof (readBound_date _ _ He) as Re.
  destruct (parseCalendarDate_Some _ _ Hs) as [_ Vs].
  destruct (parseCalendarDate_Some _ _ He) as [_ Ve].
  assert (dayNumber de < dayNumber ds) as Hlt.
  { destruct (Z.lt_ge_cases (dayNumber de) (dayNumber ds)) as [L|G]; [exact L|].
    elim Hinv. now apply dayNumber_le_iff. }
  assert (filteredTransactions LocalTZA allTransactions (Some startDate) (Some endDate)
          = []) as E.
  { rewrite filteredTransactions_filter. apply filter_none. intros t Ht.
    destruct (storeDated_date _ _ Hdated Ht) as [d Hd].
    apply not_true_is_false.
    rewrite (inPeriod_days LocalTZA _ _ _ _ t d Rs Re Hd). lia. }
  destruct (stats_projections LocalTZA allClients allTransactions
              (Some startDate) (Some endDate)) as (_ & -> & -> & _).
  rewrite E. now repeat split.
Qed.

Lemma inverted_period_empty_witness :
  filteredTransactions 0 sampleStore (Some "2024-02-01") (Some "2024-01-01") = [].
Proof.
  apply (inverted_period_empty 0 sampleRoster sampleStore "2024-02-01" "2024-01-01"
           (mkDate 2024 2 1) (mkDate 2024 1 1)); try reflexivity.
  unfold dateLe. simpl. lia.
Defined.

Lemma inPeriod_NaN (LocalTZA : Z) (start end_ : option number) (t : Transaction.t) :
  parseDate LocalTZA (Transaction.data t) = NaN ->
  inPeriod LocalTZA start end_ t = true.
Proof.
  intro H. unfold inPeriod. rewrite H.
  destruct start as [[|s]|], end_ as [[|e]|]; reflexivity.
Qed.

(** X6. A transaction whose [data] does not give a date is counted in
    every period: both comparisons with the bounds are false for an
    invalid date.  Recorded as an entrada, it adds its [valor] to the net
    balance of every period, whatever the bounds. *)
Theorem undated_transaction_in_every_period (LocalTZA : Z)
    (allClients : list Client.t) (allTransactions : list Transaction.t)
    (startDate endDate : option string) (t : Transaction.t) :
  parseDate LocalTZA (Transaction.data t) = NaN ->
  (In t allTransactions ->
   In t (filteredTransactions LocalTZA allTransactions startDate endDate))
  /\ (Transaction.tipo t = "entrada" ->
      saldoTotal (calculateDashboardStats LocalTZA allClients
                    (allTransactions ++ [t])%list startDate endDate)
      = (saldoTotal (calculateDashboardStats LocalTZA allClients
                       allTransactions startDate endDate)
         + Transaction.valor t)%js).
Proof.
  intro Hnan. split.
  - intro Hin. rewrite filteredTransactions_filter. apply filter_In.
    split; [exact Hin|now apply inPeriod_NaN].
  - intro Ht. rewrite !saldoTotal_fold, !filteredTransactions_filter.
    rewrite filter_app. cbn [filter]. rewrite inPeriod_NaN by exact Hnan.
    rewrite fold_left_app. cbn [fold_left]. unfold balanceStep at 1.
    now rewrite Ht.
Qed.

Lemma undated_transaction_in_every_period_witness :
  In (Transaction.mk "trans_9" "c1" "entrada" (#5)%js "")
     (filteredTransactions 0
        [Transaction.mk "trans_9" "c1" "entrada" (#5)%js ""]
        (Some "2024-01-01") (Some "2024-01-31")).
Proof.
  apply (undated_transaction_in_every_period 0 sampleRoster
           [Transaction.mk "trans_9" "c1" "entrada" (#5)%js ""]
           (Some "2024-01-01") (Some "2024-01-31")
           (Transaction.mk "trans_9" "c1" "entrada" (#5)%js "")).
  - reflexivity.
  - simpl. now left.
Defined.

(** * Bounds of the commission *)










(** ** The balance filter by sign *)

Lemma keeps_unrestricted (balanceFilter : string) (r : ClientWithSaldo) :
  balancePredicate balanceFilter = None -> keeps balanceFilter r = true.
Proof.
  intro H. unfold keeps, applyBalanceFilter. rewrite H.
  now destruct (negb (String.eqb balanceFilter "todos")).
Qed.

(** X8. The three sign filters split the clients whose balance is a number:
    such a client passes exactly one of 'negativo', 'zero' and 'positivo'.
    A client whose balance is [NaN] passes none of the six restricting
    filters and is shown under 'todos' only; a filter value that the
    [switch] does not name restricts nothing.  'positivo' keeps what the
    three positive ranges keep and, besides, the balances strictly between
    500 and 501. *)
Theorem sign_filters (r : ClientWithSaldo) :
  (isNumber (saldo r) = true ->
   (keeps "negativo" r = true /\ keeps "zero" r = false /\ keeps "positivo" r = false)
   \/ (keeps "negativo" r = false /\ keeps "zero" r = true /\ keeps "positivo" r = false)
   \/ (keeps "negativo" r = false /\ keeps "zero" r = false /\ keeps "positivo" r = true))
  /\ (saldo r = NaN ->
      forall balanceFilter,
        In balanceFilter ("positivo" :: rangeBuckets) -> keeps balanceFilter r = false)
  /\ keeps "todos" r = true
  /\ (forall balanceFilter,
        balancePredicate balanceFilter = None -> keeps balanceFilter r = true)
  /\ keeps "positivo" r
     = keeps "0-500" r
       || (JsNum.gtb (saldo r) (#500)%js && JsNum.ltb (saldo r) (#501)%js)
       || keeps "501-1000" r || keeps "1001+" r.
Proof.
  destruct (keeps_buckets r) as (Kp & K1 & K2 & K3 & Kn & Kz).
  rewrite Kp, K1, K2, K3, Kn, Kz. clear Kp K1 K2 K3 Kn Kz.
  destruct r as [c [|q]]; cbn [saldo isNumber].
  - repeat split; try discriminate; try reflexivity.
    + intros _ f Hf. cbn [In rangeBuckets] in Hf.
      repeat (destruct Hf as [<-|Hf]; [reflexivity|]). destruct Hf.
    + intros f Hf. now apply keeps_unrestricted.
  - repeat split; try discriminate; try reflexivity.
    + intros _.
      destruct (Q_dec (this q) 0) as [[L|G]|E].
      * left. repeat split; bucket_arith.
      * right. right. repeat split; bucket_arith.
      * right. left. repeat split; bucket_arith.
    + intros f Hf. now apply keeps_unrestricted.
    + apply eq_true_iff_eq.
      rewrite !orb_true_iff, !andb_true_iff.
      unfold JsNum.gtb, JsNum.geb, JsNum.ofZ.
      rewrite !ltb_Num, !leb_Num. cbn [this Q2Qc].
      change (Qred (inject_Z 0)) with (inject_Z 0).
      change (Qred (inject_Z 500)) with (inject_Z 500).
      change (Qred (inject_Z 501)) with (inject_Z 501).
      change (Qred (inject_Z 1000)) with (inject_Z 1000).
      unfold inject_Z.
      destruct (Qlt_le_dec (Qmake 500 1) (this q)) as [A|A];
        destruct (Qlt_le_dec (this q) (Qmake 501 1)) as [B|B];
        destruct (Qlt_le_dec (Qmake 1000 1) (this q)) as [C|C];
        split; intro H; try lra;
        repeat match goal with
               | H : _ \/ _ |- _ => destruct H
               | H : _ /\ _ |- _ => destruct H
               end; try lra; tauto || (try (left; left; left; split; lra));
        try (left; left; right; split; lra);
        try (left; right; split; lra); try (right; lra).
Qed.

Lemma sign_filters_witness :
  keeps "positivo"
    (mkResult (mkClient "c1" "Maria Souza" "Padaria Central" None) (#700)%js) = true.
Proof.
  destruct (sign_filters
              (mkResult (mkClient "c1" "Maria Souza" "Padaria Central" None) (#700)%js))
    as (H & _).
  destruct (H eq_refl) as [(A & _)|[(_ & B & _)|(_ & _ & C)]].
  - discriminate A.
  - discriminate B.
  - exact C.
Defined.

(** ** The search results *)

(** The test of the text filter on one result. *)
Lemma applyTextFilter_filter (query : string) (results : list ClientWithSaldo) :
  applyTextFilter query results
  = filter (fun r => if (0 <? String.length query)%nat
                     then matchesQuery (toLowerCase query) r else true) results.
Proof.
  unfold applyTextFilter. destruct (0 <? String.length query)%nat; [reflexivity|].
  now rewrite filter_all.
Qed.

Lemma filter_map_swap {A B : Type} (g : A -> B) (p : B -> bool) (l : list A) :
  filter p (map g l) = map g (filter (fun x => p (g x)) l).
Proof.
  induction l as [|x l IH]; [reflexivity|]. cbn [map filter].
  destruct (p (g x)); cbn [map]; now rewrite IH.
Qed.

(** X9. The cards of a search follow the roster: the clients that are
    shown are a selection of the roster in roster order, every card carries
    the balance of its own client, and the text filter and the balance
    filter may be applied in either order. *)
Theorem search_results_follow_roster (allClients : list Client.t)
    (allTransactions : list Transaction.t) (query balanceFilter : string) :
  let results := refreshSearchResults allClients allTransactions query balanceFilter in
  (exists keep : Client.t -> bool, map client results = filter keep allClients)
  /\ (forall r, In r results ->
        In (client r) allClients
        /\ saldo r = calculateClientBalance allTransactions (Client.id (client r)))
  /\ results
     = applyTextFilter query
         (applyBalanceFilter balanceFilter
            (annotateWithSaldo allClients allTransactions)).
Proof.
  cbv zeta. unfold refreshSearchResults. fold (annotateWithSaldo allClients allTransactions).
  rewrite !keeps_filter, !applyTextFilter_filter.
  set (kt := fun r => if (0 <? String.length query)%nat
                      then matchesQuery (toLowerCase query) r else true).
  set (kb := keeps balanceFilter).
  split; [|split].
  - unfold annotateWithSaldo.
    set (g := fun c => mkResult c (calculateClientBalance allTransactions (Client.id c))).
    exists (fun c => kt (g c) && kb (g c)).
    rewrite filter_filter, filter_map_swap, map_map. cbn [g client].
    now rewrite map_id.
  - intros r Hr. apply filter_In in Hr. destruct Hr as [Hr _].
    apply filter_In in Hr. destruct Hr as [Hr _].
    unfold annotateWithSaldo in Hr. apply in_map_iff in Hr.
    destruct Hr as (c & <- & Hc). now split.
  - apply filter_comm.
Qed.

Lemma filter_implied {A : Type} (f g : A -> bool) (l : list A) :
  (forall x, f x = true -> g x = true) -> filter f (filter g l) = filter f l.
Proof.
  intro H. rewrite filter_filter. apply filter_ext. intro x.
  destruct (f x) eqn:F; [now rewrite (H x F)|now rewrite andb_false_r].
Qed.

Lemma includes_narrow (s before query after : string) :
  includes (toLowerCase s) (toLowerCase (before ++ query ++ after)) = true ->
  includes (toLowerCase s) (toLowerCase query) = true.
Proof.
  rewrite !includes_spec, !toLowerCase_append. intros (pre & post & E).
  exists (pre ++ toLowerCase before), (toLowerCase after ++ post).
  rewrite E, !append_assoc. reflexivity.
Qed.

(** X10. Typing more never adds a card: the results for a query that
    contains [query] are the results for [query], filtered again by the
    longer text. *)
Theorem longer_query_narrows (allClients : list Client.t)
    (allTransactions : list Transaction.t) (before query after balanceFilter : string) :
  let longer := before ++ query ++ after in
  refreshSearchResults allClients allTransactions longer balanceFilter
  = applyTextFilter longer
      (refreshSearchResults allClients allTransactions query balanceFilter)
  /\ incl (refreshSearchResults allClients allTransactions longer balanceFilter)
          (refreshSearchResults allClients allTransactions query balanceFilter).
Proof.
  cbv zeta.
  assert (refreshSearchResults allClients allTransactions (before ++ query ++ after)
            balanceFilter
          = applyTextFilter (before ++ query ++ after)
              (refreshSearchResults allClients allTransactions query balanceFilter)) as E.
  { unfold refreshSearchResults.
    rewrite !keeps_filter, !applyTextFilter_filter.
    rewrite (filter_comm _ (keeps balanceFilter)). f_equal.
    symmetry. apply filter_implied. intros r.
    destruct (0 <? String.length (before ++ query ++ after))%nat eqn:L.
    - destruct (0 <? String.length query)%nat; [|reflexivity].
      unfold matchesQuery. rewrite !orb_true_iff.
      intros [[H|H]|H]; [left; left|left; right|right];
        now apply (includes_narrow _ before query after).
    - apply Nat.ltb_ge in L. rewrite !length_append in L.
      replace (0 <? String.length query)%nat with false; [reflexivity|].
      symmetry. apply Nat.ltb_ge. lia. }
  split; [exact E|].
  rewrite E, applyTextFilter_filter. intros r Hr.
  apply filter_In in Hr. tauto.
Qed.

(** ** The recent transactions of a card *)

Section StableSort.

Context {A : Type}.
Variable comparefn : A -> A -> number.
Variable P : A -> Prop.
Variable key : A -> Z.
Hypothesis comesAfter_key :
  forall x y, P x -> P y -> comesAfter comparefn x y = (key x <? key y).

(** An insertion passes over elements of another key only. *)
Lemma insertSorted_same_key (k : Z) (x : A) (l : list A) :
  P x -> Forall P l ->
  filter (fun t => key t =? k) (insertSorted comparefn x l)
  = filter (fun t => key t =? k) (x :: l).
Proof.
  intros Px Hl. induction Hl as [|y l Py Hl IH]; [reflexivity|].
  cbn [insertSorted]. rewrite (comesAfter_key x y Px Py).
  destruct (Z.ltb_spec (key x) (key y)) as [L|G]; [|reflexivity].
  rewrite filter_cons_if, IH, !filter_cons_if.
  destruct (Z.eqb_spec (key y) k) as [Ey|Ny];
    destruct (Z.eqb_spec (key x) k) as [Ex|Nx]; try reflexivity.
  lia.
Qed.

Lemma sort_same_key (k : Z) (l : list A) :
  Forall P l ->
  filter (fun t => key t =? k) (sort comparefn l) = filter (fun t => key t =? k) l.
Proof.
  induction 1 as [|x l Px Hl IH]; [reflexivity|].
  cbn [sort fold_right]. fold (sort comparefn l).
  rewrite insertSorted_same_key; [|exact Px|].
  - now rewrite !filter_cons_if, IH.
  - apply Forall_forall. intros y Hy. rewrite Forall_forall in Hl. apply Hl.
    now apply (Permutation_in _ (sort_perm comparefn l)).
Qed.

End StableSort.

Lemma firstn_In' {A : Type} (x : A) (n : nat) (l : list A) :
  In x (firstn n l) -> In x l.
Proof.
  intro H. rewrite <- (firstn_skipn n l). apply in_or_app. now left.
Qed.

Lemma filter_firstn_prefix {A : Type} (f : A -> bool) (n : nat) (l : list A) :
  exists rest, (filter f (firstn n l) ++ rest)%list = filter f l.
Proof.
  exists (filter f (skipn n l)).
  now rewrite <- filter_app, firstn_skipn.
Qed.

(** X11. The lists of a card never show a transaction of another client or
    of the other kind, nor one that is not in the store.  When the
    transactions of the client carry calendar dates, transactions of one
    day keep the order in which they were recorded: those shown for a day
    are the first recorded of that day and kind. *)
Theorem recent_lists_sound (LocalTZA : Z) (allTransactions : list Transaction.t)
    (clientId : string) :
  (forall t, In t (recentEntradas LocalTZA allTransactions clientId) ->
     In t allTransactions /\ Transaction.clienteId t = clientId
     /\ Transaction.tipo t = "entrada")
  /\ (forall t, In t (recentSaidas LocalTZA allTransactions clientId) ->
        In t allTransactions /\ Transaction.clienteId t = clientId
        /\ Transaction.tipo t = "saida")
  /\ ((forall t, In t allTransactions -> Transaction.clienteId t = clientId ->
                 hasCalendarDate t = true) ->
      forall k,
        let mine := getTransactionsForClient allTransactions clientId in
        (exists rest,
            (datedOn k (recentEntradas LocalTZA allTransactions clientId) ++ rest)%list
            = datedOn k (filter (isTipo "entrada") mine))
        /\ (exists rest,
               (datedOn k (recentSaidas LocalTZA allTransactions clientId) ++ rest)%list
               = datedOn k (filter (isTipo "saida") mine))).
Proof.
  assert (forall tipo t,
            In t (slice0 4 (filter (isTipo tipo)
                    (clientTransactionsSorted LocalTZA allTransactions clientId))) ->
            In t allTransactions /\ Transaction.clienteId t = clientId
            /\ Transaction.tipo t = tipo) as Hin.
  { intros tipo t Ht. unfold slice0 in Ht. apply firstn_In' in Ht.
    apply filter_In in Ht. destruct Ht as [Ht Hk].
    unfold clientTransactionsSorted in Ht.
    apply (Permutation_in _ (sort_perm _ _)) in Ht.
    apply filter_In in Ht. destruct Ht as [Ht Hc].
    apply String.eqb_eq in Hc. apply String.eqb_eq in Hk. now repeat split. }
  split; [apply Hin|]. split; [apply Hin|].
  intros Hd k mine.
  assert (Forall (fun t => hasCalendarDate t = true) mine) as Hmine.
  { apply Forall_forall. intros t Ht. apply filter_In in Ht.
    destruct Ht as [Ht E]. apply String.eqb_eq in E. now apply Hd. }
  assert (forall tipo,
            exists rest,
              (datedOn k (slice0 4 (filter (isTipo tipo)
                            (clientTransactionsSorted LocalTZA allTransactions clientId)))
               ++ rest)%list
              = datedOn k (filter (isTipo tipo) mine)) as Hpre.
  { intro tipo. unfold slice0, datedOn.
    destruct (filter_firstn_prefix (fun t => dateKey t =? k) 4
                (filter (isTipo tipo)
                   (clientTransactionsSorted LocalTZA allTransactions clientId)))
      as [rest E].
    exists rest. rewrite E. rewrite !(filter_comm _ (isTipo tipo)). f_equal.
    unfold clientTransactionsSorted. fold mine.
    apply (sort_same_key (compareRecent LocalTZA)
             (fun t => hasCalendarDate t = true) dateKey).
    - intros x y. apply comesAfter_compareRecent.
    - exact Hmine. }
  split; apply Hpre.
Qed.

Lemma recent_lists_sound_witness :
  exists rest,
    (datedOn (dayNumber (mkDate 2024 3 5)) (recentEntradas 0 busyStore "c1") ++ rest)%list
    = datedOn (dayNumber (mkDate 2024 3 5))
        (filter (isTipo "entrada") (getTransactionsForClient busyStore "c1")).
Proof.
  destruct (recent_lists_sound 0 busyStore "c1") as (_ & _ & H).
  refine (proj1 (H _ (dayNumber (mkDate 2024 3 5)))).
  intros t Ht _. simpl in Ht.
  repeat (destruct Ht as [<-|Ht]; [reflexivity|]). destruct Ht.
Defined.

(** * Persistence: [saveTransactions], [loadTransactions] *)

(** ** Reading back the text of [JSON.stringify(value)] *)

Lemma readable_weaken (need need' : nat) (gap indent : string) (v : json) :
  (need <= need')%nat -> readable need gap indent v -> readable need' gap indent v.
Proof. intros L R fuel w rest Hf. apply R. lia. Qed.

Lemma startsWith_append (lit rest : string) : startsWith lit (lit ++ rest) = Some rest.
Proof.
  unfold startsWith.
  replace (prefix lit (lit ++ rest)) with true
    by (symmetry; apply prefix_spec; eauto).
  rewrite length_append.
  replace (String.length lit + String.length rest - String.length lit)%nat
    with (String.length rest) by lia.
  pose proof (substring_append_skip lit rest 0 (String.length rest)) as E.
  rewrite Nat.add_0_r in E. rewrite E.
  pose proof (substring_append_prefix rest "") as F.
  rewrite append_nil_r in F. now rewrite F.
Qed.

Lemma readable_null (gap indent : string) : readable 1 gap indent JNull.
Proof.
  intros fuel w rest Hf Hw _. destruct fuel as [|f]; [lia|].
  cbn [parseValue serialize]. rewrite skipWhitespace_blank by exact Hw.
  change ("null" ++ rest) with (String "n" ("ull" ++ rest)).
  rewrite skipWhitespace_head by reflexivity.
  change (Ascii.eqb "n" "[") with false. change (Ascii.eqb "n" "{") with false.
  change (Ascii.eqb "n" dquote) with false. change (Ascii.eqb "n" "t") with false.
  change (Ascii.eqb "n" "f") with false. change (Ascii.eqb "n" "n") with true.
  cbv iota. change (String "n" ("ull" ++ rest)) with ("null" ++ rest).
  now rewrite startsWith_append.
Qed.

Lemma readable_bool (gap indent : string) (b : bool) : readable 1 gap indent (JBool b).
Proof.
  intros fuel w rest Hf Hw _. destruct fuel as [|f]; [lia|].
  cbn [parseValue]. rewrite skipWhitespace_blank by exact Hw. destruct b; cbn [serialize].
  - change ("true" ++ rest) with (String "t" ("rue" ++ rest)).
    rewrite skipWhitespace_head by reflexivity.
    change (Ascii.eqb "t" "[") with false. change (Ascii.eqb "t" "{") with false.
    change (Ascii.eqb "t" dquote) with false. change (Ascii.eqb "t" "t") with true.
    cbv iota. change (String "t" ("rue" ++ rest)) with ("true" ++ rest).
    now rewrite startsWith_append.
  - change ("false" ++ rest) with (String "f" ("alse" ++ rest)).
    rewrite skipWhitespace_head by reflexivity.
    change (Ascii.eqb "f" "[") with false. change (Ascii.eqb "f" "{") with false.
    change (Ascii.eqb "f" dquote) with false. change (Ascii.eqb "f" "t") with false.
    change (Ascii.eqb "f" "f") with true.
    cbv iota. change (String "f" ("alse" ++ rest)) with ("false" ++ rest).
    now rewrite startsWith_append.
Qed.

(** The text of one member of an object printed without indentation. *)
Lemma serialize_compact_object (props : list (string * json)) :
  props <> [] ->
  serialize "" "" (JObject props)
  = "{" ++ joinWith ","
             (map (fun kv => quoteJSONString (fst kv) ++ ":" ++ serialize "" "" (snd kv))
                props)
        ++ "}".
Proof. intro N. destruct props as [|kv props]; [now elim N|reflexivity]. Qed.

Lemma serialize_compact_array (elements : list json) :
  elements <> [] ->
  serialize "" "" (JArray elements)
  = "[" ++ joinWith "," (map (serialize "" "") elements) ++ "]".
Proof. intro N. destruct elements as [|v elements]; [now elim N|reflexivity]. Qed.

Lemma parseElements_compact (need : nat) (elements : list json) :
  elements <> [] ->
  Forall (readable need "" "") elements ->
  forall fuel w rest,
    (S need + List.length elements <= fuel)%nat -> blank w = true ->
    parseElements fuel
      (w ++ joinWith "," (map (serialize "" "") elements) ++ "]" ++ rest)
    = Some (elements, rest).
Proof.
  intros N HR. induction HR as [|v elements Hv HR IH]; [now elim N|].
  intros fuel w rest Hf Hw. cbn [List.length] in Hf.
  destruct fuel as [|f]; [lia|]. unfold readable in Hv.
  assert (forall tail, endsNumber tail = true ->
            parseElements (S f) (w ++ serialize "" "" v ++ tail)
            = match skipWhitespace tail with
              | String c rest' =>
                  if Ascii.eqb c "," then
                    match parseElements f rest' with
                    | Some (vs, rest'') => Some (v :: vs, rest'')
                    | None => None
                    end
                  else if Ascii.eqb c "]" then Some ([v], rest')
                  else None
              | EmptyString => None
              end) as Hstep.
  { intros tail Ht. cbn [parseElements].
    rewrite (Hv f w tail); [reflexivity|lia|exact Hw|exact Ht]. }
  destruct elements as [|v' elements'].
  - cbn [map joinWith]. rewrite Hstep by reflexivity.
    cbn [append]. now rewrite skipWhitespace_head by reflexivity.
  - specialize (IH ltac:(discriminate) f "" rest).
    cbn [map] in IH |- *. rewrite joinWith_cons2.
    remember (joinWith "," (serialize "" "" v' :: map (serialize "" "") elements')) as J.
    rewrite !append_assoc, Hstep by reflexivity.
    cbn [append] in IH |- *. rewrite skipWhitespace_head by reflexivity.
    cbn [Ascii.eqb Bool.eqb]. cbv iota.
    rewrite IH; [reflexivity|cbn [List.length] in *; lia|reflexivity].
Qed.

Lemma readable_compact_array (need : nat) (elements : list json) :
  Forall (readable need "" "") elements ->
  readable (S (S need + List.length elements)) "" "" (JArray elements).
Proof.
  intros HR fuel w rest Hf Hw _. destruct fuel as [|f]; [lia|].
  destruct elements as [|v0 elements0] eqn:Ee.
  - cbn [parseValue serialize]. rewrite skipWhitespace_blank by exact Hw.
    cbn [append]. rewrite skipWhitespace_head by reflexivity.
    cbn [Ascii.eqb Bool.eqb]. cbv iota.
    now rewrite skipWhitespace_head by reflexivity.
  - rewrite <- Ee in *.
    assert (elements <> []) as N by (rewrite Ee; discriminate).
    rewrite serialize_compact_array by exact N.
    remember (joinWith "," (map (serialize "" "") elements) ++ "]" ++ rest) as body eqn:Eb.
    assert (parseElements f body = Some (elements, rest)) as P.
    { rewrite Eb.
      exact (parseElements_compact need elements N HR f "" rest ltac:(lia) eq_refl). }
    assert (exists c t, skipWhitespace body = String c t
                        /\ Ascii.eqb c "]" = false) as (c & t & Ht & Hc).
    { destruct f as [|f']; [rewrite Ee in Hf; cbn [List.length] in Hf; lia|].
      cbn [parseElements] in P.
      destruct (parseValue f' body) as [r|] eqn:E; [|discriminate].
      destruct (parseValue_head _ _ _ E) as (c & t & H1 & H2 & _). eauto. }
    replace (("[" ++ joinWith "," (map (serialize "" "") elements) ++ "]") ++ rest)
      with (String "[" body)
      by (rewrite Eb, !append_assoc; reflexivity).
    cbn [parseValue]. rewrite skipWhitespace_blank by exact Hw.
    rewrite skipWhitespace_head by reflexivity.
    cbn [Ascii.eqb Bool.eqb]. cbv iota.
    now rewrite Ht, Hc, P.
Qed.

Lemma parseMembers_compact (need : nat) (props : list (string * json)) :
  props <> [] ->
  Forall (fun kv => readable need "" "" (snd kv)) props ->
  forall fuel w rest,
    (need + List.length props <= fuel)%nat -> blank w = true ->
    parseMembers fuel
      (w ++ joinWith ","
              (map (fun kv => quoteJSONString (fst kv) ++ ":" ++ serialize "" "" (snd kv))
                 props)
         ++ "}" ++ rest)
    = Some (props, rest).
Proof.
  intros N HR. induction HR as [|[k v] props Hv HR IH]; [now elim N|].
  intros fuel w rest Hf Hw. cbn [List.length] in Hf.
  destruct fuel as [|f]; [lia|]. cbn [snd] in Hv. unfold readable in Hv.
  assert (forall tail, endsNumber tail = true ->
            parseMembers (S f)
              (w ++ (quoteJSONString k ++ ":" ++ serialize "" "" v) ++ tail)
            = match skipWhitespace tail with
              | String c rest4 =>
                  if Ascii.eqb c "," then
                    match parseMembers f rest4 with
                    | Some (ms, rest5) => Some ((k, v) :: ms, rest5)
                    | None => None
                    end
                  else if Ascii.eqb c "}" then Some ([(k, v)], rest4)
                  else None
              | EmptyString => None
              end) as Hstep.
  { intros tail Ht. cbn [parseMembers].
    rewrite skipWhitespace_blank by exact Hw.
    unfold quoteJSONString. cbn [append].
    rewrite skipWhitespace_head by reflexivity.
    change (Ascii.eqb dquote dquote) with true. cbv iota.
    rewrite !append_assoc. cbn [append str1].
    rewrite parseChars_quoteChars.
    rewrite skipWhitespace_head by reflexivity.
    cbn [Ascii.eqb Bool.eqb]. cbv iota.
    change (serialize "" "" v ++ tail) with ("" ++ serialize "" "" v ++ tail).
    rewrite (Hv f "" tail); [reflexivity|lia|reflexivity|exact Ht]. }
  destruct props as [|kv' props'].
  - cbn [map joinWith fst snd]. rewrite Hstep by reflexivity.
    cbn [append]. now rewrite skipWhitespace_head by reflexivity.
  - specialize (IH ltac:(discriminate) f "" rest).
    cbn [map fst snd] in IH |- *. rewrite joinWith_cons2.
    remember (joinWith ","
                ((quoteJSONString (fst kv') ++ ":" ++ serialize "" "" (snd kv'))
                 :: map (fun kv => quoteJSONString (fst kv) ++ ":"
                                   ++ serialize "" "" (snd kv)) props')) as J.
    rewrite (append_assoc (quoteJSONString k ++ ":" ++ serialize "" "" v)).
    rewrite Hstep by reflexivity.
    rewrite !append_assoc.
    cbn [append] in IH |- *. rewrite skipWhitespace_head by reflexivity.
    cbn [Ascii.eqb Bool.eqb]. cbv iota.
    rewrite IH; [reflexivity|cbn [List.length] in *; lia|reflexivity].
Qed.

Lemma readable_compact_object (need : nat) (props : list (string * json)) :
  normalKeys props ->
  Forall (fun kv => readable need "" "" (snd kv)) props ->
  readable (S (need + List.length props)) "" "" (JObject props).
Proof.
  intros K HR fuel w rest Hf Hw _. destruct fuel as [|f]; [lia|].
  destruct props as [|kv0 props0] eqn:Ee.
  - cbn [parseValue serialize]. rewrite skipWhitespace_blank by exact Hw.
    cbn [append]. rewrite skipWhitespace_head by reflexivity.
    cbn [Ascii.eqb Bool.eqb]. cbv iota.
    now rewrite skipWhitespace_head by reflexivity.
  - rewrite <- Ee in *.
    assert (props <> []) as N by (rewrite Ee; discriminate).
    rewrite serialize_compact_object by exact N.
    remember (joinWith ","
                (map (fun kv => quoteJSONString (fst kv) ++ ":"
                                ++ serialize "" "" (snd kv)) props)
              ++ "}" ++ rest) as body eqn:Eb.
    assert (parseMembers f body = Some (props, rest)) as P.
    { rewrite Eb.
      exact (parseMembers_compact need props N HR f "" rest ltac:(lia) eq_refl). }
    assert (exists t, skipWhitespace body = String dquote t) as [t Ht].
    { rewrite Eb, Ee. destruct props0 as [|kv1 props1];
        cbn [map joinWith quoteJSONString append];
        rewrite skipWhitespace_head by reflexivity; eauto. }
    replace (("{" ++ joinWith ","
                       (map (fun kv => quoteJSONString (fst kv) ++ ":"
                                       ++ serialize "" "" (snd kv)) props)
                  ++ "}") ++ rest)
      with (String "{" body)
      by (rewrite Eb, !append_assoc; reflexivity).
    cbn [parseValue]. rewrite skipWhitespace_blank by exact Hw.
    rewrite skipWhitespace_head by reflexivity.
    cbn [Ascii.eqb Bool.eqb]. cbv iota.
    rewrite Ht. change (Ascii.eqb dquote "}") with false. cbv iota.
    now rewrite P, K.
Qed.

Lemma json_induction (P : json -> Prop) :
  P JNull -> (forall b, P (JBool b)) -> (forall n, P (JNumber n)) ->
  (forall s, P (JString s)) ->
  (forall elements, Forall P elements -> P (JArray elements)) ->
  (forall props, Forall (fun kv => P (snd kv)) props -> P (JObject props)) ->
  forall v, P v.
Proof.
  intros Hn Hb Hnum Hs Ha Ho. fix IH 1. intros [|b|n|s|elements|props].
  - exact Hn.
  - apply Hb.
  - apply Hnum.
  - apply Hs.
  - apply Ha. induction elements as [|x l IHl]; constructor; [apply IH|exact IHl].
  - apply Ho. induction props as [|[k x] l IHl]; constructor; [apply IH|exact IHl].
Qed.

Lemma wellFormed_array (elements : list json) :
  wellFormed (JArray elements) <-> Forall wellFormed elements.
Proof.
  induction elements as [|x l IH]; cbn [wellFormed].
  - split; [constructor|exact (fun _ => I)].
  - cbn [wellFormed] in IH. split.
    + intros [H1 H2]. constructor; [exact H1|now apply IH].
    + intro H. inversion H; subst. split; [assumption|now apply IH].
Qed.

Lemma wellFormed_object (props : list (string * json)) :
  wellFormed (JObject props)
  <-> normalKeys props /\ Forall (fun kv => wellFormed (snd kv)) props.
Proof.
  cbn [wellFormed]. apply and_iff_compat_l.
  induction props as [|kv l IH].
  - split; [constructor|exact (fun _ => I)].
  - split.
    + intros [H1 H2]. constructor; [exact H1|now apply IH].
    + intro H. inversion H; subst. split; [assumption|now apply IH].
Qed.

Lemma fuelFor_element (elements : list json) (x : json) :
  In x elements ->
  (fuelFor x <= fold_right (fun x m => Nat.max (fuelFor x) m) 1 elements)%nat.
Proof.
  induction elements as [|y l IH]; intros []; cbn [fold_right].
  - subst. lia.
  - specialize (IH H). lia.
Qed.

Lemma fuelFor_member (props : list (string * json)) (kv : string * json) :
  In kv props ->
  (fuelFor (snd kv)
   <= fold_right (fun kv m => Nat.max (fuelFor (snd kv)) m) 1 props)%nat.
Proof.
  induction props as [|y l IH]; intros []; cbn [fold_right].
  - subst. lia.
  - specialize (IH H). lia.
Qed.

(** The text written by [JSON.stringify] for a well-formed value is read
    back as that value. *)
Lemma readable_compact (v : json) : wellFormed v -> readable (fuelFor v) "" "" v.
Proof.
  induction v as [|b|n|s|elements IH|props IH] using json_induction; intro W.
  - apply readable_null.
  - apply readable_bool.
  - now apply readable_number.
  - apply readable_string.
  - cbn [fuelFor]. apply readable_compact_array.
    apply wellFormed_array in W. rewrite Forall_forall in *.
    intros x Hx. apply (readable_weaken (fuelFor x)).
    + now apply fuelFor_element.
    + apply IH; [exact Hx|now apply W].
  - cbn [fuelFor]. apply wellFormed_object in W. destruct W as [K W].
    apply readable_compact_object; [exact K|].
    rewrite Forall_forall in *.
    intros kv Hkv. apply (readable_weaken (fuelFor (snd kv))).
    + now apply fuelFor_member.
    + apply IH; [exact Hkv|now apply W].
Qed.

Lemma length_joinWith_comma (parts : list string) :
  parts <> [] ->
  String.length (joinWith "," parts)
  = (fold_right (fun p m => String.length p + m) 0 parts + List.length parts - 1)%nat.
Proof.
  induction parts as [|p l IH]; intro N; [now elim N|].
  destruct l as [|q l'].
  - cbn [joinWith fold_right List.length]. lia.
  - rewrite joinWith_cons2, !length_append, IH by discriminate.
    cbn [fold_right List.length String.length]. lia.
Qed.

Lemma fuelFor_bound (v : json) :
  (fuelFor v <= 2 * String.length (serialize "" "" v) + 1)%nat.
Proof.
  induction v as [|b|n|s|elements IH|props IH] using json_induction;
    try (cbn [fuelFor]; lia).
  - destruct elements as [|v0 l0] eqn:Ee; [cbn; lia|]. rewrite <- Ee in *.
    assert (elements <> []) as N by (rewrite Ee; discriminate).
    rewrite serialize_compact_array by exact N. cbn [fuelFor].
    rewrite !length_append, length_joinWith_comma
      by (rewrite Ee; discriminate).
    rewrite length_map. cbn [String.length].
    assert (fold_right (fun x m => Nat.max (fuelFor x) m) 1 elements
            <= 2 * fold_right (fun p m => String.length p + m) 0
                     (map (serialize "" "") elements) + 1)%nat as B.
    { clear N Ee. induction IH as [|x l Hx _ IHl]; cbn [fold_right map]; lia. }
    assert (1 <= List.length elements)%nat by (rewrite Ee; cbn; lia).
    lia.
  - destruct props as [|kv0 l0] eqn:Ee; [cbn; lia|]. rewrite <- Ee in *.
    assert (props <> []) as N by (rewrite Ee; discriminate).
    rewrite serialize_compact_object by exact N. cbn [fuelFor].
    rewrite !length_append, length_joinWith_comma
      by (rewrite Ee; discriminate).
    rewrite length_map. cbn [String.length].
    assert (fold_right (fun kv m => Nat.max (fuelFor (snd kv)) m) 1 props
            <= 2 * fold_right (fun p m => String.length p + m) 0
                     (map (fun kv => quoteJSONString (fst kv) ++ ":"
                                     ++ serialize "" "" (snd kv)) props) + 1)%nat as B.
    { clear N Ee. induction IH as [|x l Hx _ IHl]; cbn [fold_right map]; [lia|].
      rewrite !length_append. lia. }
    assert (1 <= List.length props)%nat by (rewrite Ee; cbn; lia).
    lia.
Qed.

Lemma JSON_parse_stringify (v : json) :
  wellFormed v -> JSON_parse (JSON_stringify v) = Some v.
Proof.
  intro W. unfold JSON_parse, JSON_stringify.
  pose proof (readable_compact v W
                (2 * String.length (serialize "" "" v) + 1)%nat "" ""
                (fuelFor_bound v) eq_refl eq_refl) as R.
  cbn [append] in R. rewrite append_nil_r in R. now rewrite R.
Qed.

Lemma wellFormed_toJson (t : Transaction.t) :
  isDecimal (Transaction.valor t) = true -> wellFormed (toJson t).
Proof.
  intro H. unfold toJson. apply wellFormed_object. split; [reflexivity|].
  repeat constructor. exact H.
Qed.

Lemma wellFormed_store (transactions : list Transaction.t) :
  validStore transactions = true -> Forall wellFormed (map toJson transactions).
Proof.
  unfold validStore. rewrite forallb_forall, Forall_forall. intros H v Hv.
  apply in_map_iff in Hv. destruct Hv as (t & <- & Ht).
  apply wellFormed_toJson. now apply H.
Qed.

Lemma stringify_not_empty (l : list json) :
  String.eqb (JSON_stringify (JArray l)) "" = false.
Proof. unfold JSON_stringify. destruct l; reflexivity. Qed.

Lemma load_saved (st page : App.State) :
  Forall wellFormed (App.allTransactions st) ->
  App.localStorage page = App.localStorage (saveTransactions st) ->
  loadTransactions page = Loaded (setTransactions (App.allTransactions st) page).
Proof.
  intros W E. unfold loadTransactions. rewrite E. cbn [saveTransactions App.localStorage].
  rewrite stringify_not_empty, JSON_parse_stringify; [reflexivity|].
  now apply wellFormed_array.
Qed.

(** ** What [JSON.parse] gives is well formed *)

Lemma isDecimal_decimalValue (negative : bool) (int frac : string) (exp : Z) :
  isDecimal (decimalValue negative int frac exp) = true.
Proof.
  rewrite decimalValue_valQ.
  set (m := if negative then - digitsToZ (int ++ frac) else digitsToZ (int ++ frac)).
  set (e := exp - Z.of_nat (String.length frac)).
  apply isDecimal_spec.
  destruct (Z.le_gt_cases 0 e) as [P|N].
  - exists (m * 10 ^ e), 0%nat. cbn [this Q2Qc]. rewrite Qred_correct.
    pose proof (valQ_scale m e e P) as H. rewrite Z.sub_diag in H.
    symmetry. exact H.
  - exists m, (Z.to_nat (- e)). cbn [this Q2Qc]. rewrite Qred_correct.
    replace (- Z.of_nat (Z.to_nat (- e))) with e by lia.
    reflexivity.
Qed.

Lemma parseMagnitude_decimal (negative : bool) (s : string) (n : number) (rest : string) :
  parseMagnitude negative s = Some (n, rest) -> isDecimal n = true.
Proof.
  unfold parseMagnitude. destruct (takeDigits s) as [[|d ds] s2]; [discriminate|].
  destruct (Ascii.eqb d "0" && negb (String.eqb ds "")); [discriminate|].
  destruct (parseFraction s2) as [[frac s3]|]; [|discriminate].
  destruct (parseExponent s3) as [[exp s4]|]; [|discriminate].
  intros [= <- _]. apply isDecimal_decimalValue.
Qed.

Lemma parseNumber_decimal (s : string) (n : number) (rest : string) :
  parseNumber s = Some (n, rest) -> isDecimal n = true.
Proof.
  destruct s as [|c s]; [discriminate|]. cbn [parseNumber].
  destruct (Ascii.eqb c "-"); apply parseMagnitude_decimal.
Qed.

Lemma arrayIndex_inj (k k' : string) (i : Z) :
  arrayIndex k = Some i -> arrayIndex k' = Some i -> k = k'.
Proof.
  unfold arrayIndex.
  destruct (digitsValue k) as [z|]; [|discriminate].
  destruct (String.eqb_spec (digitsOfZ z) k) as [E|_]; [|discriminate].
  destruct (z <? 2 ^ 32 - 1); [|discriminate]. intros [= ->].
  destruct (digitsValue k') as [z'|]; [|discriminate].
  destruct (String.eqb_spec (digitsOfZ z') k') as [E'|_]; [|discriminate].
  destruct (z' <? 2 ^ 32 - 1); [|discriminate]. intros [= ->]. congruence.
Qed.

Lemma replaceProperty_keys (key : string) (v : json) (props props' : list (string * json)) :
  replaceProperty key v props = Some props' -> map fst props' = map fst props.
Proof.
  revert props'. induction props as [|[k w] rest IH]; intro props'; [discriminate|].
  cbn [replaceProperty]. destruct (String.eqb k key).
  - now intros [= <-].
  - destruct (replaceProperty key v rest) as [r|]; [|discriminate].
    cbn [option_map]. intros [= <-]. cbn [map fst]. f_equal. now apply IH.
Qed.

Lemma replaceProperty_absent (key : string) (v : json) (props : list (string * json)) :
  ~ In key (map fst props) -> replaceProperty key v props = None.
Proof.
  induction props as [|[k w] rest IH]; intro H; [reflexivity|].
  cbn [replaceProperty map fst In] in *.
  destruct (String.eqb_spec k key) as [E|_]; [tauto|].
  rewrite IH by tauto. reflexivity.
Qed.

Lemma replaceProperty_present (key : string) (v : json) (props : list (string * json)) :
  replaceProperty key v props = None -> ~ In key (map fst props).
Proof.
  induction props as [|[k w] rest IH]; intros H Hin; [destruct Hin|].
  cbn [replaceProperty map fst In] in *.
  destruct (String.eqb_spec k key) as [E|N]; [discriminate|].
  destruct (replaceProperty key v rest) as [r|]; [discriminate|].
  destruct Hin as [E|Hin]; [now elim N|]. now apply IH.
Qed.

Lemma insertProperty_keys (key : string) (v : json) (props : list (string * json))
    (x : string) :
  In x (map fst (insertProperty key v props)) <-> x = key \/ In x (map fst props).
Proof.
  induction props as [|[k w] rest IH]; cbn [insertProperty map fst In].
  - intuition.
  - destruct (arrayIndex key) as [i|].
    + destruct (arrayIndex k) as [j|].
      * destruct (i <? j); cbn [map fst In]; [intuition|]. rewrite IH. intuition.
      * cbn [map fst In]. intuition.
    + cbn [map fst In]. rewrite IH. intuition.
Qed.

Lemma insertProperty_ordered (key : string) (v : json) (props : list (string * json)) :
  keysOrdered props -> ~ In key (map fst props) ->
  keysOrdered (insertProperty key v props).
Proof.
  unfold keysOrdered.
  induction props as [|[k w] rest IH]; intros [Hs Hn] Hk.
  - cbn. split; repeat constructor. intros [].
  - cbn [map fst] in Hs, Hn, Hk. apply StronglySorted_inv in Hs.
    destruct Hs as [Hs Hall]. inversion Hn as [|? ? Hk' Hn']; subst.
    assert (k <> key) as Hne by (intro E; apply Hk; now left).
    assert (~ In key (map fst rest)) as Hk2 by (intro E; apply Hk; now right).
    destruct (IH (conj Hs Hn') Hk2) as [IHs IHn].
    assert (keyBefore k key ->
            StronglySorted keyBefore (k :: map fst (insertProperty key v rest))
            /\ NoDup (k :: map fst (insertProperty key v rest))) as Hskip.
    { intro B. split.
      - constructor; [exact IHs|]. apply Forall_forall. intros x Hx.
        apply insertProperty_keys in Hx. destruct Hx as [->|Hx]; [exact B|].
        rewrite Forall_forall in Hall. now apply Hall.
      - constructor; [|exact IHn]. intro Hx. apply insertProperty_keys in Hx.
        destruct Hx as [E|Hx]; [now elim Hne|now elim Hk']. }
    assert ((forall x, In x (k :: map fst rest) -> keyBefore key x) ->
            StronglySorted keyBefore (key :: k :: map fst rest)
            /\ NoDup (key :: k :: map fst rest)) as Hfront.
    { intro B. split.
      - constructor; [now constructor|]. now apply Forall_forall.
      - constructor; [exact Hk|exact Hn]. }
    cbn [insertProperty]. unfold keyBefore in Hskip, Hfront.
    destruct (arrayIndex key) as [i|] eqn:Ei.
    + destruct (arrayIndex k) as [j|] eqn:Ej.
      * destruct (Z.ltb_spec i j) as [L|G].
        -- cbn [map fst]. apply Hfront. intros x [<-|Hx]; [now rewrite Ej|].
           rewrite Forall_forall in Hall. specialize (Hall x Hx).
           unfold keyBefore in Hall. rewrite Ej in Hall.
           destruct (arrayIndex x) as [j'|]; [lia|exact I].
        -- cbn [map fst]. apply Hskip.
           assert (i <> j) by (intros ->; apply Hne; now apply (arrayIndex_inj _ _ j)).
           lia.
      * cbn [map fst]. apply Hfront. intros x [<-|Hx]; [now rewrite Ej|].
        rewrite Forall_forall in Hall. specialize (Hall x Hx).
        unfold keyBefore in Hall. rewrite Ej in Hall.
        destruct (arrayIndex x) as [j'|]; [destruct Hall|exact I].
    + cbn [map fst]. apply Hskip. exact I.
Qed.

Lemma setProperty_ordered (props : list (string * json)) (kv : string * json) :
  keysOrdered props -> keysOrdered (setProperty props kv).
Proof.
  intro H. unfold setProperty.
  destruct (replaceProperty (fst kv) (snd kv) props) as [props'|] eqn:E.
  - unfold keysOrdered. now rewrite (replaceProperty_keys _ _ _ _ E).
  - apply insertProperty_ordered; [exact H|].
    now apply (replaceProperty_present _ (snd kv)).
Qed.

Lemma fold_setProperty_ordered (ms acc : list (string * json)) :
  keysOrdered acc -> keysOrdered (fold_left setProperty ms acc).
Proof.
  revert acc. induction ms as [|kv ms IH]; intros acc H; [exact H|].
  cbn [fold_left]. apply IH. now apply setProperty_ordered.
Qed.

Lemma insertProperty_last (key : string) (v : json) (props : list (string * json)) :
  Forall (fun k => keyBefore k key) (map fst props) ->
  ~ In key (map fst props) ->
  insertProperty key v props = (props ++ [(key, v)])%list.
Proof.
  induction props as [|[k w] rest IH]; intros Hall Hk; [reflexivity|].
  cbn [map fst] in Hall, Hk. inversion Hall as [|? ? Hb Hall']; subst.
  cbn [insertProperty app]. unfold keyBefore in Hb.
  assert (~ In key (map fst rest)) as Hk2 by (intro E; apply Hk; now right).
  destruct (arrayIndex key) as [i|] eqn:Ei.
  - destruct (arrayIndex k) as [j|] eqn:Ej; [|destruct Hb].
    destruct (Z.ltb_spec i j) as [L|G]; [lia|].
    f_equal. now apply IH.
  - f_equal. now apply IH.
Qed.

Lemma keysOrdered_app (l1 l2 : list (string * json)) :
  keysOrdered (l1 ++ l2)%list ->
  fold_left setProperty l2 l1 = (l1 ++ l2)%list.
Proof.
  revert l1. induction l2 as [|[k v] l2 IH]; intros l1 H.
  - cbn [fold_left]. now rewrite app_nil_r.
  - cbn [fold_left].
    assert (setProperty l1 (k, v) = (l1 ++ [(k, v)])%list) as E.
    { destruct H as [Hs Hn]. rewrite map_app in Hs, Hn. cbn [map fst] in Hs, Hn.
      assert (~ In k (map fst l1)) as Hk.
      { intro Hin. apply NoDup_remove_2 in Hn. apply Hn. apply in_or_app. now left. }
      unfold setProperty. cbn [fst snd].
      rewrite replaceProperty_absent by exact Hk.
      apply insertProperty_last; [|exact Hk].
      clear Hn Hk. induction l1 as [|[k1 v1] l1 IHl]; [constructor|].
      cbn [map fst app] in Hs |- *. apply StronglySorted_inv in Hs.
      destruct Hs as [Hs Hall]. constructor; [|now apply IHl].
      rewrite Forall_forall in Hall. apply Hall. apply in_or_app. right. now left. }
    rewrite E. rewrite IH; rewrite <- app_assoc; [reflexivity|exact H].
Qed.

(** The property list that [JSON.parse] builds for an object is one that
    it would build again from its own members. *)
Lemma normalKeys_parsed (ms : list (string * json)) :
  normalKeys (fold_left setProperty ms []).
Proof.
  unfold normalKeys. apply (keysOrdered_app []).
  cbn [app]. apply fold_setProperty_ordered. split; constructor.
Qed.

Lemma replaceProperty_values (P : json -> Prop) (key : string) (v : json)
    (props props' : list (string * json)) :
  P v -> Forall (fun kv => P (snd kv)) props ->
  replaceProperty key v props = Some props' ->
  Forall (fun kv => P (snd kv)) props'.
Proof.
  intros Hv. revert props'.
  induction props as [|[k w] rest IH]; intros props' Hall; [discriminate|].
  inversion Hall as [|? ? Hw Hrest]; subst.
  cbn [replaceProperty]. destruct (String.eqb k key).
  - intros [= <-]. now constructor.
  - destruct (replaceProperty key v rest) as [r|]; [|discriminate].
    cbn [option_map]. intros [= <-]. constructor; [exact Hw|now apply IH].
Qed.

Lemma insertProperty_values (P : json -> Prop) (key : string) (v : json)
    (props : list (string * json)) :
  P v -> Forall (fun kv => P (snd kv)) props ->
  Forall (fun kv => P (snd kv)) (insertProperty key v props).
Proof.
  intros Hv. induction props as [|[k w] rest IH]; intro Hall.
  - now repeat constructor.
  - inversion Hall as [|? ? Hw Hrest]; subst. cbn [insertProperty].
    destruct (arrayIndex key); [destruct (arrayIndex k); [destruct (_ <? _)|]|];
      repeat (constructor; try assumption); now apply IH.
Qed.

Lemma fold_setProperty_values (P : json -> Prop) (ms acc : list (string * json)) :
  Forall (fun kv => P (snd kv)) ms -> Forall (fun kv => P (snd kv)) acc ->
  Forall (fun kv => P (snd kv)) (fold_left setProperty ms acc).
Proof.
  revert acc. induction ms as [|kv ms IH]; intros acc Hms Hacc; [exact Hacc|].
  inversion Hms as [|? ? Hkv Hms']; subst. cbn [fold_left].
  apply IH; [exact Hms'|]. unfold setProperty.
  destruct (replaceProperty (fst kv) (snd kv) acc) as [props'|] eqn:E.
  - now apply (replaceProperty_values P _ _ _ _ Hkv Hacc E).
  - now apply insertProperty_values.
Qed.

Lemma parse_wellFormed (fuel : nat) :
  (forall s v rest, parseValue fuel s = Some (v, rest) -> wellFormed v)
  /\ (forall s vs rest, parseElements fuel s = Some (vs, rest) -> Forall wellFormed vs)
  /\ (forall s ms rest, parseMembers fuel s = Some (ms, rest) ->
        Forall (fun kv => wellFormed (snd kv)) ms).
Proof.
  induction fuel as [|f (IHv & IHe & IHm)]; [repeat split; discriminate|].
  split; [|split].
  - intros s v rest. cbn [parseValue].
    destruct (skipWhitespace s) as [|c t]; [discriminate|].
    destruct (Ascii.eqb c "[").
    { destruct (skipWhitespace t) as [|c' t']; [discriminate|].
      destruct (Ascii.eqb c' "]"); [now intros [= <- _]|].
      destruct (parseElements f t) as [[vs r]|] eqn:E; [|discriminate].
      intros [= <- _]. apply wellFormed_array. now apply (IHe _ _ _ E). }
    destruct (Ascii.eqb c "{").
    { destruct (skipWhitespace t) as [|c' t']; [discriminate|].
      destruct (Ascii.eqb c' "}").
      { intros [= <- _]. apply wellFormed_object. split; [reflexivity|constructor]. }
      destruct (parseMembers f t) as [[ms r]|] eqn:E; [|discriminate].
      intros [= <- _]. apply wellFormed_object. split.
      - apply normalKeys_parsed.
      - apply fold_setProperty_values; [now apply (IHm _ _ _ E)|constructor]. }
    destruct (Ascii.eqb c dquote).
    { destruct (parseChars t) as [[body r]|]; [|discriminate].
      now intros [= <- _]. }
    destruct (Ascii.eqb c "t").
    { destruct (startsWith "true" (String c t)); [|discriminate].
      cbn [option_map]. now intros [= <- _]. }
    destruct (Ascii.eqb c "f").
    { destruct (startsWith "false" (String c t)); [|discriminate].
      cbn [option_map]. now intros [= <- _]. }
    destruct (Ascii.eqb c "n").
    { destruct (startsWith "null" (String c t)); [|discriminate].
      cbn [option_map]. now intros [= <- _]. }
    destruct (parseNumber (String c t)) as [[n r]|] eqn:E; [|discriminate].
    intros [= <- _]. cbn [wellFormed]. now apply (parseNumber_decimal _ _ _ E).
  - intros s vs rest. cbn [parseElements].
    destruct (parseValue f s) as [[v r]|] eqn:E; [|discriminate].
    destruct (skipWhitespace r) as [|c t]; [discriminate|].
    destruct (Ascii.eqb c ",").
    { destruct (parseElements f t) as [[vs' r']|] eqn:E'; [|discriminate].
      intros [= <- _]. constructor; [now apply (IHv _ _ _ E)|now apply (IHe _ _ _ E')]. }
    destruct (Ascii.eqb c "]"); [|discriminate].
    intros [= <- _]. constructor; [now apply (IHv _ _ _ E)|constructor].
  - intros s ms rest. cbn [parseMembers].
    destruct (skipWhitespace s) as [|q t]; [discriminate|].
    destruct (Ascii.eqb q dquote); [|discriminate].
    destruct (parseChars t) as [[key r1]|]; [|discriminate].
    destruct (skipWhitespace r1) as [|colon r2]; [discriminate|].
    destruct (Ascii.eqb colon ":"); [|discriminate].
    destruct (parseValue f r2) as [[v r3]|] eqn:E; [|discriminate].
    destruct (skipWhitespace r3) as [|c r4]; [discriminate|].
    destruct (Ascii.eqb c ",").
    { destruct (parseMembers f r4) as [[ms' r5]|] eqn:E'; [|discriminate].
      intros [= <- _]. constructor; [now apply (IHv _ _ _ E)|now apply (IHm _ _ _ E')]. }
    destruct (Ascii.eqb c "}"); [|discriminate].
    intros [= <- _]. constructor; [now apply (IHv _ _ _ E)|constructor].
Qed.

Lemma JSON_parse_wellFormed (text : string) (v : json) :
  JSON_parse text = Some v -> wellFormed v.
Proof.
  unfold JSON_parse.
  destruct (parseValue (2 * String.length text + 1) text) as [[v' rest]|] eqn:E;
    [|discriminate].
  destruct (skipWhitespace rest); [|discriminate]. intros [= <-].
  now apply (proj1 (parse_wellFormed _) _ _ _ E).
Qed.

Lemma loaded_wellFormed (prior st : App.State) :
  loadTransactions prior = Loaded st -> Forall wellFormed (App.allTransactions st).
Proof.
  unfold loadTransactions.
  destruct (App.localStorage prior) as [text|]; [|intros [= <-]; constructor].
  destruct (String.eqb text ""); [intros [= <-]; constructor|].
  destruct (JSON_parse text) as [v|] eqn:E; [|discriminate].
  apply JSON_parse_wellFormed in E.
  destruct v; try discriminate. intros [= <-].
  cbn [setTransactions App.allTransactions]. now apply wellFormed_array.
Qed.

(** ** Saving and loading *)

(** X12. What [saveTransactions] writes, [loadTransactions] reads back.
    For a store that holds records of the data model with decimal amounts,
    or that was itself loaded from a stored text whose numbers are within
    the range of binary64, or more generally that holds well-formed
    values, a page that finds the saved item in its storage loads the very
    list that was saved. *)
Theorem save_then_load (st page prior : App.State) :
  (exists transactions,
      validStore transactions = true
      /\ App.allTransactions st = map toJson transactions)
  \/ (loadTransactions prior = Loaded st
      /\ forallb withinBinary64 (App.allTransactions st) = true)
  \/ Forall wellFormed (App.allTransactions st) ->
  App.localStorage page = App.localStorage (saveTransactions st) ->
  loadTransactions page = Loaded (setTransactions (App.allTransactions st) page).
Proof.
  intros H E. apply load_saved; [|exact E].
  destruct H as [(transactions & V & ->)|[[L _]|W]].
  - now apply wellFormed_store.
  - now apply (loaded_wellFormed prior).
  - exact W.
Qed.

Lemma save_then_load_witness :
  loadTransactions (saveTransactions sampleState)
  = Loaded (setTransactions (App.allTransactions sampleState)
              (saveTransactions sampleState)).
Proof.
  apply (save_then_load sampleState (saveTransactions sampleState) sampleState);
    [|reflexivity].
  left. exists sampleStore. split; reflexivity.
Defined.

(** ** Recording a transaction *)

Lemma newTransaction_toJson (parseFloat : string -> number) (now : Z)
    (clientId type value date : string) :
  newTransaction parseFloat now clientId type value date
  = toJson (Transaction.mk ("trans_" ++ numberToString (#now)%js) clientId type
              (parseFloat value) date).
Proof. reflexivity. Qed.

(** X13. What a recorded transaction does to the balances.  In a store of
    records of the data model, [addTransaction] of an entrada raises the
    balance of its client by the amount that [parseFloat] reads, a saida
    lowers it by that amount, any other [type] leaves it as it is, and the
    balance of every other client is unchanged. *)
Theorem addTransaction_balance (parseFloat : string -> number) (now : Z)
    (clientId type value date : string) (st : App.State)
    (transactions : list Transaction.t) :
  map asTransaction (App.allTransactions st) = map Some transactions ->
  let st' := addTransaction parseFloat now clientId type value date st in
  let t := Transaction.mk ("trans_" ++ numberToString (#now)%js) clientId type
             (parseFloat value) date in
  map asTransaction (App.allTransactions st') = map Some (transactions ++ [t])%list
  /\ (forall other, other <> clientId ->
        calculateClientBalance (transactions ++ [t])%list other
        = calculateClientBalance transactions other)
  /\ (type = "entrada" ->
      calculateClientBalance (transactions ++ [t])%list clientId
      = (calculateClientBalance transactions clientId + parseFloat value)%js)
  /\ (type = "saida" ->
      calculateClientBalance (transactions ++ [t])%list clientId
      = (calculateClientBalance transactions clientId - parseFloat value)%js)
  /\ (type <> "entrada" -> type <> "saida" ->
      calculateClientBalance (transactions ++ [t])%list clientId
      = calculateClientBalance transactions clientId).
Proof.
  intros Hst st' t. split; [|split; [|split; [|split]]].
  - unfold st', addTransaction.
    cbn [saveTransactions setTransactions App.allTransactions].
    rewrite !map_app, Hst, newTransaction_toJson. cbn [map].
    now rewrite asTransaction_toJson.
  - intros other Ho. rewrite calculateClientBalance_snoc. cbn [t Transaction.clienteId].
    destruct (String.eqb_spec clientId other) as [E|_]; [now elim Ho|reflexivity].
  - intros ->. rewrite calculateClientBalance_snoc. cbn [t Transaction.clienteId].
    now rewrite String.eqb_refl.
  - intros ->. rewrite calculateClientBalance_snoc. cbn [t Transaction.clienteId].
    now rewrite String.eqb_refl.
  - intros H1 H2. rewrite calculateClientBalance_snoc. cbn [t Transaction.clienteId].
    rewrite String.eqb_refl. unfold balanceStep, t. cbn [Transaction.tipo].
    destruct (String.eqb_spec type "entrada") as [E|_]; [now elim H1|].
    destruct (String.eqb_spec type "saida") as [E|_]; [now elim H2|reflexivity].
Qed.

Lemma addTransaction_balance_witness :
  calculateClientBalance
    (sampleStore ++ [Transaction.mk ("trans_" ++ numberToString (#1700000000000)%js)
                       "c2" "entrada" (#25)%js "2024-03-01"])%list "c2"
  = (calculateClientBalance sampleStore "c2" + #25)%js.
Proof.
  refine (proj1 (proj2 (proj2
            (addTransaction_balance (fun _ => (#25)%js) 1700000000000
               "c2" "entrada" "25" "2024-03-01" sampleState sampleStore _))) eq_refl).
  reflexivity.
Defined.

Lemma serialize_snoc_same (l : list json) (a b : json) :
  serialize "" "" a = serialize "" "" b ->
  serialize "" "" (JArray (l ++ [a])) = serialize "" "" (JArray (l ++ [b])).
Proof.
  intro E. rewrite !serialize_compact_array by (destruct l; discriminate).
  now rewrite !map_app; cbn [map]; rewrite E.
Qed.

(** X14. A recorded transaction survives a reload of the page.  When the
    store holds well-formed values and [parseFloat] reads a decimal number,
    a page that finds the item written by [addTransaction] loads the store
    with the new record at its end.  When [parseFloat] gives [NaN], the
    record is written with [null] for its [valor], and that is what the
    next page loads. *)
Theorem addTransaction_survives_reload (parseFloat : string -> number) (now : Z)
    (clientId type value date : string) (st page : App.State) :
  Forall wellFormed (App.allTransactions st) ->
  let st' := addTransaction parseFloat now clientId type value date st in
  App.localStorage page = App.localStorage st' ->
  (isDecimal (parseFloat value) = true ->
   loadTransactions page = Loaded (setTransactions (App.allTransactions st') page))
  /\ (parseFloat value = NaN ->
      loadTransactions page
      = Loaded (setTransactions
                  (App.allTransactions st
                   ++ [nullValorRecord ("trans_" ++ numberToString (#now)%js)
                         clientId type date])%list
                  page)).
Proof.
  intros W st' E. split.
  - intro Hd. apply load_saved; [|exact E].
    unfold addTransaction. cbn [saveTransactions setTransactions App.allTransactions].
    apply Forall_app. split; [exact W|]. constructor; [|constructor].
    rewrite newTransaction_toJson. now apply wellFormed_toJson.
  - intro Hnan. unfold loadTransactions. rewrite E. unfold st', addTransaction.
    cbn [saveTransactions setTransactions App.allTransactions App.localStorage].
    rewrite stringify_not_empty. unfold JSON_stringify.
    rewrite (serialize_snoc_same _ _
               (nullValorRecord ("trans_" ++ numberToString (#now)%js)
                  clientId type date)).
    + fold (JSON_stringify
              (JArray (App.allTransactions st
                       ++ [nullValorRecord ("trans_" ++ numberToString (#now)%js)
                             clientId type date]))).
      rewrite JSON_parse_stringify; [reflexivity|].
      apply wellFormed_array. apply Forall_app. split; [exact W|].
      constructor; [|constructor]. unfold nullValorRecord.
      apply wellFormed_object. split; [reflexivity|]. repeat constructor.
    + unfold newTransaction, nullValorRecord.
      cbn [serialize map fst snd String.eqb]. now rewrite Hnan.
Qed.

Lemma addTransaction_survives_reload_witness :
  loadTransactions
    (addTransaction (fun _ => (#25)%js) 1700000000000 "c2" "entrada" "25" "2024-03-01"
       sampleState)
  = Loaded
      (setTransactions
         (App.allTransactions
            (addTransaction (fun _ => (#25)%js) 1700000000000 "c2" "entrada" "25"
               "2024-03-01" sampleState))
         (addTransaction (fun _ => (#25)%js) 1700000000000 "c2" "entrada" "25"
            "2024-03-01" sampleState)).
Proof.
  refine (proj1 (addTransaction_survives_reload (fun _ => (#25)%js) 1700000000000
                   "c2" "entrada" "25" "2024-03-01" sampleState
                   (addTransaction (fun _ => (#25)%js) 1700000000000 "c2" "entrada"
                      "25" "2024-03-01" sampleState) _ eq_refl) eq_refl).
  apply wellFormed_store. reflexivity.
Defined.

(** ** Importing and loading *)

(** X15. An accepted import survives a reload: when the chosen file holds
    an array whose numbers are within the range of binary64, the page that
    is loaded after the import starts with the very list that the import
    put in the store.  [JSON.parse] of the text that [JSON.stringify]
    writes for such a parsed array gives that array again. *)
Theorem import_survives_reload (text : string) (importedData : list json)
    (st page : App.State) :
  JSON_parse text = Some (JArray importedData) ->
  forallb withinBinary64 importedData = true ->
  App.localStorage page = App.localStorage (importOnLoad text st) ->
  App.allTransactions (importOnLoad text st) = importedData
  /\ loadTransactions page = Loaded (setTransactions importedData page)
  /\ JSON_parse (JSON_stringify (JArray importedData)) = Some (JArray importedData).
Proof.
  intros Hp _ E. pose proof (JSON_parse_wellFormed _ _ Hp) as W.
  unfold importOnLoad in *. rewrite Hp in *.
  cbn [showAlert saveTransactions setTransactions App.allTransactions App.localStorage]
    in *.
  split; [reflexivity|]. split; [|now apply JSON_parse_stringify].
  unfold loadTransactions. rewrite E, stringify_not_empty.
  now rewrite JSON_parse_stringify.
Qed.

Lemma import_survives_reload_witness :
  loadTransactions
    (importOnLoad (App.ioModalTextarea (handleExport sampleState))
       (App.mkState [] None "" None))
  = Loaded
      (setTransactions (App.allTransactions sampleState)
         (importOnLoad (App.ioModalTextarea (handleExport sampleState))
            (App.mkState [] None "" None))).
Proof.
  refine (proj1 (proj2
            (import_survives_reload
               (App.ioModalTextarea (handleExport sampleState))
               (App.allTransactions sampleState)
               (App.mkState [] None "" None)
               (importOnLoad (App.ioModalTextarea (handleExport sampleState))
                  (App.mkState [] None "" None))
               _ _ eq_refl))).
  - vm_compute. reflexivity.
  - vm_compute. reflexivity.
Defined.

(** * The date of today *)

(** ** From a day number to a calendar date *)

Lemma yearFromDay_bracket (n : Z) :
  dayFromYear (yearFromDay n) <= n < dayFromYear (yearFromDay n + 1).
Proof.
  unfold yearFromDay. set (y := 1970 + 400 * n / 146097).
  assert (dayFromYear (y - 1) <= n) as A.
  { unfold dayFromYear, y. Z.div_mod_to_equations. lia. }
  assert (n < dayFromYear (y + 2)) as B.
  { unfold dayFromYear, y. Z.div_mod_to_equations. lia. }
  destruct (Z.ltb_spec n (dayFromYear y)) as [L|G].
  - replace (y - 1 + 1) with y by lia. lia.
  - destruct (Z.leb_spec (dayFromYear (y + 1)) n) as [L'|G'].
    + replace (y + 1 + 1) with (y + 2) by lia. lia.
    + lia.
Qed.

Lemma dayFromYear_le (y y' : Z) : y <= y' -> dayFromYear y <= dayFromYear y'.
Proof.
  intro H. destruct (Z.eq_dec y y') as [->|N]; [lia|].
  pose proof (dayFromYear_lt y y' ltac:(lia)). destruct (isLeapYear y); lia.
Qed.

Lemma yearFromDay_range (n : Z) :
  dayFromYear 0 <= n < dayFromYear 10000 -> 0 <= yearFromDay n <= 9999.
Proof.
  intro H. pose proof (yearFromDay_bracket n) as B. split.
  - destruct (Z.le_gt_cases 0 (yearFromDay n)) as [L|G]; [exact L|].
    pose proof (dayFromYear_le (yearFromDay n + 1) 0 ltac:(lia)). lia.
  - destruct (Z.le_gt_cases (yearFromDay n) 9999) as [L|G]; [exact L|].
    pose proof (dayFromYear_le 10000 (yearFromDay n) ltac:(lia)). lia.
Qed.

Lemma monthFromDay_spec (y dayWithinYear : Z) :
  0 <= dayWithinYear < 365 + (if isLeapYear y then 1 else 0) ->
  let m := monthFromDay y dayWithinYear in
  1 <= m <= 12
  /\ daysBeforeMonth y m <= dayWithinYear < daysBeforeMonth y m + daysInMonth y m.
Proof.
  intro H. unfold monthFromDay, daysBeforeMonth, daysInMonth.
  destruct (isLeapYear y);
    repeat match goal with
           | |- context [?a <? ?b] => destruct (Z.ltb_spec a b)
           end;
    cbn -[Z.add Z.sub] in *; lia.
Qed.

Lemma civilFromDay_spec (n : Z) :
  dayFromYear 0 <= n < dayFromYear 10000 ->
  validDate (civilFromDay n) = true /\ dayNumber (civilFromDay n) = n.
Proof.
  intro H. pose proof (yearFromDay_range n H) as Hy.
  pose proof (yearFromDay_bracket n) as B.
  rewrite dayFromYear_succ in B.
  unfold civilFromDay. set (y := yearFromDay n) in *.
  set (w := n - dayFromYear y).
  destruct (monthFromDay_spec y w ltac:(unfold w; lia)) as [Hm Hd].
  cbv zeta in Hm, Hd. set (m := monthFromDay y w) in *. split.
  - apply validDate_spec. cbn [year month day]. lia.
  - unfold dayNumber. cbn [year month day]. unfold w. lia.
Qed.

(** ** Digits of fixed width *)

Lemma digitsFrom_nonneg (s : string) (a z : Z) :
  0 <= a -> digitsFrom a s = Some z -> 0 <= z.
Proof.
  revert a. induction s as [|c s IH]; intros a Ha; cbn [digitsFrom].
  - now intros [= <-].
  - unfold digitValue.
    destruct ((48 <=? Z.of_nat (nat_of_ascii c)) && (Z.of_nat (nat_of_ascii c) <=? 57))
      eqn:E; [|discriminate].
    apply andb_true_iff in E. destruct E as [E1 E2].
    apply Z.leb_le in E1. apply IH. lia.
Qed.

Lemma length_digitsOfZ (n : Z) (w : nat) :
  0 <= n < 10 ^ Z.of_nat w -> (1 <= w)%nat ->
  (String.length (digitsOfZ n) <= w)%nat.
Proof.
  intros Hn Hw. destruct (Z.eq_dec n 0) as [->|N]; [cbn; lia|].
  destruct (digitsOfZ_spec n ltac:(lia)) as (Hall & Hval & Hhead).
  destruct (Hhead ltac:(lia)) as (c & rest & E & Hc).
  rewrite E in *. cbn [allDigits] in Hall. apply andb_true_iff in Hall.
  destruct Hall as [Dc Hrest].
  specialize (Hval 0 (Z.le_refl 0)). cbn [digitsFrom] in Hval.
  destruct (digitValue c) as [v|] eqn:Ev; [|discriminate].
  rewrite (digitsFrom_allDigits rest Hrest) in Hval.
  assert (1 <= v) as Hv.
  { unfold digitValue in Ev.
    destruct ((48 <=? Z.of_nat (nat_of_ascii c)) && (Z.of_nat (nat_of_ascii c) <=? 57))
      eqn:B; [|discriminate].
    injection Ev as <-.
    assert (Z.of_nat (nat_of_ascii c) <> 48); [|apply andb_true_iff in B; lia].
    intro F. apply (f_equal Z.to_nat) in F. rewrite Nat2Z.id in F.
    apply (f_equal ascii_of_nat) in F. rewrite ascii_nat_embedding in F.
    subst c. discriminate Hc. }
  assert (0 <= digitsToZ rest) as Hr.
  { pose proof (digitsFrom_allDigits rest Hrest 0) as F.
    apply (digitsFrom_nonneg rest 0); [lia|]. rewrite F. f_equal; lia. }
  injection Hval as Hval. cbn [String.length] in *.
  assert (10 ^ Z.of_nat (String.length rest) < 10 ^ Z.of_nat w) as P.
  { assert (0 < 10 ^ Z.of_nat (String.length rest)) by (apply Z.pow_pos_nonneg; lia).
    nia. }
  apply Z.pow_lt_mono_r_iff in P; lia.
Qed.

Lemma pad_spec (w : nat) (n : Z) :
  0 <= n < 10 ^ Z.of_nat w -> (1 <= w)%nat ->
  String.length (pad w n) = w
  /\ allDigits (pad w n) = true
  /\ digitsValue (pad w n) = Some n.
Proof.
  intros Hn Hw. pose proof (length_digitsOfZ n w Hn Hw) as L.
  destruct (digitsOfZ_spec n ltac:(lia)) as (Hall & Hval & _).
  destruct (zeros_spec (w - String.length (digitsOfZ n))) as (Z1 & Z2 & Z3).
  unfold pad. cbv zeta.
  assert (String.length (zeros (w - String.length (digitsOfZ n)) ++ digitsOfZ n) = w)
    as Hlen by (rewrite length_append, Z2; lia).
  split; [exact Hlen|]. split.
  - now rewrite allDigits_append, Z1, Hall.
  - unfold digitsValue.
    destruct (zeros (w - String.length (digitsOfZ n)) ++ digitsOfZ n) eqn:E.
    + cbn [String.length] in Hlen. lia.
    + rewrite <- E, digitsFrom_append, Z3, Hval by lia. f_equal; lia.
Qed.

Lemma string_length_2 (s : string) :
  String.length s = 2%nat -> exists a b, s = String a (String b "").
Proof.
  destruct s as [|a [|b [|c s]]]; try discriminate. eauto.
Qed.

Lemma string_length_4 (s : string) :
  String.length s = 4%nat ->
  exists a b c d, s = String a (String b (String c (String d ""))).
Proof.
  destruct s as [|a [|b [|c [|d [|e s]]]]]; try discriminate. eauto 6.
Qed.

Lemma digit_not_T (c : ascii) : isDigit c = true -> Ascii.eqb c "T" = false.
Proof. destruct c as [[] [] [] [] [] [] [] []]; intro H; try discriminate H; reflexivity. Qed.

Lemma validDate_month_day (d : CalendarDate) :
  validDate d = true ->
  0 <= year d < 10 ^ Z.of_nat 4 /\ 0 <= month d < 10 ^ Z.of_nat 2
  /\ 0 <= day d < 10 ^ Z.of_nat 2.
Proof.
  intro V. apply validDate_spec in V. destruct V as (Hy & Hm & Hd).
  assert (daysInMonth (year d) (month d) <= 31).
  { unfold daysInMonth.
    destruct (month d =? 2); [destruct (isLeapYear (year d)); lia|].
    destruct ((month d =? 4) || (month d =? 6) || (month d =? 9) || (month d =? 11));
      lia. }
  change (10 ^ Z.of_nat 4) with 10000. change (10 ^ Z.of_nat 2) with 100. lia.
Qed.

(** The date in the form ['yyyy-mm-dd'] is read back by the reader of the
    [Date] constructor. *)
Lemma parseCalendarDate_pad (d : CalendarDate) :
  validDate d = true ->
  parseCalendarDate (pad 4 (year d) ++ "-" ++ pad 2 (month d) ++ "-" ++ pad 2 (day d))
  = Some d.
Proof.
  intro V. destruct (validDate_month_day d V) as (Hy & Hm & Hd).
  destruct (pad_spec 4 (year d) Hy ltac:(lia)) as (Ly & _ & Vy).
  destruct (pad_spec 2 (month d) Hm ltac:(lia)) as (Lm & _ & Vm).
  destruct (pad_spec 2 (day d) Hd ltac:(lia)) as (Ld & _ & Vd).
  destruct (string_length_4 _ Ly) as (y1 & y2 & y3 & y4 & Ey).
  destruct (string_length_2 _ Lm) as (m1 & m2 & Em).
  destruct (string_length_2 _ Ld) as (d1 & d2 & Ed).
  rewrite Ey, Em, Ed in *. unfold parseCalendarDate.
  cbn [append String.length Nat.eqb negb substring String.eqb Ascii.eqb Bool.eqb].
  rewrite Vy, Vm, Vd. destruct d as [y m dd]. cbn [year month day] in *.
  now rewrite V.
Qed.

Lemma getTodayDate_pad (now : Z) :
  dayFromYear 0 * msPerDay <= now < dayFromYear 10000 * msPerDay ->
  let d := civilFromDay (now / msPerDay) in
  getTodayDate now = pad 4 (year d) ++ "-" ++ pad 2 (month d) ++ "-" ++ pad 2 (day d).
Proof.
  intros H d.
  assert (dayFromYear 0 <= now / msPerDay < dayFromYear 10000) as Hn.
  { unfold msPerDay in *. Z.div_mod_to_equations. lia. }
  destruct (civilFromDay_spec _ Hn) as [V _]. fold d in V.
  destruct (validDate_month_day d V) as (Hy & Hm & Hd).
  destruct (pad_spec 4 (year d) Hy ltac:(lia)) as (Ly & Ay & _).
  destruct (pad_spec 2 (month d) Hm ltac:(lia)) as (Lm & Am & _).
  destruct (pad_spec 2 (day d) Hd ltac:(lia)) as (Ld & Ad & _).
  unfold getTodayDate, toISOString. fold d.
  apply validDate_spec in V. destruct V as (Yr & _ & _).
  replace ((0 <=? year d) && (year d <=? 9999)) with true
    by (symmetry; apply andb_true_iff; split; apply Z.leb_le; lia).
  destruct (string_length_4 _ Ly) as (y1 & y2 & y3 & y4 & Ey).
  destruct (string_length_2 _ Lm) as (m1 & m2 & Em).
  destruct (string_length_2 _ Ld) as (d1 & d2 & Ed).
  rewrite Ey, Em, Ed in *. cbn [allDigits] in Ay, Am, Ad.
  repeat match goal with
         | H : _ && _ = true |- _ => apply andb_true_iff in H; destruct H
         end.
  cbn [append beforeFirst].
  repeat match goal with
         | H : isDigit ?c = true |- context [Ascii.eqb ?c "T"] =>
             rewrite (digit_not_T c H)
         end.
  reflexivity.
Qed.

(** ** [getTodayDate] *)

(** X16. The date that the transaction form proposes is the calendar day
    of the clock in UTC, written as ['yyyy-mm-dd'] (for a clock within the
    years 0 to 9999): the date reader accepts it, [parseDate] reads it as
    the local midnight of that day, and that day is the day of the local
    calendar only while the local time of day, counted from the UTC
    midnight, stays within the UTC day. *)
Theorem getTodayDate_spec (now : Z) :
  dayFromYear 0 * msPerDay <= now < dayFromYear 10000 * msPerDay ->
  exists d,
    parseCalendarDate (getTodayDate now) = Some d
    /\ dayNumber d = now / msPerDay
    /\ (forall LocalTZA,
          parseDate LocalTZA (getTodayDate now)
          = (#(now / msPerDay * msPerDay - LocalTZA))%js)
    /\ (forall LocalTZA,
          dayNumber d = (now + LocalTZA) / msPerDay
          <-> 0 <= now mod msPerDay + LocalTZA < msPerDay).
Proof.
  intro H.
  assert (dayFromYear 0 <= now / msPerDay < dayFromYear 10000) as Hn.
  { unfold msPerDay in *. Z.div_mod_to_equations. lia. }
  destruct (civilFromDay_spec _ Hn) as [V D].
  exists (civilFromDay (now / msPerDay)).
  assert (parseCalendarDate (getTodayDate now) = Some (civilFromDay (now / msPerDay)))
    as P by (rewrite getTodayDate_pad by exact H; now apply parseCalendarDate_pad).
  split; [exact P|]. split; [exact D|]. split.
  - intro LocalTZA. now rewrite (parseDate_valid LocalTZA _ _ P), D.
  - intro LocalTZA. rewrite D. unfold msPerDay. Z.div_mod_to_equations. lia.
Qed.

Lemma getTodayDate_spec_witness :
  exists d,
    parseCalendarDate (getTodayDate 1705100000000) = Some d
    /\ dayNumber d = 1705100000000 / msPerDay.
Proof.
  destruct (getTodayDate_spec 1705100000000) as (d & P & D & _).
  - vm_compute. split; [discriminate|reflexivity].
  - exists d. split; assumption.
Defined.

(** * Presentation *)

(** ** Cards and the commission percentage *)

Section CardFacts.

Variable formatBRL : number -> string.
Variable toLocaleDateString : number -> string.
Variable LocalTZA : Z.

Lemma renderClientCard_Some (allTransactions : list Transaction.t)
    (r : ClientWithSaldo) :
  Client.comissaoPct (client r) <> None ->
  exists card,
    renderClientCard formatBRL toLocaleDateString LocalTZA allTransactions r
    = Some card.
Proof.
  intro H. unfold renderClientCard.
  destruct (Client.comissaoPct (client r)); [eauto|now elim H].
Qed.

Lemma appendCards_complete (allTransactions : list Transaction.t)
    (results : list ClientWithSaldo) (appended : list Card.t) :
  (forall r, In r results -> Client.comissaoPct (client r) <> None) ->
  exists cards,
    appendCards formatBRL toLocaleDateString LocalTZA allTransactions results
      appended
    = Rendered (Cards (appended ++ cards))
    /\ Forall2 (fun r card =>
                  renderClientCard formatBRL toLocaleDateString LocalTZA
                    allTransactions r = Some card)
         results cards.
Proof.
  revert appended. induction results as [|r rest IH]; intros appended H.
  - exists []. rewrite app_nil_r. split; [reflexivity|constructor].
  - destruct (renderClientCard_Some allTransactions r) as [card E];
      [apply H; now left|].
    destruct (IH (appended ++ [card])%list) as (cards & E' & F);
      [intros r' Hr'; apply H; now right|].
    exists (card :: cards). cbn [appendCards]. rewrite E, E', <- app_assoc.
    split; [reflexivity|now constructor].
Qed.

Lemma appendCards_interrupted (allTransactions : list Transaction.t)
    (before after : list ClientWithSaldo) (r : ClientWithSaldo)
    (appended : list Card.t) :
  (forall r', In r' before -> Client.comissaoPct (client r') <> None) ->
  Client.comissaoPct (client r) = None ->
  exists cards,
    appendCards formatBRL toLocaleDateString LocalTZA allTransactions
      (before ++ r :: after)%list appended
    = Interrupted (appended ++ cards)
    /\ Forall2 (fun r card =>
                  renderClientCard formatBRL toLocaleDateString LocalTZA
                    allTransactions r = Some card)
         before cards.
Proof.
  revert appended. induction before as [|b before IH]; intros appended H Hr.
  - exists []. rewrite app_nil_r. cbn [app appendCards].
    unfold renderClientCard. rewrite Hr. split; [reflexivity|constructor].
  - destruct (renderClientCard_Some allTransactions b) as [card E];
      [apply H; now left|].
    destruct (IH (appended ++ [card])%list) as (cards & E' & F);
      [intros r' Hr'; apply H; now right|exact Hr|].
    exists (card :: cards). cbn [app appendCards]. rewrite E, E', <- app_assoc.
    split; [reflexivity|now constructor].
Qed.

(** X17. A client without [comissaoPct], which the dashboard counts with
    a percentage of 0, cannot be rendered: its card throws.  The page shows
    the cards of all results, in order, when each of them has a
    [comissaoPct], and the message for an empty result; at the first result
    without one the pass is interrupted, with the cards of the results
    before it on the page and none after. *)
Theorem cards_need_comissaoPct (allClients : list Client.t)
    (allTransactions : list Transaction.t) (query balanceFilter : string) :
  let results := refreshSearchResults allClients allTransactions query balanceFilter in
  let view :=
    showSearchResults formatBRL toLocaleDateString LocalTZA
      allClients allTransactions query balanceFilter in
  (results = [] -> view = Rendered NenhumClienteEncontrado)
  /\ (results <> [] ->
      (forall r, In r results -> Client.comissaoPct (client r) <> None) ->
      exists cards,
        view = Rendered (Cards cards)
        /\ Forall2 (fun r card =>
                      renderClientCard formatBRL toLocaleDateString LocalTZA
                        allTransactions r = Some card)
             results cards)
  /\ (forall before r after,
        results = (before ++ r :: after)%list ->
        (forall r', In r' before -> Client.comissaoPct (client r') <> None) ->
        Client.comissaoPct (client r) = None ->
        renderClientCard formatBRL toLocaleDateString LocalTZA allTransactions r
        = None
        /\ comissaoPctOrZero (client r) = (#0)%js
        /\ exists cards,
             view = Interrupted cards
             /\ Forall2 (fun r card =>
                           renderClientCard formatBRL toLocaleDateString LocalTZA
                             allTransactions r = Some card)
                  before cards).
Proof.
  intros results view. unfold view, showSearchResults. fold results.
  split; [|split].
  - now intros ->.
  - intros N H. destruct (appendCards_complete allTransactions results [] H)
      as (cards & E & F).
    exists cards. cbn [app] in E. destruct results; [now elim N|]. now split.
  - intros before r after E H Hr. split; [|split].
    + unfold renderClientCard. now rewrite Hr.
    + unfold comissaoPctOrZero. now rewrite Hr.
    + destruct (appendCards_interrupted allTransactions before after r [] H Hr)
        as (cards & E' & F).
      exists cards. rewrite E. split; [|exact F].
      cbn [app] in E'. rewrite <- E'. now destruct before.
Qed.

End CardFacts.

Lemma cards_need_comissaoPct_witness :
  exists cards,
    showSearchResults numberToString numberToString 0 sampleRoster sampleStore "" "todos"
    = Interrupted cards
    /\ List.length cards = 1%nat.
Proof.
  destruct (cards_need_comissaoPct numberToString numberToString 0
              sampleRoster sampleStore "" "todos") as (_ & _ & H).
  destruct (H [mkResult (mkClient "c1" "Maria Souza" "Padaria Central" (Some (#10)%js))
                 (calculateClientBalance sampleStore "c1")]
              (mkResult (mkClient "c2" "JOSE LIMA" "Oficina Lima" None)
                 (calculateClientBalance sampleStore "c2"))
              [])
    as (_ & _ & cards & E & F).
  - reflexivity.
  - intros r' [<-|[]]. discriminate.
  - reflexivity.
  - exists cards. split; [exact E|].
    apply Forall2_length in F. now rewrite <- F.
Defined.

(** ** An amount that is not a number *)

Lemma sumOf_NaN (l : list number) : In NaN l -> sumOf l = NaN.
Proof.
  induction l as [|x l IH]; intros []; rewrite sumOf_cons.
  - now subst.
  - rewrite IH by assumption. apply jsadd_NaN_r.
Qed.

Lemma jssub_NaN_l (a : number) : (NaN - a)%js = NaN.
Proof. reflexivity. Qed.

Lemma jssub_NaN_r (a : number) : (a - NaN)%js = NaN.
Proof. now destruct a. Qed.

Lemma net_NaN (l : list Transaction.t) (t : Transaction.t) :
  In t l ->
  Transaction.tipo t = "entrada" \/ Transaction.tipo t = "saida" ->
  Transaction.valor t = NaN ->
  fold_left balanceStep l (#0)%js = NaN.
Proof.
  intros Hin Ht Hv. rewrite balance_fold.
  assert (forall tipo, Transaction.tipo t = tipo ->
            sumOf (map Transaction.valor (filter (isTipo tipo) l)) = NaN) as H.
  { intros tipo E. apply sumOf_NaN. rewrite <- Hv. apply in_map.
    apply filter_In. split; [exact Hin|]. unfold isTipo. now apply String.eqb_eq. }
  destruct Ht as [E|E]; rewrite (H _ E).
  - rewrite jssub_NaN_l. apply jsadd_NaN_r.
  - rewrite jssub_NaN_r. apply jsadd_NaN_r.
Qed.

Lemma keeps_NaN (balanceFilter : string) (r : ClientWithSaldo) :
  saldo r = NaN -> In balanceFilter ("positivo" :: rangeBuckets) ->
  keeps balanceFilter r = false.
Proof.
  intros Hs Hf. destruct (keeps_buckets r) as (Kp & K1 & K2 & K3 & Kn & Kz).
  rewrite Hs in *. cbn [In rangeBuckets] in Hf.
  repeat (destruct Hf as [<-|Hf]; [assumption|]). destruct Hf.
Qed.

(** X18. An amount that is not a number.  When a transaction of a client
    of the roster, an entrada or a saida, carries [NaN] as its [valor], the
    balance of the client is [NaN]: its card shows the text of the amount
    zero, and so does the net balance of the dashboard over all dates, while
    the client is found under no balance filter but 'todos'. *)
Theorem nan_valor_effects (formatBRL toLocaleDateString : number -> string)
    (LocalTZA : Z) (allClients : list Client.t)
    (allTransactions : list Transaction.t) (t : Transaction.t) (c : Client.t) :
  In t allTransactions ->
  Transaction.clienteId t = Client.id c ->
  Transaction.tipo t = "entrada" \/ Transaction.tipo t = "saida" ->
  Transaction.valor t = NaN ->
  let r := mkResult c (calculateClientBalance allTransactions (Client.id c)) in
  saldo r = NaN
  /\ (forall card,
        renderClientCard formatBRL toLocaleDateString LocalTZA allTransactions r
        = Some card ->
        Card.saldo card = formatBRL (#0)%js)
  /\ statSaldoTotal
       (updateDashboardUI formatBRL
          (calculateDashboardStats LocalTZA allClients allTransactions None None))
     = formatBRL (#0)%js
  /\ (forall query balanceFilter,
        In balanceFilter ("positivo" :: rangeBuckets) ->
        ~ In r (refreshSearchResults allClients allTransactions query balanceFilter)).
Proof.
  intros Hin Hc Ht Hv r.
  assert (calculateClientBalance allTransactions (Client.id c) = NaN) as Hs.
  { unfold calculateClientBalance.
    apply (net_NaN _ t); [|exact Ht|exact Hv].
    apply filter_In. split; [exact Hin|]. now apply String.eqb_eq. }
  split; [exact Hs|]. split; [|split].
  - intros card. unfold renderClientCard. cbn [r client saldo].
    destruct (Client.comissaoPct c); [|discriminate].
    intros [= <-]. cbn [Card.saldo]. now rewrite Hs.
  - cbn [updateDashboardUI statSaldoTotal].
    rewrite saldoTotal_fold, filteredTransactions_unbounded.
    now rewrite (net_NaN _ t Hin Ht Hv).
  - intros query balanceFilter Hf Hr. unfold refreshSearchResults in Hr.
    rewrite keeps_filter in Hr. apply filter_In in Hr. destruct Hr as [_ K].
    rewrite (keeps_NaN balanceFilter r Hs Hf) in K. discriminate.
Qed.

Lemma nan_valor_effects_witness :
  calculateClientBalance
    [Transaction.mk "trans_1" "c1" "entrada" NaN "2024-01-10"] "c1" = NaN.
Proof.
  refine (proj1 (nan_valor_effects numberToString numberToString 0 sampleRoster
                   [Transaction.mk "trans_1" "c1" "entrada" NaN "2024-01-10"]
                   (Transaction.mk "trans_1" "c1" "entrada" NaN "2024-01-10")
                   (mkClient "c1" "Maria Souza" "Padaria Central" (Some (#10)%js))
                   _ eq_refl _ eq_refl)).
  - now left.
  - now left.
Defined.

(** * The texts of the percentages *)

Lemma isDigit_value (c : ascii) :
  isDigit c = true ->
  exists v, digitValue c = Some v /\ 0 <= v <= 9
            /\ Z.of_nat (nat_of_ascii c) = 48 + v.
Proof.
  unfold isDigit, digitValue. intro H. apply andb_true_iff in H.
  destruct H as [H1 H2]. apply Nat.leb_le in H1. apply Nat.leb_le in H2.
  exists (Z.of_nat (nat_of_ascii c) - 48).
  replace ((48 <=? Z.of_nat (nat_of_ascii c)) && (Z.of_nat (nat_of_ascii c) <=? 57))
    with true by (symmetry; apply andb_true_iff; split; apply Z.leb_le; lia).
  repeat split; lia.
Qed.

Lemma digitsToZ_cons (c : ascii) (s : string) :
  isDigit c = true -> allDigits s = true ->
  exists v, 0 <= v <= 9 /\ Z.of_nat (nat_of_ascii c) = 48 + v
            /\ digitsToZ (String c s)
               = v * 10 ^ Z.of_nat (String.length s) + digitsToZ s.
Proof.
  intros Hc Hs. destruct (isDigit_value c Hc) as (v & Ev & Hv & Hn).
  exists v. split; [exact Hv|]. split; [exact Hn|].
  unfold digitsToZ at 1. cbn [digitsFrom]. rewrite Ev.
  rewrite (digitsFrom_allDigits s Hs). f_equal.
Qed.

Lemma digitsToZ_bound (s : string) :
  allDigits s = true -> 0 <= digitsToZ s < 10 ^ Z.of_nat (String.length s).
Proof.
  induction s as [|c s IH]; intro H; [cbn; lia|].
  cbn [allDigits] in H. apply andb_true_iff in H. destruct H as [Hc Hs].
  destruct (digitsToZ_cons c s Hc Hs) as (v & Hv & _ & ->).
  specialize (IH Hs). cbn [String.length].
  rewrite Nat2Z.inj_succ, Z.pow_succ_r by lia. nia.
Qed.

(** Two strings of digits of one length that denote one number are
    equal. *)
Lemma digits_same_length_value (s s' : string) :
  allDigits s = true -> allDigits s' = true ->
  String.length s = String.length s' ->
  digitsToZ s = digitsToZ s' -> s = s'.
Proof.
  revert s'. induction s as [|c s IH]; intros [|c' s'] H H' L V;
    try discriminate L; [reflexivity|].
  cbn [allDigits] in H, H'. apply andb_true_iff in H. apply andb_true_iff in H'.
  destruct H as [Hc Hs], H' as [Hc' Hs']. cbn [String.length] in L.
  injection L as L.
  destruct (digitsToZ_cons c s Hc Hs) as (v & Hv & Hn & E).
  destruct (digitsToZ_cons c' s' Hc' Hs') as (v' & Hv' & Hn' & E').
  rewrite E, E', L in V.
  pose proof (digitsToZ_bound s Hs) as B. pose proof (digitsToZ_bound s' Hs') as B'.
  rewrite L in B.
  assert (v = v') as Ev by nia. subst v'.
  assert (digitsToZ s = digitsToZ s') as Er by lia.
  f_equal; [|now apply IH].
  assert (nat_of_ascii c = nat_of_ascii c') as Ec by lia.
  apply (f_equal ascii_of_nat) in Ec. now rewrite !ascii_nat_embedding in Ec.
Qed.

(** The number of digits of a positive integer. *)
Lemma digitsOfZ_length (n : Z) :
  0 < n ->
  10 ^ (Z.of_nat (String.length (digitsOfZ n)) - 1) <= n
  < 10 ^ Z.of_nat (String.length (digitsOfZ n)).
Proof.
  intro Hn. destruct (digitsOfZ_spec n ltac:(lia)) as (Hall & _ & Hhead).
  pose proof (digitsToZ_bound _ Hall) as B.
  rewrite digitsToZ_digitsOfZ in B by lia. split; [|lia].
  destruct (Hhead Hn) as (c & rest & E & Hc).
  pose proof (digitsToZ_digitsOfZ n ltac:(lia)) as V.
  rewrite E in *. cbn [allDigits] in Hall. apply andb_true_iff in Hall.
  destruct Hall as [Dc Hrest].
  destruct (digitsToZ_cons c rest Dc Hrest) as (v & Hv & Hnat & Ev).
  assert (v <> 0) as Nz.
  { intros ->. assert (nat_of_ascii c = 48%nat) as F by lia.
    apply (f_equal ascii_of_nat) in F. rewrite ascii_nat_embedding in F.
    subst c. discriminate Hc. }
  pose proof (digitsToZ_bound rest Hrest) as Br.
  cbn [String.length]. rewrite Nat2Z.inj_succ.
  replace (Z.succ (Z.of_nat (String.length rest)) - 1)
    with (Z.of_nat (String.length rest)) by lia.
  assert (0 < 10 ^ Z.of_nat (String.length rest)) by (apply Z.pow_pos_nonneg; lia).
  nia.
Qed.

Lemma pad_digitsToZ (w : nat) (n : Z) :
  0 <= n < 10 ^ Z.of_nat w -> (1 <= w)%nat -> digitsToZ (pad w n) = n.
Proof.
  intros Hn Hw. destruct (pad_spec w n Hn Hw) as (_ & _ & V).
  unfold digitsToZ, digitsValue in *. destruct (pad w n); [discriminate|].
  now rewrite V.
Qed.

(** The digits that [toFixed] lays out are those of the integer part
    followed by [f] digits. *)
Lemma fixed_digits (f : nat) (n : Z) :
  0 <= n -> (1 <= f)%nat ->
  zeros (S f - String.length (digitsOfZ n)) ++ digitsOfZ n
  = digitsOfZ (n / 10 ^ Z.of_nat f) ++ pad f (n mod 10 ^ Z.of_nat f).
Proof.
  intros Hn Hf. set (p := 10 ^ Z.of_nat f).
  assert (0 < p) as Hp by (apply Z.pow_pos_nonneg; lia).
  pose proof (Z.div_mod n p ltac:(lia)) as Edm.
  pose proof (Z.mod_pos_bound n p Hp) as Blo.
  assert (0 <= n / p) as Bhi by (apply Z.div_pos; lia).
  destruct (pad_spec f (n mod p) Blo Hf) as (Lp & Ap & _).
  destruct (digitsOfZ_spec n Hn) as (An & _ & _).
  destruct (digitsOfZ_spec (n / p) Bhi) as (Ah & _ & _).
  destruct (zeros_spec (S f - String.length (digitsOfZ n))) as (Az & Lz & _).
  apply digits_same_length_value.
  - now rewrite allDigits_append, Az, An.
  - now rewrite allDigits_append, Ah, Ap.
  - rewrite !length_append, Lz, Lp.
    destruct (Z.eq_dec (n / p) 0) as [E0|N0].
    + rewrite E0. change (String.length (digitsOfZ 0)) with 1%nat.
      assert (n < p) as Hlt by nia.
      pose proof (length_digitsOfZ n f ltac:(fold p; lia) Hf). lia.
    + assert (0 < n) as Pn by nia.
      pose proof (digitsOfZ_length n Pn) as Ln.
      pose proof (digitsOfZ_length (n / p) ltac:(lia)) as Lh.
      set (L := String.length (digitsOfZ n)) in *.
      set (H := String.length (digitsOfZ (n / p))) in *.
      assert (1 <= H)%nat as H1.
      { unfold H. destruct (digitsOfZ (n / p)) eqn:E; [|cbn; lia].
        destruct (digitsOfZ_spec (n / p) Bhi) as (_ & _ & Hd).
        destruct (Hd ltac:(lia)) as (c & r & E' & _). congruence. }
      assert (10 ^ (Z.of_nat H - 1) * p = 10 ^ (Z.of_nat H - 1 + Z.of_nat f)) as P1
        by (unfold p; rewrite Z.pow_add_r by lia; reflexivity).
      assert (10 ^ Z.of_nat H * p = 10 ^ (Z.of_nat H + Z.of_nat f)) as P2
        by (unfold p; rewrite Z.pow_add_r by lia; reflexivity).
      assert (10 ^ (Z.of_nat H - 1 + Z.of_nat f) < 10 ^ Z.of_nat L) as Q1 by nia.
      assert (10 ^ (Z.of_nat L - 1) < 10 ^ (Z.of_nat H + Z.of_nat f)) as Q2 by nia.
      apply Z.pow_lt_mono_r_iff in Q1; [|lia|lia].
      apply Z.pow_lt_mono_r_iff in Q2; [|lia|lia].
      lia.
  - rewrite !digitsToZ_append by assumption.
    rewrite digitsToZ_zeros, !digitsToZ_digitsOfZ, pad_digitsToZ, Lp by assumption.
    fold p. lia.
Qed.

Lemma replaceFirst_digits (a rest : string) :
  allDigits a = true ->
  replaceFirst "." "," (a ++ "." ++ rest) = a ++ "," ++ rest.
Proof.
  induction a as [|c a IH]; intro H; [reflexivity|].
  cbn [allDigits] in H. apply andb_true_iff in H. destruct H as [Hc Ha].
  cbn [append replaceFirst].
  replace (Ascii.eqb c ".") with false; [f_equal; exact (IH Ha)|].
  destruct c as [[] [] [] [] [] [] [] []]; try discriminate Hc; reflexivity.
Qed.

Lemma substring_whole (s : string) : substring 0 (String.length s) s = s.
Proof.
  pose proof (substring_append_prefix s "") as H. now rewrite append_nil_r in H.
Qed.

(** [toFixed], then the comma for the point. *)
Lemma toFixed_comma (f : nat) (q : Qc) :
  (1 <= f)%nat -> (magnitude q < inject_Z (10 ^ 21))%Q ->
  let n := (2 * Z.abs (Qnum (this q)) * 10 ^ Z.of_nat f + Zpos (Qden (this q)))
           / (2 * Zpos (Qden (this q))) in
  0 <= n
  /\ replaceFirst "." "," (toFixed f (Num q)) = signText q ++ commaText f n
  /\ (inject_Z n - Qmake 1 2 <= inject_Z (10 ^ Z.of_nat f) * magnitude q
      < inject_Z n + Qmake 1 2)%Q.
Proof.
  intros Hf Hm n. unfold magnitude in *.
  set (num := Z.abs (Qnum (this q))) in *. set (den := Zpos (Qden (this q))) in *.
  assert (0 <= num) as Hnum by (unfold num; lia).
  assert (0 < den) as Hden by (unfold den; lia).
  assert (0 < 10 ^ Z.of_nat f) as Hp by (apply Z.pow_pos_nonneg; lia).
  assert (0 <= n) as Hn.
  { unfold n. apply Z.div_pos; nia. }
  split; [exact Hn|]. split.
  - unfold toFixed. fold num den.
    replace (10 ^ 21 * den <=? num) with false.
    2:{ symmetry. apply Z.leb_gt. unfold Qlt, inject_Z in Hm.
        cbn [Qnum Qden] in Hm. fold den in Hm. lia. }
    replace (f =? 0)%nat with false by (symmetry; apply Nat.eqb_neq; lia).
    cbv zeta. fold n. rewrite (fixed_digits f n Hn Hf).
    set (p := 10 ^ Z.of_nat f) in *.
    destruct (pad_spec f (n mod p) (Z.mod_pos_bound n p Hp) Hf) as (Lp & _ & _).
    destruct (digitsOfZ_spec (n / p) ltac:(apply Z.div_pos; lia)) as (Ah & _ & _).
    rewrite length_append, Lp.
    replace (String.length (digitsOfZ (n / p)) + f - f)%nat
      with (String.length (digitsOfZ (n / p))) by lia.
    rewrite substring_append_prefix.
    pose proof (substring_append_skip (digitsOfZ (n / p)) (pad f (n mod p)) 0 f) as S.
    rewrite Nat.add_0_r in S. rewrite S.
    rewrite <- Lp at 1. rewrite substring_whole.
    unfold signText, commaText. fold p.
    destruct (Qnum (this q) <? 0).
    + exact (f_equal (String "-") (replaceFirst_digits _ _ Ah)).
    + exact (replaceFirst_digits _ _ Ah).
  - set (p := 10 ^ Z.of_nat f) in *.
    pose proof (Z.div_mod (2 * num * p + den) (2 * den) ltac:(lia)) as Edm.
    pose proof (Z.mod_pos_bound (2 * num * p + den) (2 * den) ltac:(lia)) as Bm.
    fold n in Edm.
    unfold Qle, Qlt, Qminus, Qplus, Qopp, Qmult, inject_Z. cbn [Qnum Qden].
    fold den. split; nia.
Qed.

(** X19. The percentages are shown rounded, with a decimal comma.  The
    average of the dashboard is written as a sign, an integer part, a
    comma, two digits and [%]; the percentage of a card as a sign, an
    integer part, a comma and one digit.  The number that is written is
    the nearest one with that many decimals, the larger in magnitude on a
    tie (for magnitudes below [10^21]). *)
Theorem percentage_texts (formatBRL toLocaleDateString : number -> string)
    (LocalTZA : Z) :
  (forall stats q,
      comissaoMediaPct stats = Num q ->
      (magnitude q < inject_Z (10 ^ 21))%Q ->
      exists n,
        0 <= n
        /\ statComissaoMedia (updateDashboardUI formatBRL stats)
           = signText q ++ commaText 2 n ++ "%"
        /\ (inject_Z n - Qmake 1 2 <= inject_Z 100 * magnitude q
            < inject_Z n + Qmake 1 2)%Q)
  /\ (forall allTransactions r card q,
        Client.comissaoPct (client r) = Some (Num q) ->
        (magnitude q < inject_Z (10 ^ 21))%Q ->
        renderClientCard formatBRL toLocaleDateString LocalTZA allTransactions r
        = Some card ->
        exists n,
          0 <= n
          /\ Card.comissaoPct card = signText q ++ commaText 1 n
          /\ (inject_Z n - Qmake 1 2 <= inject_Z 10 * magnitude q
              < inject_Z n + Qmake 1 2)%Q).
Proof.
  split.
  - intros stats q E Hm.
    destruct (toFixed_comma 2 q ltac:(lia) Hm) as (Hn & Ht & Hr).
    eexists. split; [exact Hn|]. split; [|exact Hr].
    cbn [updateDashboardUI statComissaoMedia]. rewrite E, Ht.
    now rewrite append_assoc.
  - intros allTransactions r card q E Hm. unfold renderClientCard. rewrite E.
    intros [= <-]. cbn [Card.comissaoPct].
    destruct (toFixed_comma 1 q ltac:(lia) Hm) as (Hn & Ht & Hr).
    eexists. split; [exact Hn|]. split; [exact Ht|exact Hr].
Qed.

Lemma percentage_texts_witness :
  exists n,
    0 <= n
    /\ statComissaoMedia
         (updateDashboardUI numberToString
            (mkStats (#2)%js (#1240)%js (#100)%js (#5)%js))
       = "" ++ commaText 2 n ++ "%".
Proof.
  destruct (proj1 (percentage_texts numberToString numberToString 0)
              (mkStats (#2)%js (#1240)%js (#100)%js (#5)%js)
              (Q2Qc (inject_Z 5)) eq_refl eq_refl) as (n & Hn & Ht & _).
  exists n. split; [exact Hn|exact Ht].
Defined.

(** * The transaction form and the start of the page *)

Lemma readStore_toJson (transactions : list Transaction.t) :
  readStore (map toJson transactions) = Some transactions.
Proof.
  induction transactions as [|t l IH]; [reflexivity|].
  cbn [map readStore]. now rewrite asTransaction_toJson, IH.
Qed.

Lemma getTodayDate_not_empty (clock : Z) :
  dayFromYear 0 * msPerDay <= clock < dayFromYear 10000 * msPerDay ->
  String.eqb (getTodayDate clock) "" = false.
Proof.
  intro H. rewrite (getTodayDate_pad clock H).
  assert (dayFromYear 0 <= clock / msPerDay < dayFromYear 10000) as Hn.
  { unfold msPerDay in *. Z.div_mod_to_equations. lia. }
  destruct (civilFromDay_spec _ Hn) as [V _].
  destruct (validDate_month_day _ V) as (Hy & _ & _).
  destruct (pad_spec 4 _ Hy ltac:(lia)) as (Ly & _ & _).
  destruct (string_length_4 _ Ly) as (y1 & y2 & y3 & y4 & ->). reflexivity.
Qed.

Section PageFacts.

Variable formatBRL : number -> string.
Variable toLocaleDateString : number -> string.
Variable LocalTZA : Z.
Variable parseFloat : string -> number.
Variable formReset : TransactionModal.t -> TransactionModal.t.

(** X20. The transaction form.  A submit with an empty field is rejected
    with the alert 'Campos Incompletos' and records nothing; this is the
    case of a form that was just opened, whose value is empty.  Once a value
    is typed into the form opened by a button of a card, the submit records
    one transaction for the client and the kind of that button, with the
    typed value and the date that the form proposed, the UTC day of the
    clock at the opening, hides the form and refreshes the page from the
    new store: a store of records of the data model is read, after the
    submit, as the same records followed by the new one. *)
Theorem transaction_form_flow (clock now : Z) (clientId type value : string)
    (st : App.State) (allClients : list Client.t)
    (dateStart dateEnd searchInput filterSaldo : string) :
  dayFromYear 0 * msPerDay <= clock < dayFromYear 10000 * msPerDay ->
  clientId <> "" -> type <> "" ->
  let submit m :=
    handleTransactionSubmit formatBRL toLocaleDateString LocalTZA parseFloat formReset
      now m st allClients dateStart dateEnd searchInput filterSaldo in
  let opened := showTransactionModal clock clientId type in
  let filled :=
    TransactionModal.mk (TransactionModal.isEntry opened) type clientId value
      (getTodayDate clock) false in
  let st' :=
    addTransaction parseFloat now clientId type value (getTodayDate clock) st in
  let t :=
    Transaction.mk ("trans_" ++ numberToString (#now)%js) clientId type
      (parseFloat value) (getTodayDate clock) in
  (forall m,
      TransactionModal.modalTransactionType m = ""
      \/ TransactionModal.modalClientId m = ""
      \/ TransactionModal.modalValue m = ""
      \/ TransactionModal.modalDate m = "" ->
      submit m = Rejected CamposIncompletos)
  /\ submit opened = Rejected CamposIncompletos
  /\ (value <> "" ->
      submit filled
      = Accepted st' (hideTransactionModal formReset filled)
          (option_map
             (fun allTransactions =>
                refreshAllData formatBRL toLocaleDateString LocalTZA allClients
                  allTransactions dateStart dateEnd searchInput filterSaldo)
             (readStore (App.allTransactions st')))
      /\ TransactionModal.hidden (hideTransactionModal formReset filled) = true
      /\ (forall transactions,
            App.allTransactions st = map toJson transactions ->
            readStore (App.allTransactions st') = Some (transactions ++ [t])%list)).
Proof.
  intros Hclock Hc Ht submit opened filled st' t.
  assert (forall m,
      TransactionModal.modalTransactionType m = ""
      \/ TransactionModal.modalClientId m = ""
      \/ TransactionModal.modalValue m = ""
      \/ TransactionModal.modalDate m = "" ->
      submit m = Rejected CamposIncompletos) as Hrej.
  { intros m H. unfold submit, handleTransactionSubmit.
    destruct H as [E | [E | [E | E]]]; rewrite E; cbn [String.eqb orb];
      rewrite ?orb_true_r; reflexivity. }
  split; [exact Hrej|]. split.
  - apply Hrej. right. right. left. reflexivity.
  - intro Hv. split; [|split].
    + unfold submit, handleTransactionSubmit, filled.
      cbn [TransactionModal.modalTransactionType TransactionModal.modalClientId
           TransactionModal.modalValue TransactionModal.modalDate].
      replace (String.eqb type "") with false
        by (symmetry; now apply String.eqb_neq).
      replace (String.eqb clientId "") with false
        by (symmetry; now apply String.eqb_neq).
      replace (String.eqb value "") with false
        by (symmetry; now apply String.eqb_neq).
      rewrite (getTodayDate_not_empty clock Hclock). reflexivity.
    + reflexivity.
    + intros transactions E. unfold st', addTransaction.
      cbn [saveTransactions setTransactions App.allTransactions].
      rewrite E, newTransaction_toJson.
      change [toJson ?x] with (map toJson [x]).
      rewrite <- map_app. apply readStore_toJson.
Qed.

Lemma first_without_comissaoPct (results : list ClientWithSaldo) :
  (exists r, In r results /\ Client.comissaoPct (client r) = None) ->
  exists before r after,
    results = (before ++ r :: after)%list
    /\ (forall r', In r' before -> Client.comissaoPct (client r') <> None)
    /\ Client.comissaoPct (client r) = None.
Proof.
  induction results as [|x l IH]; intros (r & Hin & Hr); [destruct Hin|].
  destruct (Client.comissaoPct (client x)) as [p|] eqn:E.
  - destruct IH as (before & r' & after & -> & Hb & Hr').
    { destruct Hin as [->|Hin]; [congruence|eauto]. }
    exists (x :: before), r', after. split; [reflexivity|]. split; [|exact Hr'].
    intros y [<-|Hy]; [congruence|now apply Hb].
  - exists [], x, l. split; [reflexivity|]. split; [|exact E].
    intros r' Hr'. destruct Hr'.
Qed.

(** X21. The start of the page.  The listeners are added after the first
    refresh only, so the page stays without any of them when the stored
    item is not the text of an array, or when one of the clients shown by
    the first refresh has no [comissaoPct].  When the load of the roster
    fails and the store is readable, the page starts with the alert
    'Erro Grave', no client, and the message for an empty result.  When
    every client has a [comissaoPct] and the store holds records of the
    data model, the page starts with the roster and the store as loaded. *)
Theorem page_start (fetched : FetchOutcome) (page : App.State)
    (dateStart dateEnd searchInput filterSaldo : string) :
  let start :=
    initializePage formatBRL toLocaleDateString LocalTZA
      fetched page dateStart dateEnd searchInput filterSaldo in
  (forall text,
      App.localStorage page = Some text -> text <> "" ->
      JSON_parse text = None
      \/ (exists v, JSON_parse text = Some v /\ forall l, v <> JArray l) ->
      start = Halted)
  /\ (forall roster st allTransactions,
        fetched = Fetched (Some roster) ->
        loadTransactions page = Loaded st ->
        readStore (App.allTransactions st) = Some allTransactions ->
        (exists r,
            In r (refreshSearchResults roster allTransactions searchInput filterSaldo)
            /\ Client.comissaoPct (client r) = None) ->
        start = Halted)
  /\ (forall st allTransactions,
        fetched = FetchFails ->
        loadTransactions page = Loaded st ->
        readStore (App.allTransactions st) = Some allTransactions ->
        exists dashboard,
          start = Interactive [] st (Some ErroGrave) dashboard NenhumClienteEncontrado
          /\ statTotalClientes dashboard = "0")
  /\ (forall roster st allTransactions,
        fetched = Fetched (Some roster) ->
        loadTransactions page = Loaded st ->
        readStore (App.allTransactions st) = Some allTransactions ->
        (forall c, In c roster -> Client.comissaoPct c <> None) ->
        exists dashboard shown,
          start = Interactive roster st None dashboard shown).
Proof.
  intro start. unfold start, initializePage. split; [|split; [|split]].
  - intros text Hs Ht Hp. destruct (loadClients fetched []) as [allClients alert].
    unfold loadTransactions. rewrite Hs.
    replace (String.eqb text "") with false by (symmetry; now apply String.eqb_neq).
    destruct Hp as [->|(v & -> & Hv)]; [reflexivity|].
    destruct v; try reflexivity. now elim (Hv elements).
  - intros roster st allTransactions -> -> -> Hr. cbn [loadClients].
    unfold refreshAllData, showSearchResults.
    destruct (first_without_comissaoPct _ Hr) as (before & r & after & E & Hb & Hn).
    destruct (appendCards_interrupted formatBRL toLocaleDateString LocalTZA
                allTransactions before after r [] Hb Hn) as (cards & E' & _).
    rewrite E. destruct before as [|b before']; cbn [app] in E' |- *;
      now rewrite E'.
  - intros st allTransactions -> -> ->. cbn [loadClients].
    unfold refreshAllData, showSearchResults.
    destruct (refreshSearchResults [] allTransactions searchInput filterSaldo)
      as [|r l] eqn:E.
    + eexists. split; [reflexivity|].
      cbn [updateDashboardUI statTotalClientes].
      destruct (stats_projections LocalTZA [] allTransactions
                  (Some dateStart) (Some dateEnd)) as (-> & _).
      reflexivity.
    + exfalso. unfold refreshSearchResults, applyTextFilter, applyBalanceFilter in E.
      cbn [map] in E.
      destruct (0 <? String.length searchInput)%nat; cbn [filter] in E;
        destruct (negb (String.eqb filterSaldo "todos")); try discriminate E;
        destruct (balancePredicate filterSaldo); discriminate E.
  - intros roster st allTransactions -> -> -> Hall. cbn [loadClients].
    unfold refreshAllData, showSearchResults.
    set (results := refreshSearchResults roster allTransactions searchInput filterSaldo).
    destruct (appendCards_complete formatBRL toLocaleDateString LocalTZA
                allTransactions results []) as (cards & E & _).
    { intros r Hr. unfold results, refreshSearchResults in Hr.
      rewrite keeps_filter, applyTextFilter_filter in Hr.
      apply filter_In in Hr. destruct Hr as [Hr _].
      apply filter_In in Hr. destruct Hr as [Hr _].
      apply in_map_iff in Hr. destruct Hr as (c & <- & Hc).
      cbn [client]. now apply Hall. }
    destruct results as [|r l]; [eauto|]. rewrite E. eauto.
Qed.

End PageFacts.

Lemma transaction_form_flow_witness :
  handleTransactionSubmit numberToString numberToString 0 (fun _ => (#25)%js)
    (fun m => m) 1705100000001 (showTransactionModal 1705100000000 "c2" "entrada")
    sampleState sampleRoster "" "" "" "todos"
  = Rejected CamposIncompletos.
Proof.
  refine (proj1 (proj2
            (transaction_form_flow numberToString numberToString 0
               (fun _ => (#25)%js) (fun m => m) 1705100000000 1705100000001
               "c2" "entrada" "25" sampleState sampleRoster "" "" "" "todos"
               _ _ _))).
  - vm_compute. split; [discriminate|reflexivity].
  - discriminate.
  - discriminate.
Defined.

Lemma page_start_witness :
  initializePage numberToString numberToString 0
    (Fetched (Some sampleRoster)) (saveTransactions sampleState) "" "" "" "todos"
  = Halted.
Proof.
  refine (proj1 (proj2
            (page_start numberToString numberToString 0
               (Fetched (Some sampleRoster)) (saveTransactions sampleState)
               "" "" "" "todos"))
            sampleRoster
            (setTransactions (App.allTransactions sampleState)
               (saveTransactions sampleState))
            sampleStore eq_refl _ _ _).
  - vm_compute. reflexivity.
  - reflexivity.
  - exists (mkResult (mkClient "c2" "JOSE LIMA" "Oficina Lima" None)
              (calculateClientBalance sampleStore "c2")).
    split; [|reflexivity]. simpl. right. now left.
Defined.
